(** * The streaming chat page of the GraphRAG agent front end

    A shallow embedding of [ChatPage] and its [handleSubmit] handler
    (frontend/src/app/(app)/dashboard/page.tsx, lines 236-501), with the
    JavaScript string and JSON operations the handler relies on, followed by
    the properties of the streaming protocol checked against it. *)

From Stdlib Require Import List Arith NArith ZArith Bool Lia String Ascii.
From Stdlib Require Import DecimalString DecimalN.
Import ListNotations.

Local Open Scope N_scope.
Set Warnings "-register-all".

(** ** JavaScript strings *)

(** A JavaScript string is a sequence of UTF-16 code units. *)
Definition jsstring := list N.

Module JSString.

Definition unit_of_ascii (a : ascii) : N := N_of_ascii a.

(** [lit] writes a [jsstring] down as a Rocq string: an apostrophe stands
    for the double quote, and a backslash followed by n, r, t or a second
    backslash stands for line feed, carriage return, tab or one backslash.
    Every other character stands for itself. *)
Fixpoint lit (s : string) : jsstring :=
  match s with
  | EmptyString => []
  | String "\" (String "n" r) => 10 :: lit r
  | String "\" (String "r" r) => 13 :: lit r
  | String "\" (String "t" r) => 9 :: lit r
  | String "\" (String "\" r) => 92 :: lit r
  | String "'" r => 34 :: lit r
  | String a r => unit_of_ascii a :: lit r
  end.

Definition eqb (s t : jsstring) : bool :=
  if list_eq_dec N.eq_dec s t then true else false.

(** [s.startsWith(p)] *)
Fixpoint startsWith (s p : jsstring) {struct p} : bool :=
  match p, s with
  | [], _ => true
  | _ :: _, [] => false
  | a :: p', b :: s' => (a =? b) && startsWith s' p'
  end.

(** [s.slice(n)] for a non-negative [n] *)
Definition slice (n : nat) (s : jsstring) : jsstring := skipn n s.

(** [s.split(sep)] for a separator of one code unit: the pieces between
    the occurrences of [sep]; a string without [sep] is its only piece. *)
Fixpoint split (sep : N) (s : jsstring) : list jsstring :=
  match s with
  | [] => [[]]
  | c :: r =>
      if c =? sep then [] :: split sep r
      else match split sep r with
           | [] => [[c]]
           | l :: ls => (c :: l) :: ls
           end
  end.

(** WhiteSpace and LineTerminator code points of ECMAScript, the ones
    [String.prototype.trim] strips. All of them are in the basic plane, so
    the test is on single code units. *)
Definition isWhiteSpace (c : N) : bool :=
  (c =? 9) || (c =? 10) || (c =? 11) || (c =? 12) || (c =? 13) ||
  (c =? 32) || (c =? 160) || (c =? 5760) ||
  ((8192 <=? c) && (c <=? 8202)) ||
  (c =? 8232) || (c =? 8233) || (c =? 8239) || (c =? 8287) ||
  (c =? 12288) || (c =? 65279).

Fixpoint trimStart (s : jsstring) : jsstring :=
  match s with
  | c :: r => if isWhiteSpace c then trimStart r else s
  | [] => []
  end.

Definition trimEnd (s : jsstring) : jsstring := rev (trimStart (rev s)).

(** [s.trim()] *)
Definition trim (s : jsstring) : jsstring := trimEnd (trimStart s).

(** [n.toString()] for a non-negative integer below 2^53, where the
    number is exact and JavaScript prints all its digits; the readings
    of [Date.now()] are far below. *)
Definition toString (n : N) : jsstring :=
  map unit_of_ascii (list_ascii_of_string (NilZero.string_of_uint (N.to_uint n))).

End JSString.

Definition js (s : string) : jsstring := JSString.lit s.

(** ** JSON.parse *)

Module JSON.

(** The values [JSON.parse] builds. A number keeps its literal: its value
    as a double is the runtime's business (see [Runtime] below). Members
    of an object are kept in source order, duplicates included. *)
Inductive JSValue :=
| JNull
| JBool (b : bool)
| JNumber (literal : jsstring)
| JString (s : jsstring)
| JArray (elements : list JSValue)
| JObject (members : list (jsstring * JSValue)).

Inductive token :=
| TLBrace | TRBrace | TLBracket | TRBracket | TColon | TComma
| TString (s : jsstring)
| TNumber (literal : jsstring)
| TTrue | TFalse | TNull.

(** What a parsing function returns: a result, a rejection of the text
    (where [JSON.parse] throws a SyntaxError), or the end of its fuel. *)
Inductive result (A : Type) :=
| Ok (a : A)
| SyntaxError
| OutOfFuel.
Arguments Ok {A} a.
Arguments SyntaxError {A}.
Arguments OutOfFuel {A}.

Definition bind {A B} (r : result A) (k : A -> result B) : result B :=
  match r with
  | Ok a => k a
  | SyntaxError => SyntaxError
  | OutOfFuel => OutOfFuel
  end.

(** *** Lexical grammar *)

(** JSONWhiteSpace: tab, line feed, carriage return, space. *)
Definition isJSONWhiteSpace (c : N) : bool :=
  (c =? 9) || (c =? 10) || (c =? 13) || (c =? 32).

Definition isDigit (c : N) : bool := (48 <=? c) && (c <=? 57).

Definition hexValue (c : N) : option N :=
  if isDigit c then Some (c - 48)
  else if (65 <=? c) && (c <=? 70) then Some (c - 55)
  else if (97 <=? c) && (c <=? 102) then Some (c - 87)
  else None.

Definition hex4 (a b c d : N) : option N :=
  match hexValue a, hexValue b, hexValue c, hexValue d with
  | Some a, Some b, Some c, Some d => Some (((a * 16 + b) * 16 + c) * 16 + d)
  | _, _, _, _ => None
  end.

(** The code unit of a one-letter escape: quote, slash, backslash, b, f,
    n, r, t. *)
Definition escapeUnit (c : N) : option N :=
  if c =? 34 then Some 34
  else if c =? 47 then Some 47
  else if c =? 92 then Some 92
  else if c =? 98 then Some 8
  else if c =? 102 then Some 12
  else if c =? 110 then Some 10
  else if c =? 114 then Some 13
  else if c =? 116 then Some 9
  else None.

Definition consUnit (c : N) (r : option (jsstring * jsstring)) :
  option (jsstring * jsstring) :=
  match r with
  | Some (s, rest) => Some (c :: s, rest)
  | None => None
  end.

(** The characters of a string after its opening quote, up to the
    closing one: the string's value and the text after it. Control
    characters below U+0020 may not appear unescaped. *)
Fixpoint lexString (s : jsstring) : option (jsstring * jsstring) :=
  match s with
  | [] => None
  | c :: r =>
      if c =? 34 then Some ([], r)
      else if c =? 92 then
        match r with
        | [] => None
        | e :: r1 =>
            if e =? 117 then
              match r1 with
              | h1 :: h2 :: h3 :: h4 :: r2 =>
                  match hex4 h1 h2 h3 h4 with
                  | Some u => consUnit u (lexString r2)
                  | None => None
                  end
              | _ => None
              end
            else
              match escapeUnit e with
              | Some u => consUnit u (lexString r1)
              | None => None
              end
        end
      else if c <? 32 then None
      else consUnit c (lexString r)
  end.

(** The longest prefix of digits, and the rest. *)
Fixpoint digits (s : jsstring) : jsstring * jsstring :=
  match s with
  | c :: r =>
      if isDigit c then let (ds, rest) := digits r in (c :: ds, rest)
      else ([], s)
  | [] => ([], [])
  end.

(** JSONNumber: an optional minus, an integer part that is 0 or starts
    with 1-9, an optional fraction, an optional exponent. Returns the
    literal and the text after it. *)
Definition lexInt (s : jsstring) : option (jsstring * jsstring) :=
  match s with
  | c :: r =>
      if c =? 48 then Some ([c], r)
      else if isDigit c then let (ds, rest) := digits r in Some (c :: ds, rest)
      else None
  | [] => None
  end.

Definition lexFraction (s : jsstring) : option (jsstring * jsstring) :=
  match s with
  | c :: r =>
      if c =? 46 then
        match digits r with
        | ([], _) => None
        | (ds, rest) => Some (c :: ds, rest)
        end
      else Some ([], s)
  | [] => Some ([], s)
  end.

Definition lexExponent (s : jsstring) : option (jsstring * jsstring) :=
  match s with
  | c :: r =>
      if (c =? 101) || (c =? 69) then
        let (sign, r1) :=
          match r with
          | c1 :: r' => if (c1 =? 43) || (c1 =? 45) then ([c1], r') else ([], r)
          | [] => ([], r)
          end in
        match digits r1 with
        | ([], _) => None
        | (ds, rest) => Some (c :: sign ++ ds, rest)
        end
      else Some ([], s)
  | [] => Some ([], s)
  end.

Definition lexNumber (s : jsstring) : option (jsstring * jsstring) :=
  let (sign, s0) :=
    match s with
    | c :: r => if c =? 45 then ([c], r) else ([], s)
    | [] => ([], s)
    end in
  match lexInt s0 with
  | Some (i, s1) =>
      match lexFraction s1 with
      | Some (f, s2) =>
          match lexExponent s2 with
          | Some (e, s3) => Some (sign ++ i ++ f ++ e, s3)
          | None => None
          end
      | None => None
      end
  | None => None
  end.

Definition consToken (t : token) (r : result (list token)) : result (list token) :=
  bind r (fun ts => Ok (t :: ts)).

(** The tokens of a text. Every step consumes at least one code unit, so
    fuel above the length of the text is never used up ([lex_fuel]). *)
Fixpoint lex (fuel : nat) (s : jsstring) : result (list token) :=
  match fuel with
  | O => OutOfFuel
  | S fuel =>
      match s with
      | [] => Ok []
      | c :: r =>
          if isJSONWhiteSpace c then lex fuel r
          else if c =? 123 then consToken TLBrace (lex fuel r)
          else if c =? 125 then consToken TRBrace (lex fuel r)
          else if c =? 91 then consToken TLBracket (lex fuel r)
          else if c =? 93 then consToken TRBracket (lex fuel r)
          else if c =? 58 then consToken TColon (lex fuel r)
          else if c =? 44 then consToken TComma (lex fuel r)
          else if c =? 34 then
            match lexString r with
            | Some (str, rest) => consToken (TString str) (lex fuel rest)
            | None => SyntaxError
            end
          else if (c =? 45) || isDigit c then
            match lexNumber s with
            | Some (n, rest) => consToken (TNumber n) (lex fuel rest)
            | None => SyntaxError
            end
          else if JSString.startsWith s (js "true") then
            consToken TTrue (lex fuel (skipn 4 s))
          else if JSString.startsWith s (js "false") then
            consToken TFalse (lex fuel (skipn 5 s))
          else if JSString.startsWith s (js "null") then
            consToken TNull (lex fuel (skipn 4 s))
          else SyntaxError
      end
  end.

(** *** Syntactic grammar *)

(** JSONValue, the elements of an array after its opening bracket, and
    the members of an object after its opening brace. Each returns what
    it read and the tokens after it. *)
Fixpoint parseValue (fuel : nat) (ts : list token) : result (JSValue * list token) :=
  match fuel with
  | O => OutOfFuel
  | S fuel =>
      match ts with
      | TNull :: r => Ok (JNull, r)
      | TTrue :: r => Ok (JBool true, r)
      | TFalse :: r => Ok (JBool false, r)
      | TString s :: r => Ok (JString s, r)
      | TNumber n :: r => Ok (JNumber n, r)
      | TLBracket :: TRBracket :: r => Ok (JArray [], r)
      | TLBracket :: r =>
          bind (parseElements fuel r) (fun '(vs, r') => Ok (JArray vs, r'))
      | TLBrace :: TRBrace :: r => Ok (JObject [], r)
      | TLBrace :: r =>
          bind (parseMembers fuel r) (fun '(ms, r') => Ok (JObject ms, r'))
      | _ => SyntaxError
      end
  end
with parseElements (fuel : nat) (ts : list token) : result (list JSValue * list token) :=
  match fuel with
  | O => OutOfFuel
  | S fuel =>
      bind (parseValue fuel ts) (fun '(v, r) =>
        match r with
        | TComma :: r' =>
            bind (parseElements fuel r') (fun '(vs, r'') => Ok (v :: vs, r''))
        | TRBracket :: r' => Ok ([v], r')
        | _ => SyntaxError
        end)
  end
with parseMembers (fuel : nat) (ts : list token) :
  result (list (jsstring * JSValue) * list token) :=
  match fuel with
  | O => OutOfFuel
  | S fuel =>
      match ts with
      | TString k :: TColon :: r =>
          bind (parseValue fuel r) (fun '(v, r') =>
            match r' with
            | TComma :: r'' =>
                bind (parseMembers fuel r'') (fun '(ms, r''') => Ok ((k, v) :: ms, r'''))
            | TRBrace :: r'' => Ok ([(k, v)], r'')
            | _ => SyntaxError
            end)
      | _ => SyntaxError
      end
  end.

(** JSONText: one value, with nothing but white space around it. *)
Definition parseText (fuel : nat) (s : jsstring) : result JSValue :=
  bind (lex fuel s) (fun ts =>
    bind (parseValue (2 * fuel) ts) (fun '(v, r) =>
      match r with
      | [] => Ok v
      | _ => SyntaxError
      end)).

(** [JSON.parse(text)]: the value, or [None] where it throws. *)
Definition parse (text : jsstring) : option JSValue :=
  match parseText (S (List.length text)) text with
  | Ok v => Some v
  | _ => None
  end.

End JSON.

Import JSON.

(** ** The JavaScript runtime *)

(** What the handler asks of the runtime about numbers: the truth value of
    a number and its conversion to a string. Both depend on the double a
    number literal denotes, which is not modelled; every property below
    holds for any choice of them. Neither operation throws. *)
Class Runtime := {
  (** ToBoolean of the number a JSON literal denotes: false exactly when
      the literal denotes (or rounds to) zero. *)
  numberToBoolean : jsstring -> bool;
  (** Number::toString of the number a JSON literal denotes. *)
  numberToString : jsstring -> jsstring
}.

(** The value of a JavaScript expression that may be [undefined]. *)
Definition jsvalue := option JSValue.
Definition undefined : jsvalue := None.

(** A statement either completes or throws; the state it leaves is kept in
    both cases. *)
Inductive completion (S : Type) :=
| Normal (st : S)
| Thrown (st : S).
Arguments Normal {S} st.
Arguments Thrown {S} st.

(** The member [key] of an object built by [JSON.parse]: the value of the
    last member of that name, as a later duplicate overwrites an earlier
    one. *)
Fixpoint member (key : jsstring) (ms : list (jsstring * JSValue)) : jsvalue :=
  match ms with
  | [] => undefined
  | (k, v) :: ms' =>
      match member key ms' with
      | Some v' => Some v'
      | None => if JSString.eqb k key then Some v else undefined
      end
  end.

(** The values whose string conversion throws: an object that has a member
    [toString], and an array that holds such a value. *)
Fixpoint hidesToString (v : JSValue) : bool :=
  match v with
  | JObject members =>
      match member (js "toString") members with
      | Some _ => true
      | None => false
      end
  | JArray elements => existsb hidesToString elements
  | _ => false
  end.

(** [Array.prototype.join] with the separator [,], where [conversion] is
    the string conversion of an element: the empty string stands for
    [null], and the conversions are made from the first element on. *)
Fixpoint join (conversion : JSValue -> option jsstring) (elements : list JSValue) :
  option jsstring :=
  match elements with
  | [] => Some []
  | e :: rest =>
      match (match e with JNull => Some [] | _ => conversion e end) with
      | None => None
      | Some s =>
          match rest with
          | [] => Some s
          | _ :: _ => option_map (fun r => s ++ 44 :: r) (join conversion rest)
          end
      end
  end.

(** Induction on a value and the elements of its arrays. *)
Fixpoint JSValue_elements_ind (P : JSValue -> Prop)
  (Hnull : P JNull) (Hbool : forall b, P (JBool b))
  (Hnumber : forall n, P (JNumber n)) (Hstring : forall s, P (JString s))
  (Harray : forall es, Forall P es -> P (JArray es))
  (Hobject : forall ms, P (JObject ms)) (v : JSValue) : P v :=
  match v with
  | JNull => Hnull
  | JBool b => Hbool b
  | JNumber n => Hnumber n
  | JString s => Hstring s
  | JArray es =>
      Harray es
        ((fix all (l : list JSValue) : Forall P l :=
            match l with
            | [] => Forall_nil P
            | e :: l' =>
                Forall_cons e
                  (JSValue_elements_ind P Hnull Hbool Hnumber Hstring Harray Hobject e)
                  (all l')
            end) es)
  | JObject ms => Hobject ms
  end.

Section Values.
Context {R : Runtime}.

Definition ToBoolean (v : jsvalue) : bool :=
  match v with
  | None => false
  | Some JNull => false
  | Some (JBool b) => b
  | Some (JNumber n) => numberToBoolean n
  | Some (JString s) => negb (JSString.eqb s [])
  | Some (JArray _) => true
  | Some (JObject _) => true
  end.

(** The string conversion that [s + v] applies to [v] when [s] is a
    string, for a value [v] built by [JSON.parse]; [None] where it throws a
    TypeError.

    An object is converted by its methods [valueOf] and [toString]. A
    member of that name, which [JSON.parse] makes an own property, hides
    the inherited method and is itself never a function. The inherited
    [valueOf] returns the object, which is no primitive value, so the
    outcome lies with [toString]: if the object has a member [toString] no
    method is left and the conversion throws; otherwise
    [Object.prototype.toString] gives [[object Object]]. An array has no
    named members of its own: [Array.prototype.toString] joins the
    conversions of its elements with commas, the empty string standing for
    [null], and throws where the conversion of an element does. The limits
    an engine puts on the depth of this recursion are not modelled. *)
Fixpoint ToString (v : JSValue) : option jsstring :=
  match v with
  | JNull => Some (js "null")
  | JBool b => Some (if b then js "true" else js "false")
  | JNumber n => Some (numberToString n)
  | JString t => Some t
  | JArray elements => join ToString elements
  | JObject members =>
      match member (js "toString") members with
      | Some _ => None
      | None => Some (js "[object Object]")
      end
  end.

(** [s + v] for a string [s]. *)
Definition plus (s : jsstring) (v : JSValue) : option jsstring :=
  option_map (fun t => s ++ t) (ToString v).

(** [v.key] for one of the keys [conversation_id] and [content], which no
    prototype defines: [None] where the access throws a TypeError (on
    [null]), [undefined] on anything but an object that has the member. *)
Definition getProperty (v : JSValue) (key : jsstring) : option jsvalue :=
  match v with
  | JNull => None
  | JObject ms => Some (member key ms)
  | _ => Some undefined
  end.

End Values.

(** ** The chat page *)

Inductive Role := user | assistant.

Record Message := {
  id : jsstring;
  role : Role;
  content : jsstring
}.

(** A call of [api.chat.streamMessage(message, conversationId)]. *)
Record Request := {
  message : jsstring;
  request_conversationId : jsvalue
}.

(** Where a running [handleSubmit] is suspended: at
    [await api.chat.streamMessage(...)] or at [await reader.read()]. *)
Inductive AwaitPoint := AwaitResponse | AwaitRead.

(** A running call of [handleSubmit]: what its closure holds, and where it
    waits. [call_conversationId] is [conversationId] as the call reads it,
    the constant of the render the handler belongs to, which
    [setConversationId] does not change. *)
Record Call := {
  assistantId : jsstring;
  call_conversationId : jsvalue;
  point : AwaitPoint
}.

(** The state of the component ([useState]) as the calls of its setters
    leave it, what it has sent and logged, and its running handlers.

    React applies the updates when it renders the component. An updater
    that throws does so there, outside the handler and its [try] blocks:
    React gives up the rendering and, as the page has no error boundary of
    its own, takes the component off the screen. [crashed] tells that this
    has happened. A page with [crashed] set shows no transcript; what the
    record holds then is what the calls of the setters ask for, which
    React no longer renders. *)
Record Page := {
  messages : list Message;
  input : jsstring;
  isStreaming : bool;
  isLoadingConversation : bool;
  conversationId : jsvalue;
  requests : list Request;
  console : list jsstring;
  calls : list Call;
  crashed : bool
}.

Definition initialPage : Page := {|
  messages := [];
  input := [];
  isStreaming := false;
  isLoadingConversation := false;
  conversationId := undefined;
  requests := [];
  console := [];
  calls := [];
  crashed := false
|}.

Definition setMessages (f : list Message -> list Message) (st : Page) : Page :=
  {| messages := f (messages st); input := input st;
     isStreaming := isStreaming st;
     isLoadingConversation := isLoadingConversation st;
     conversationId := conversationId st; requests := requests st;
     console := console st; calls := calls st;
     crashed := crashed st |}.

Definition setInput (s : jsstring) (st : Page) : Page :=
  {| messages := messages st; input := s;
     isStreaming := isStreaming st;
     isLoadingConversation := isLoadingConversation st;
     conversationId := conversationId st; requests := requests st;
     console := console st; calls := calls st;
     crashed := crashed st |}.

Definition setIsStreaming (b : bool) (st : Page) : Page :=
  {| messages := messages st; input := input st;
     isStreaming := b;
     isLoadingConversation := isLoadingConversation st;
     conversationId := conversationId st; requests := requests st;
     console := console st; calls := calls st;
     crashed := crashed st |}.

Definition setIsLoadingConversation (b : bool) (st : Page) : Page :=
  {| messages := messages st; input := input st;
     isStreaming := isStreaming st;
     isLoadingConversation := b;
     conversationId := conversationId st; requests := requests st;
     console := console st; calls := calls st;
     crashed := crashed st |}.

Definition setConversationId (v : jsvalue) (st : Page) : Page :=
  {| messages := messages st; input := input st;
     isStreaming := isStreaming st;
     isLoadingConversation := isLoadingConversation st;
     conversationId := v; requests := requests st;
     console := console st; calls := calls st;
     crashed := crashed st |}.

(** [api.chat.streamMessage(message, conversationId)] is called. *)
Definition streamMessage (m : jsstring) (c : jsvalue) (st : Page) : Page :=
  {| messages := messages st; input := input st;
     isStreaming := isStreaming st;
     isLoadingConversation := isLoadingConversation st;
     conversationId := conversationId st;
     requests := requests st ++ [{| message := m; request_conversationId := c |}];
     console := console st; calls := calls st;
     crashed := crashed st |}.

(** [console.error(label, error)]: the label is recorded. *)
Definition console_error (label : jsstring) (st : Page) : Page :=
  {| messages := messages st; input := input st;
     isStreaming := isStreaming st;
     isLoadingConversation := isLoadingConversation st;
     conversationId := conversationId st; requests := requests st;
     console := console st ++ [label]; calls := calls st;
     crashed := crashed st |}.

(** An updater given to [setMessages] throws when React applies it. *)
Definition crash (st : Page) : Page :=
  {| messages := messages st; input := input st;
     isStreaming := isStreaming st;
     isLoadingConversation := isLoadingConversation st;
     conversationId := conversationId st; requests := requests st;
     console := console st; calls := calls st;
     crashed := true |}.

(** [setMessages(f)] for an updater [f] that may throw ([None]). *)
Definition setMessagesPartial (f : list Message -> option (list Message)) (st : Page) : Page :=
  match f (messages st) with
  | Some next => setMessages (fun _ => next) st
  | None => crash st
  end.

Definition setCalls (cs : list Call) (st : Page) : Page :=
  {| messages := messages st; input := input st;
     isStreaming := isStreaming st;
     isLoadingConversation := isLoadingConversation st;
     conversationId := conversationId st; requests := requests st;
     console := console st; calls := cs;
     crashed := crashed st |}.

(** What can settle the promise a running [handleSubmit] awaits. *)
Inductive Settlement :=
| Rejected                      (** the promise rejects: the request or the read fails *)
| Response (body : bool)        (** [streamMessage] resolves; [body]: the response has a reader *)
| ReadValue (chunk : jsstring)  (** [read()] gives a value; [chunk] is its text, [decoder.decode(value, { stream: true })], in which the decoder itself carries an unfinished UTF-8 sequence over to the next value *)
| ReadDone.                     (** [read()] gives [done] *)

(** What happens to the page. A handler reads the state of the render it
    belongs to. React renders the updates of one event before it handles
    the next, so [Submit] finds [input], [isStreaming] and [conversationId]
    as the events before it left them; a call of [handleSubmit] that is
    already running keeps the constants of its own render (see [Call]). *)
Inductive Event :=
| Change (value : jsstring)     (** the text area changes, or a suggested prompt is chosen: [setInput] *)
| Submit (now1 now2 : N)        (** the form is submitted: [handleSubmit]; the two readings of [Date.now()] *)
| Settle (i : nat) (s : Settlement) (** the promise of the [i]-th running call settles *)
| LoadStart                     (** the effect on [searchParams] finds an id and starts the fetch *)
| Loaded (conv_id : jsstring) (conv_messages : list Message) (** [getConversation] resolves *)
| LoadFailed.                   (** [getConversation] rejects *)

Definition errorText : jsstring :=
  js "Error: Failed to get response. Please try again.".

Definition removeAt {A} (i : nat) (l : list A) : list A :=
  firstn i l ++ skipn (S i) l.

Definition replaceAt {A} (i : nat) (x : A) (l : list A) : list A :=
  firstn i l ++ x :: skipn (S i) l.

Section Handler.
Context {R : Runtime}.

(** [l.map(f)] for a function [f] that may throw: [None] where a call of
    [f] throws. *)
Fixpoint mapPartial {A B} (f : A -> option B) (l : list A) : option (list B) :=
  match l with
  | [] => Some []
  | a :: l' =>
      match f a with
      | None => None
      | Some b => option_map (cons b) (mapPartial f l')
      end
  end.

(** The updater of lines 346-352,
    [prev.map(msg => msg.id === assistantId ? { ...msg, content: msg.content + parsed.content } : msg)],
    where [parsed.content] is whatever value the payload gave: the
    conversion in [msg.content + parsed.content] is made for every message
    of the id [assistantId], and only for those. *)
Definition appendParsedContent (assistantId : jsstring) (parsed_content : JSValue)
  (prev : list Message) : option (list Message) :=
  mapPartial
    (fun msg =>
       if JSString.eqb (id msg) assistantId
       then option_map
              (fun s => {| id := id msg; role := role msg; content := s |})
              (plus (content msg) parsed_content)
       else Some msg) prev.

(** The same updater when what is appended is a string [text], as in
    lines 357-363, where it is the payload:
    [prev.map(msg => msg.id === assistantId ? { ...msg, content: msg.content + text } : msg)] *)
Definition appendContent (assistantId text : jsstring) (prev : list Message) : list Message :=
  map (fun msg =>
         if JSString.eqb (id msg) assistantId
         then {| id := id msg; role := role msg; content := content msg ++ text |}
         else msg) prev.

(** The updater of lines 372-378, which puts the error text in. *)
Definition replaceContent (assistantId text : jsstring) (prev : list Message) : list Message :=
  map (fun msg =>
         if JSString.eqb (id msg) assistantId
         then {| id := id msg; role := role msg; content := text |}
         else msg) prev.

(** The [try] block of lines 337-353 on the payload [data]: [Thrown] where
    a statement of the block throws, which [JSON.parse] and the member
    accesses can do. The updater given to [setMessages] is not called
    here, so that what it throws is not caught by the [catch] of
    line 354. *)
Definition tryBlock (c : Call) (data : jsstring) (st : Page) : completion Page :=
  match JSON.parse data with
  | None => Thrown st
  | Some parsed =>
      match getProperty parsed (js "conversation_id") with
      | None => Thrown st
      | Some parsed_conversation_id =>
          let st1 :=
            if ToBoolean parsed_conversation_id && negb (ToBoolean (call_conversationId c))
            then setConversationId parsed_conversation_id st
            else st in
          match getProperty parsed (js "content") with
          | None => Thrown st1
          | Some parsed_content =>
              match parsed_content with
              | Some v =>
                  if ToBoolean parsed_content
                  then Normal (setMessagesPartial (appendParsedContent (assistantId c) v) st1)
                  else Normal st1
              | None => Normal st1
              end
          end
      end
  end.

(** The [catch] block of lines 354-365. *)
Definition catchBlock (c : Call) (data : jsstring) (st : Page) : Page :=
  if negb (JSString.eqb (JSString.trim data) [])
  then setMessages (appendContent (assistantId c) data) st
  else st.

(** The body of [for (const line of lines)], lines 333-366. *)
Definition processLine (c : Call) (st : Page) (line : jsstring) : Page :=
  if JSString.startsWith line (js "data: ") then
    let data := JSString.slice 6 line in
    if JSString.eqb data (js "[DONE]") then st
    else
      match tryBlock c data st with
      | Normal st' => st'
      | Thrown st' => catchBlock c data st'
      end
  else st.

(** Lines 329-367 on one chunk of text. *)
Definition processChunk (c : Call) (st : Page) (chunk : jsstring) : Page :=
  let lines := JSString.split 10 chunk in
  fold_left (processLine c) lines st.

(** [handleSubmit] up to its first [await], lines 294-319. *)
Definition handleSubmit (now1 now2 : N) (st : Page) : Page :=
  if JSString.eqb (JSString.trim (input st)) [] || isStreaming st then st
  else
    let userMessage :=
      {| id := JSString.toString now1; role := user;
         content := JSString.trim (input st) |} in
    let st1 := setMessages (fun prev => prev ++ [userMessage]) st in
    let st2 := setInput [] st1 in
    let st3 := setIsStreaming true st2 in
    let assistantId := JSString.toString (now2 + 1) in
    let st4 :=
      setMessages
        (fun prev => prev ++ [{| id := assistantId; role := assistant; content := [] |}])
        st3 in
    let st5 := streamMessage (content userMessage) (conversationId st) st4 in
    setCalls
      (calls st5 ++
         [{| assistantId := assistantId;
             call_conversationId := conversationId st;
             point := AwaitResponse |}])
      st5.

(** The [catch] block of lines 370-378. *)
Definition catchError (c : Call) (st : Page) : Page :=
  setMessages (replaceContent (assistantId c) errorText)
    (console_error (js "Stream error:") st).

(** The [finally] block, after which the call is over. *)
Definition finallyBlock (i : nat) (st : Page) : Page :=
  setCalls (removeAt i (calls st)) (setIsStreaming false st).

(** The [i]-th running call goes on after its promise settled, up to its
    next [await] or its end. A settlement that does not fit the point
    where the call waits cannot occur and leaves the page as it is. *)
Definition resume (i : nat) (s : Settlement) (st : Page) : Page :=
  match nth_error (calls st) i with
  | None => st
  | Some c =>
      match point c, s with
      | _, Rejected => finallyBlock i (catchError c st)
      | AwaitResponse, Response true =>
          setCalls
            (replaceAt i {| assistantId := assistantId c;
                            call_conversationId := call_conversationId c;
                            point := AwaitRead |} (calls st))
            st
      | AwaitResponse, Response false => finallyBlock i st
      | AwaitRead, ReadValue chunk => processChunk c st chunk
      | AwaitRead, ReadDone => finallyBlock i st
      | _, _ => st
      end
  end.

(** The effect of lines 269-292. *)
Definition loaded (conv_id : jsstring) (conv_messages : list Message) (st : Page) : Page :=
  setIsLoadingConversation false
    (setMessages (fun _ => conv_messages)
       (setConversationId (Some (JString conv_id)) st)).

Definition loadFailed (st : Page) : Page :=
  setIsLoadingConversation false
    (console_error (js "Failed to load conversation:") st).

Definition step (st : Page) (ev : Event) : Page :=
  match ev with
  | Change value => setInput value st
  | Submit now1 now2 => handleSubmit now1 now2 st
  | Settle i s => resume i s st
  | LoadStart => setIsLoadingConversation true st
  | Loaded conv_id conv_messages => loaded conv_id conv_messages st
  | LoadFailed => loadFailed st
  end.

Definition run (st : Page) (evs : list Event) : Page := fold_left step evs st.

End Handler.

(** ** The stream as a sequence of events *)

(** The specification describes the stream as a sequence of events that a
    controller applies to the transcript. The handler has no such type: the
    definitions below read the events off the branches of [processLine], and
    [processLine_decodeLine] shows that applying them is what the handler
    does. Beside the two events of the specification there is a third, a
    content that has no string conversion. *)
Inductive StreamEvent :=
| ConversationIdEvent (v : jsvalue)
| TextFragment (text : jsstring)
| ThrowingContent (v : JSValue).

Section Decoder.
Context {R : Runtime}.

Definition plainText (data : jsstring) : list StreamEvent :=
  if negb (JSString.eqb (JSString.trim data) []) then [TextFragment data] else [].

(** The payload as the [try] block reads it: the values of
    [parsed.conversation_id] and [parsed.content], each of which may be
    [undefined]. [None] where the block throws, which it does before it
    changes anything: [JSON.parse] rejects the payload, or the payload is
    [null] and the member access throws. A number, a string, a boolean or
    an array has neither member, and any value is taken for a member's:
    this is the handler's reading, not the record of the specification,
    for which see [Spec.record]. *)
Definition parseRecord (data : jsstring) : option (jsvalue * jsvalue) :=
  match JSON.parse data with
  | None => None
  | Some parsed =>
      match getProperty parsed (js "conversation_id"),
            getProperty parsed (js "content") with
      | Some parsed_conversation_id, Some parsed_content =>
          Some (parsed_conversation_id, parsed_content)
      | _, _ => None
      end
  end.

Definition recordEvents (parsed_conversation_id parsed_content : jsvalue) :
  list StreamEvent :=
  (if ToBoolean parsed_conversation_id
   then [ConversationIdEvent parsed_conversation_id] else []) ++
  match parsed_content with
  | Some v =>
      if ToBoolean parsed_content
      then [match ToString v with
            | Some text => TextFragment text
            | None => ThrowingContent v
            end]
      else []
  | None => []
  end.

Definition decodeLine (line : jsstring) : list StreamEvent :=
  if JSString.startsWith line (js "data: ") then
    let data := JSString.slice 6 line in
    if JSString.eqb data (js "[DONE]") then []
    else
      match parseRecord data with
      | None => plainText data
      | Some (parsed_conversation_id, parsed_content) =>
          recordEvents parsed_conversation_id parsed_content
      end
  else [].

Definition decodeChunk (chunk : jsstring) : list StreamEvent :=
  flat_map decodeLine (JSString.split 10 chunk).

(** The events of a stream that arrives as the chunks [chunks]. *)
Definition decodeChunks (chunks : list jsstring) : list StreamEvent :=
  flat_map decodeChunk chunks.

(** What the running call [c] does on an event. *)
Definition applyEvent (c : Call) (st : Page) (e : StreamEvent) : Page :=
  match e with
  | ConversationIdEvent v =>
      if negb (ToBoolean (call_conversationId c)) then setConversationId v st else st
  | TextFragment text => setMessages (appendContent (assistantId c) text) st
  | ThrowingContent _ =>
      if existsb (fun msg => JSString.eqb (id msg) (assistantId c)) (messages st)
      then crash st
      else st
  end.

Definition fragments (es : list StreamEvent) : list jsstring :=
  flat_map (fun e => match e with TextFragment t => [t] | _ => [] end) es.

(** Some event of [es] is a content without a string conversion. *)
Definition throws (es : list StreamEvent) : bool :=
  existsb (fun e => match e with ThrowingContent _ => true | _ => false end) es.

Definition conversationIds (es : list StreamEvent) : list jsvalue :=
  flat_map (fun e => match e with ConversationIdEvent v => [v] | _ => [] end) es.

(** The fragments [texts] appended in turn to the messages of id
    [assistantId]. *)
Definition appendAll (assistantId : jsstring) (texts : list jsstring)
  (prev : list Message) : list Message :=
  fold_left (fun l text => appendContent assistantId text l) texts prev.

(** The chunks are cut at line ends: every chunk but the last is empty or
    ends with a line feed. *)
Fixpoint lineAligned (chunks : list jsstring) : Prop :=
  match chunks with
  | [] => True
  | [_] => True
  | c :: cs => (c = [] \/ exists c', c = c' ++ [10]) /\ lineAligned cs
  end.

End Decoder.

(** ** The frames of the specification *)

(** Section 6 of the specification sorts the payloads of the [data: ]
    lines: the terminator [[DONE]]; a payload "parseable as a structured
    record with fields [conversation_id?: string], [content?: string]";
    and any other payload, which is a plain-text fragment when it is not
    empty after trimming. The definitions of this module follow these
    words, not the handler. *)
Module Spec.

Inductive Frame :=
| Terminator
| Structured (conversation_id content : option jsstring)
| PlainText (payload : jsstring)
| NoFrame.

(** An optional field of type string: absent, or a string. *)
Definition optionalString (v : jsvalue) : option (option jsstring) :=
  match v with
  | None => Some None
  | Some (JString s) => Some (Some s)
  | Some _ => None
  end.

(** The payload parsed as a structured record: JSON text for an object
    whose fields [conversation_id] and [content], where present, are
    strings. *)
Definition record (payload : jsstring) : option (option jsstring * option jsstring) :=
  match JSON.parse payload with
  | Some (JObject members) =>
      match optionalString (member (js "conversation_id") members),
            optionalString (member (js "content") members) with
      | Some conversation_id, Some content => Some (conversation_id, content)
      | _, _ => None
      end
  | _ => None
  end.

Definition frame (payload : jsstring) : Frame :=
  if JSString.eqb payload (js "[DONE]") then Terminator
  else
    match record payload with
    | Some (conversation_id, content) => Structured conversation_id content
    | None =>
        if negb (JSString.eqb (JSString.trim payload) [])
        then PlainText payload
        else NoFrame
    end.

(** The text fragments of a frame. *)
Definition textFragments (f : Frame) : list jsstring :=
  match f with
  | Structured _ (Some text) => [text]
  | PlainText payload => [payload]
  | _ => []
  end.

(** The text fragments of a line: those of its payload if it is a
    [data: ] line, none otherwise. *)
Definition lineFragments (line : jsstring) : list jsstring :=
  if JSString.startsWith line (js "data: ")
  then textFragments (frame (JSString.slice 6 line))
  else [].

End Spec.

(** A line on which the handler and the specification read the same
    frame: if it is a [data: ] line whose payload [JSON.parse] accepts, the
    payload is [null] or a record of the specification. *)
Definition conforming (line : jsstring) : bool :=
  if JSString.startsWith line (js "data: ") then
    match JSON.parse (JSString.slice 6 line) with
    | Some JNull => true
    | Some _ =>
        match Spec.record (JSString.slice 6 line) with
        | Some _ => true
        | None => false
        end
    | None => true
    end
  else true.

(** Every line of every chunk is conforming. *)
Definition conformingStream (chunks : list jsstring) : bool :=
  forallb (fun chunk => forallb conforming (JSString.split 10 chunk)) chunks.

(** ** Exchanges *)

Section Exchanges.
Context {R : Runtime}.

(** [Submit] is accepted: it passes the guard of line 296. *)
Definition accepted (st : Page) (ev : Event) : bool :=
  match ev with
  | Submit _ _ => negb (JSString.eqb (JSString.trim (input st)) [] || isStreaming st)
  | _ => false
  end.

(** The number of submissions accepted while [evs] happen to [st]. *)
Fixpoint acceptedCount (st : Page) (evs : list Event) : nat :=
  match evs with
  | [] => 0
  | ev :: evs' => (if accepted st ev then 1 else 0) + acceptedCount (step st ev) evs'
  end.

(** The events of a stream read by the call at index [i]: the response
    arrives with a body, the chunks are read, and [last] ends the stream. *)
Definition reads (i : nat) (chunks : list jsstring) : list Event :=
  map (fun chunk => Settle i (ReadValue chunk)) chunks.

Definition streamed (i : nat) (chunks : list jsstring) (last : Settlement) : list Event :=
  Settle i (Response true) :: reads i chunks ++ [Settle i last].

(** The events of an exchange that fails: the request is rejected, or the
    response arrives, [chunks] are read and the next read fails. *)
Definition failedExchange (i : nat) (chunks : option (list jsstring)) : list Event :=
  match chunks with
  | None => [Settle i Rejected]
  | Some cs => streamed i cs Rejected
  end.

(** The events of an exchange that completes: the response has no body, or
    it has one, [chunks] are read and the stream closes. *)
Definition completedExchange (i : nat) (chunks : option (list jsstring)) : list Event :=
  match chunks with
  | None => [Settle i (Response false)]
  | Some cs => streamed i cs ReadDone
  end.

(** The events in which no content is without a string conversion: all
    but the arrival of a chunk that carries such a content. *)
Definition converts (ev : Event) : bool :=
  match ev with
  | Settle _ (ReadValue chunk) => negb (throws (decodeChunk chunk))
  | _ => true
  end.

(** The events that leave the transcript to the handler: all but the
    arrival of a loaded conversation, which replaces it. *)
Definition keepsTranscript (ev : Event) : bool :=
  match ev with
  | Loaded _ _ => false
  | _ => true
  end.

(** The user message and the placeholder of a submission whose readings
    of the clock are [now1] and [now2], the call it starts, and the page
    right after it was accepted, with the call waiting at [p]. *)
Definition userMessageOf (now1 : N) (st : Page) : Message :=
  {| id := JSString.toString now1; role := user;
     content := JSString.trim (input st) |}.

Definition placeholderOf (now2 : N) (text : jsstring) : Message :=
  {| id := JSString.toString (now2 + 1); role := assistant; content := text |}.

Definition callOf (now2 : N) (st : Page) (p : AwaitPoint) : Call :=
  {| assistantId := JSString.toString (now2 + 1);
     call_conversationId := conversationId st;
     point := p |}.

Definition submitted (now1 now2 : N) (p : AwaitPoint) (st : Page) : Page :=
  {| messages := messages st ++ [userMessageOf now1 st; placeholderOf now2 []];
     input := [];
     isStreaming := true;
     isLoadingConversation := isLoadingConversation st;
     conversationId := conversationId st;
     requests := requests st ++
                   [{| message := JSString.trim (input st);
                       request_conversationId := conversationId st |}];
     console := console st;
     calls := calls st ++ [callOf now2 st p];
     crashed := crashed st |}.

(** What never changes in a message. *)
Definition identity (m : Message) : jsstring * Role := (id m, role m).

(** The ids and roles a step adds to the transcript: those of a user
    message and a placeholder when a submission is accepted, none
    otherwise. *)
Definition added (st : Page) (ev : Event) : list (jsstring * Role) :=
  match ev with
  | Submit now1 now2 =>
      if accepted st ev
      then [(JSString.toString now1, user); (JSString.toString (now2 + 1), assistant)]
      else []
  | _ => []
  end.

Fixpoint addedAll (st : Page) (evs : list Event) : list (jsstring * Role) :=
  match evs with
  | [] => []
  | ev :: evs' => added st ev ++ addedAll (step st ev) evs'
  end.

(** The part of the page that reading the stream does not touch. *)
Definition control (st : Page) :=
  (input st, isStreaming st, isLoadingConversation st, requests st, console st, calls st).

(** At most one call of [handleSubmit] runs, and [isStreaming] tells
    whether one does. *)
Definition oneCall (st : Page) : Prop :=
  (calls st = [] /\ isStreaming st = false) \/
  (exists c, calls st = [c] /\ isStreaming st = true).

End Exchanges.

(** ** Fuel *)

(** With fuel [f] the lexer does not run out on [s] and gives at most
    [bound] tokens. *)
Definition lexGood (f : nat) (s : jsstring) (bound : nat) : Prop :=
  lex f s <> OutOfFuel /\
  forall ts, lex f s = Ok ts -> (List.length ts <= bound)%nat.

(** A parsing function consumes at least one of the tokens [ts]. *)
Definition shorter {A} (res : result (A * list token)) (ts : list token) : Prop :=
  forall a r, res = Ok (a, r) -> (List.length r < List.length ts)%nat.

(** ** What the chat page shows and sends *)



(** The transcript on the screen: none once an updater has thrown and
    React has taken the page down. *)
Definition transcript (st : Page) : option (list Message) :=
  if crashed st then None else Some (messages st).

(** The send button, line 487: [disabled={isStreaming || !input.trim()}]. *)
Definition sendDisabled (st : Page) : bool :=
  isStreaming st || JSString.eqb (JSString.trim (input st)) [].

Section Sending.
Context {R : Runtime}.

(** [onKeyDown] of the text area, lines 476-481: Enter without Shift
    submits the form. *)
Definition onKeyDown (key : jsstring) (shiftKey : bool) (now1 now2 : N) (st : Page) : Page :=
  if JSString.eqb key (js "Enter") && negb shiftKey
  then handleSubmit now1 now2 st
  else st.

(** The requests a step issues: the one of an accepted submission, with
    the trimmed input and the conversation id of the page. *)
Definition sent (st : Page) (ev : Event) : list Request :=
  if accepted st ev
  then [{| message := JSString.trim (input st);
           request_conversationId := conversationId st |}]
  else [].

Fixpoint sentAll (st : Page) (evs : list Event) : list Request :=
  match evs with
  | [] => []
  | ev :: evs' => sent st ev ++ sentAll (step st ev) evs'
  end.

(** An exchange from the response on, for the call at index [i]: it fails
    or completes after [chunks]. *)
Definition exchange (i : nat) (chunks : option (list jsstring)) (completes : bool) :
  list Event :=
  if completes then completedExchange i chunks else failedExchange i chunks.

End Sending.

(** The end of a call: the failure of its promise, the end of the stream
    it reads, or a response without a body. *)
Definition ends (c : Call) (s : Settlement) : Prop :=
  s = Rejected \/
  (point c = AwaitRead /\ s = ReadDone) \/
  (point c = AwaitResponse /\ s = Response false).

(** A text that is empty or starts with JSON white space. *)
Definition wsHead (w : jsstring) : Prop :=
  match w with
  | [] => True
  | c :: _ => isJSONWhiteSpace c = true
  end.

Section Clock.
Context {R : Runtime}.

(** The clock advances over [evs]: every accepted submission reads it
    after [last], the number in the id of the latest placeholder, and
    reads it the second time no earlier than the first. *)
Fixpoint clockAdvances (st : Page) (last : N) (evs : list Event) : Prop :=
  match evs with
  | [] => True
  | ev :: evs' =>
      match ev with
      | Submit now1 now2 =>
          if accepted st ev
          then last < now1 /\ now1 <= now2 /\ clockAdvances (step st ev) (now2 + 1) evs'
          else clockAdvances (step st ev) last evs'
      | _ => clockAdvances (step st ev) last evs'
      end
  end.

(** The ids of the transcript are numerals of numbers up to [last], all
    different. *)
Definition idsBelow (last : N) (st : Page) : Prop :=
  Forall (fun i => exists k, i = JSString.toString k /\ k <= last)
    (map id (messages st)) /\
  NoDup (map id (messages st)).

End Clock.

(** A string that does not start with white space. *)
Definition startsClean (s : jsstring) : Prop :=
  match s with
  | [] => True
  | c :: _ => JSString.isWhiteSpace c = false
  end.

(** A message whose content extends that of another, in the same place
    and with the same id and role. *)
Definition extends (m m' : Message) : Prop :=
  id m' = id m /\ role m' = role m /\ exists suffix, content m' = content m ++ suffix.

(** ** The dashboard *)

(** [DashboardPage], lines 19-234 of the same file: the data it loads when
    it is mounted, and the labels it shows. *)
Module Dashboard.

Record Conversation := {
  conv_id : jsstring;
  title : option jsstring;
  created_at : jsstring;
  message_count : N
}.

(** What a rejected promise carries: an [Error] with its message, or a
    value that is no [Error]. *)
Inductive Failure :=
| ErrorWith (error_message : jsstring)
| NotAnError.

Inductive Settled (A : Type) :=
| Resolved (a : A)
| RejectedWith (e : Failure).
Arguments Resolved {A} a.
Arguments RejectedWith {A} e.

Inductive ApiCall := DocumentsList | GetConversations.

(** The state of the component, the calls it made to the API, what it
    logged, the [token] item of the local storage and the routes it
    pushed. *)
Record State := {
  docCount : option N;
  conversations : list Conversation;
  isLoading : bool;
  isHealthy : option bool;
  called : list ApiCall;
  logged : list jsstring;
  token : option jsstring;
  pushed : list jsstring
}.

(** The component as it is mounted, with the token of the session. *)
Definition mounted (session_token : option jsstring) : State := {|
  docCount := None;
  conversations := [];
  isLoading := true;
  isHealthy := None;
  called := [];
  logged := [];
  token := session_token;
  pushed := []
|}.

Definition setDocCount (n : option N) (st : State) : State :=
  {| docCount := n; conversations := conversations st; isLoading := isLoading st;
     isHealthy := isHealthy st; called := called st; logged := logged st;
     token := token st; pushed := pushed st |}.

Definition setConversations (cs : list Conversation) (st : State) : State :=
  {| docCount := docCount st; conversations := cs; isLoading := isLoading st;
     isHealthy := isHealthy st; called := called st; logged := logged st;
     token := token st; pushed := pushed st |}.

Definition setIsLoading (b : bool) (st : State) : State :=
  {| docCount := docCount st; conversations := conversations st; isLoading := b;
     isHealthy := isHealthy st; called := called st; logged := logged st;
     token := token st; pushed := pushed st |}.

Definition setIsHealthy (b : bool) (st : State) : State :=
  {| docCount := docCount st; conversations := conversations st;
     isLoading := isLoading st; isHealthy := Some b; called := called st;
     logged := logged st; token := token st; pushed := pushed st |}.

Definition call (a : ApiCall) (st : State) : State :=
  {| docCount := docCount st; conversations := conversations st;
     isLoading := isLoading st; isHealthy := isHealthy st;
     called := called st ++ [a]; logged := logged st;
     token := token st; pushed := pushed st |}.

(** [console.error(label, error)]: the label is recorded. *)
Definition console_error (label : jsstring) (st : State) : State :=
  {| docCount := docCount st; conversations := conversations st;
     isLoading := isLoading st; isHealthy := isHealthy st; called := called st;
     logged := logged st ++ [label]; token := token st; pushed := pushed st |}.

(** [localStorage.removeItem("token")] *)
Definition removeToken (st : State) : State :=
  {| docCount := docCount st; conversations := conversations st;
     isLoading := isLoading st; isHealthy := isHealthy st; called := called st;
     logged := logged st; token := None; pushed := pushed st |}.

(** [router.push(route)] *)
Definition push (route : jsstring) (st : State) : State :=
  {| docCount := docCount st; conversations := conversations st;
     isLoading := isLoading st; isHealthy := isHealthy st; called := called st;
     logged := logged st; token := token st; pushed := pushed st ++ [route] |}.

(** [s.includes(p)] *)
Fixpoint includes (s p : jsstring) : bool :=
  JSString.startsWith s p ||
  match s with
  | [] => false
  | _ :: r => includes r p
  end.

(** [error instanceof Error && error.message.includes("authentication")] *)
Definition isAuthError (e : Failure) : bool :=
  match e with
  | ErrorWith error_message => includes error_message (js "authentication")
  | NotAnError => false
  end.

(** The [catch] and [finally] blocks of [loadData], lines 38-52. *)
Definition catchBlock (error : Failure) (st : State) : State :=
  let st1 := console_error (js "Failed to load dashboard data:") st in
  if isAuthError error
  then setIsLoading false (push (js "/login") (removeToken st1))
  else setIsLoading false (setIsHealthy false st1).

(** [loadData], lines 27-53, run to its end: [docs] settles
    [api.documents.list()] (with [docs.total]) and [convs] settles
    [api.chat.getConversations()] (with [convs.conversations]), which is
    only called when the first has resolved. *)
Definition loadData (docs : Settled N) (convs : Settled (list Conversation))
  (st : State) : State :=
  let st1 := call DocumentsList st in
  match docs with
  | RejectedWith error => catchBlock error st1
  | Resolved total =>
      let st2 := setDocCount (Some total) st1 in
      let st3 := call GetConversations st2 in
      match convs with
      | RejectedWith error => catchBlock error st3
      | Resolved cs =>
          let st4 := setConversations cs st3 in
          let st5 := setIsHealthy true st4 in
          setIsLoading false st5
      end
  end.

(** The failure that ends [loadData], if one does. *)
Definition failure (docs : Settled N) (convs : Settled (list Conversation)) :
  option Failure :=
  match docs, convs with
  | RejectedWith e, _ => Some e
  | Resolved _, RejectedWith e => Some e
  | Resolved _, Resolved _ => None
  end.

(** The status card, lines 157-173: a spinner while loading, then a badge
    with [isHealthy ? "Healthy" : "Offline"] and its caption. *)
Inductive StatusCard :=
| Spinner
| Badge (label caption : jsstring).

Definition statusCard (st : State) : StatusCard :=
  if isLoading st then Spinner
  else match isHealthy st with
       | Some true => Badge (js "Healthy") (js "All services operational")
       | _ => Badge (js "Offline") (js "Backend unavailable")
       end.

(** [formatTime(dateStr)], lines 58-69. [now] is [new Date().getTime()]
    and [date] is [new Date(dateStr).getTime()], in milliseconds, [None]
    where the string is no date and the time is NaN, with which every
    comparison fails. The difference and the floors of the quotients are
    those of the integers as long as the two times are less than 2^53 ms
    apart. *)
Definition formatTime (now : Z) (date : option Z) : jsstring :=
  match date with
  | None => js "NaN days ago"
  | Some d =>
      let diff := (now - d)%Z in
      let hours := (diff / (1000 * 60 * 60))%Z in
      let days := (hours / 24)%Z in
      if (hours <? 1)%Z then js "Just now"
      else if (hours <? 24)%Z then
        JSString.toString (Z.to_N hours) ++ js " hour" ++
        (if (1 <? hours)%Z then js "s" else []) ++ js " ago"
      else if (days =? 1)%Z then js "Yesterday"
      else JSString.toString (Z.to_N days) ++ js " days ago"
  end.

End Dashboard.

(** A runtime for the examples. The only numbers in them are written as
    JavaScript prints them and are not zero, so the choice does not show. *)
Definition exampleRuntime : Runtime :=
  {| numberToBoolean := fun n => negb (JSString.eqb n (js "0"));
     numberToString := fun n => n |}.

(** * Properties *)

(** ** Strings *)

Lemma eqb_eq (s t : jsstring) : JSString.eqb s t = true <-> s = t.
Proof.
  unfold JSString.eqb. destruct (list_eq_dec N.eq_dec s t); split; congruence.
Qed.

Lemma eqb_neq (s t : jsstring) : JSString.eqb s t = false <-> s <> t.
Proof.
  unfold JSString.eqb. destruct (list_eq_dec N.eq_dec s t); split; congruence.
Qed.

Lemma eqb_refl (s : jsstring) : JSString.eqb s s = true.
Proof. now apply eqb_eq. Qed.

Lemma split_nonempty sep s : JSString.split sep s <> [].
Proof.
  destruct s as [|c r]; simpl; [discriminate|].
  destruct (c =? sep); [discriminate|].
  destruct (JSString.split sep r); discriminate.
Qed.

(** Splitting distributes over a separator. *)
Lemma split_app sep a b :
  JSString.split sep (a ++ sep :: b) = JSString.split sep a ++ JSString.split sep b.
Proof.
  induction a as [|c a IH]; simpl.
  - now rewrite N.eqb_refl.
  - destruct (c =? sep); [now rewrite IH|].
    rewrite IH.
    destruct (JSString.split sep a) eqn:E; [now apply split_nonempty in E|].
    reflexivity.
Qed.

Lemma toString_inj n m : JSString.toString n = JSString.toString m -> n = m.
Proof.
  unfold JSString.toString. intros H.
  assert (Hm : forall l l', map JSString.unit_of_ascii l = map JSString.unit_of_ascii l' -> l = l').
  { induction l as [|a l IH]; destruct l' as [|a' l']; simpl; try discriminate; auto.
    intros E. injection E as E1 E2. f_equal; [|now apply IH].
    unfold JSString.unit_of_ascii in E1.
    rewrite <- (ascii_N_embedding a), <- (ascii_N_embedding a'). now rewrite E1. }
  apply Hm in H.
  apply (f_equal string_of_list_ascii) in H.
  rewrite !string_of_list_ascii_of_string in H.
  assert (Hn : forall k, N.to_uint k <> Decimal.Nil).
  { intros [|p]; simpl; [discriminate|apply DecimalPos.Unsigned.to_uint_nonnil]. }
  apply (f_equal NilZero.uint_of_string) in H.
  rewrite !NilZero.usu in H by apply Hn.
  injection H as H. now apply DecimalN.Unsigned.to_uint_inj.
Qed.

(** The operations at work. *)
Example js_literal : js "a 'b'\n" = [97; 32; 34; 98; 34; 10].
Proof. reflexivity. Qed.

Example split_lines :
  JSString.split 10 (js "data: a\n\ndata: b\n") = [js "data: a"; []; js "data: b"; []].
Proof. reflexivity. Qed.

Example split_empty : JSString.split 10 [] = [[]].
Proof. reflexivity. Qed.

Example trim_both_ends : JSString.trim (js " \t a b \r\n") = js "a b".
Proof. reflexivity. Qed.

Example toString_clock : JSString.toString 1700000000001 = js "1700000000001".
Proof. reflexivity. Qed.

Example parse_frame :
  JSON.parse (js " {'conversation_id':'c1', 'content':'a\\u0062\\n', 'n':[1,-2.5e3,true,null]} ") =
  Some (JObject [ (js "conversation_id", JString (js "c1"));
                  (js "content", JString [97; 98; 10]);
                  (js "n", JArray [JNumber (js "1"); JNumber (js "-2.5e3");
                                   JBool true; JNull]) ]).
Proof. reflexivity. Qed.

Example parse_rejects :
  map JSON.parse [js "not-json"; js ""; js " "; js "[1,]"; js "{'a':1,}"; js "01";
                  js "1."; js "-"; js "{'a'}"; js "'a"; js "nul"; js "[DONE]"] =
  repeat None 12.
Proof. reflexivity. Qed.

(** ** [JSON.parse] never runs out of fuel *)

Section Fuel.

Lemma lexString_shorter n s str rest :
  (List.length s <= n)%nat ->
  lexString s = Some (str, rest) ->
  (List.length rest < List.length s)%nat.
Proof.
  revert s str rest. induction n as [|n IH]; intros s str rest Hn H.
  - destruct s; [discriminate|simpl in Hn; lia].
  - destruct s as [|c r]; [discriminate|]. simpl in Hn. simpl in H.
    destruct (c =? 34).
    { injection H as _ <-. simpl. lia. }
    destruct (c =? 92).
    { destruct r as [|e r1]; [discriminate|].
      destruct (e =? 117).
      - destruct r1 as [|h1 [|h2 [|h3 [|h4 r2]]]]; try discriminate.
        destruct (hex4 h1 h2 h3 h4); [|discriminate].
        destruct (lexString r2) as [[s' rest']|] eqn:E; [|discriminate].
        injection H as _ <-.
        apply IH in E; simpl in *; lia.
      - destruct (escapeUnit e); [|discriminate].
        destruct (lexString r1) as [[s' rest']|] eqn:E; [|discriminate].
        injection H as _ <-.
        apply IH in E; simpl in *; lia. }
    destruct (c <? 32); [discriminate|].
    destruct (lexString r) as [[s' rest']|] eqn:E; [|discriminate].
    injection H as _ <-.
    apply IH in E; simpl in *; lia.
Qed.

Lemma digits_shorter s : (List.length (snd (digits s)) <= List.length s)%nat.
Proof.
  induction s as [|c r IH]; simpl; [lia|].
  destruct (isDigit c); [|simpl; lia].
  destruct (digits r) as [ds rest]. simpl in *. lia.
Qed.

Lemma lexInt_shorter s i rest :
  lexInt s = Some (i, rest) -> (List.length rest < List.length s)%nat.
Proof.
  destruct s as [|c r]; [discriminate|]. simpl.
  destruct (c =? 48).
  { intros H. injection H as _ <-. lia. }
  destruct (isDigit c); [|discriminate].
  pose proof (digits_shorter r) as Hd.
  destruct (digits r) as [ds rest']. intros H. injection H as _ <-. simpl in Hd. lia.
Qed.

Lemma lexFraction_shorter s f rest :
  lexFraction s = Some (f, rest) -> (List.length rest <= List.length s)%nat.
Proof.
  unfold lexFraction. destruct s as [|c r].
  { intros H. injection H as _ <-. lia. }
  destruct (c =? 46).
  - pose proof (digits_shorter r) as Hd.
    destruct (digits r) as [[|d ds] rest']; [discriminate|].
    intros H. injection H as _ <-. simpl in *. lia.
  - intros H. injection H as _ <-. lia.
Qed.

Lemma lexExponent_shorter s e rest :
  lexExponent s = Some (e, rest) -> (List.length rest <= List.length s)%nat.
Proof.
  unfold lexExponent. destruct s as [|c r].
  { intros H. injection H as _ <-. lia. }
  destruct ((c =? 101) || (c =? 69)).
  - destruct r as [|c1 r'].
    + simpl. discriminate.
    + destruct ((c1 =? 43) || (c1 =? 45)).
      * pose proof (digits_shorter r') as Hd.
        destruct (digits r') as [[|d ds] rest']; [discriminate|].
        intros H. injection H as _ <-. simpl in *. lia.
      * pose proof (digits_shorter (c1 :: r')) as Hd.
        destruct (digits (c1 :: r')) as [[|d ds] rest']; [discriminate|].
        intros H. injection H as _ <-. simpl in *. lia.
  - intros H. injection H as _ <-. lia.
Qed.

Lemma lexNumber_shorter s n rest :
  lexNumber s = Some (n, rest) -> (List.length rest < List.length s)%nat.
Proof.
  unfold lexNumber.
  assert (Hgen : forall sign s0,
             (List.length s0 <= List.length s)%nat ->
             match lexInt s0 with
             | Some (i, s1) =>
                 match lexFraction s1 with
                 | Some (f, s2) =>
                     match lexExponent s2 with
                     | Some (e, s3) => Some (sign ++ i ++ f ++ e, s3)
                     | None => None
                     end
                 | None => None
                 end
             | None => None
             end = Some (n, rest) ->
             (List.length rest < List.length s)%nat).
  { intros sign s0 Hs0 H.
    destruct (lexInt s0) as [[i s1]|] eqn:E1; [|discriminate].
    destruct (lexFraction s1) as [[f s2]|] eqn:E2; [|discriminate].
    destruct (lexExponent s2) as [[e s3]|] eqn:E3; [|discriminate].
    injection H as _ <-.
    apply lexInt_shorter in E1. apply lexFraction_shorter in E2.
    apply lexExponent_shorter in E3. lia. }
  destruct s as [|c r]; [apply Hgen; lia|].
  destruct (c =? 45); apply Hgen; simpl; lia.
Qed.


Lemma consToken_good t f r bound :
  lexGood f r bound ->
  consToken t (lex f r) <> OutOfFuel /\
  forall ts, consToken t (lex f r) = Ok ts -> (List.length ts <= S bound)%nat.
Proof.
  intros [H1 H2]. unfold consToken.
  destruct (lex f r) as [ts'| |]; simpl.
  - split; [discriminate|]. intros ts E. injection E as <-.
    specialize (H2 ts' eq_refl). simpl. lia.
  - split; discriminate.
  - now contradiction H1.
Qed.

Lemma lexGood_mono f s b1 b2 : (b1 <= b2)%nat -> lexGood f s b1 -> lexGood f s b2.
Proof.
  intros Hb [H1 H2]. split; [exact H1|]. intros ts E. specialize (H2 ts E). lia.
Qed.

Lemma lex_fuel f s : (List.length s < f)%nat -> lexGood f s (List.length s).
Proof.
  revert s. induction f as [|f IH]; intros s Hf; [lia|].
  destruct s as [|c r].
  { split; simpl; [discriminate|]. intros ts E. injection E as <-. simpl. lia. }
  simpl in Hf.
  assert (Hr : lexGood f r (List.length r)) by (apply IH; lia).
  assert (Hstep : forall t rest,
             (List.length rest <= List.length r)%nat ->
             consToken t (lex f rest) <> OutOfFuel /\
             forall ts, consToken t (lex f rest) = Ok ts ->
                        (List.length ts <= List.length (c :: r))%nat).
  { intros t rest Hrest. apply consToken_good.
    apply (lexGood_mono f rest (List.length rest)); [exact Hrest|]. apply IH. lia. }
  assert (Hbad : @SyntaxError (list token) <> OutOfFuel /\
                 forall ts, @SyntaxError (list token) = Ok ts ->
                            (List.length ts <= List.length (c :: r))%nat)
    by (split; discriminate).
  unfold lexGood. cbn [lex].
  destruct (isJSONWhiteSpace c).
  { destruct Hr as [H1 H2]. split; [exact H1|].
    intros ts E. specialize (H2 ts E). simpl. lia. }
  destruct (c =? 123); [apply Hstep; lia|].
  destruct (c =? 125); [apply Hstep; lia|].
  destruct (c =? 91); [apply Hstep; lia|].
  destruct (c =? 93); [apply Hstep; lia|].
  destruct (c =? 58); [apply Hstep; lia|].
  destruct (c =? 44); [apply Hstep; lia|].
  destruct (c =? 34).
  { destruct (lexString r) as [[str rest]|] eqn:E; [|exact Hbad].
    apply (lexString_shorter _ _ _ _ (le_n _)) in E. apply Hstep. lia. }
  destruct ((c =? 45) || isDigit c).
  { destruct (lexNumber (c :: r)) as [[n rest]|] eqn:E; [|exact Hbad].
    apply lexNumber_shorter in E. apply Hstep. simpl in E. lia. }
  assert (Hskip : forall k, (List.length (skipn (S k) (c :: r)) <= List.length r)%nat).
  { intros k. rewrite length_skipn. simpl. lia. }
  destruct (JSString.startsWith (c :: r) (js "true")); [apply Hstep, Hskip|].
  destruct (JSString.startsWith (c :: r) (js "false")); [apply Hstep, Hskip|].
  destruct (JSString.startsWith (c :: r) (js "null")); [apply Hstep, Hskip|].
  exact Hbad.
Qed.


Ltac bind_inv H :=
  match type of H with
  | bind ?x _ = Ok _ =>
      let E := fresh "E" in
      destruct x as [[? ?]| |] eqn:E; simpl in H;
      [|discriminate H|discriminate H]
  end.

Lemma parse_shorter f :
  (forall ts, shorter (parseValue f ts) ts) /\
  (forall ts, shorter (parseElements f ts) ts) /\
  (forall ts, shorter (parseMembers f ts) ts).
Proof.
  induction f as [|f [IHv [IHe IHm]]].
  { repeat split; intros ts a r H; discriminate. }
  split; [|split]; intros ts a r H.
  - cbn [parseValue] in H. destruct ts as [|t ts]; [discriminate|].
    destruct t; try discriminate; try (injection H as _ <-; simpl; lia).
    + destruct ts as [|t' ts']; [|destruct t'];
        try (injection H as _ <-; simpl; lia);
        bind_inv H; injection H as _ <-; apply IHm in E; simpl in *; lia.
    + destruct ts as [|t' ts']; [|destruct t'];
        try (injection H as _ <-; simpl; lia);
        bind_inv H; injection H as _ <-; apply IHe in E; simpl in *; lia.
  - cbn [parseElements] in H. bind_inv H. apply IHv in E.
    destruct l as [|t l']; [discriminate|]. destruct t; try discriminate.
    + injection H as _ <-. simpl in *. lia.
    + bind_inv H. injection H as _ <-. apply IHe in E0. simpl in *. lia.
  - cbn [parseMembers] in H. destruct ts as [|t ts]; [discriminate|].
    destruct t; try discriminate.
    destruct ts as [|t' ts']; [discriminate|]. destruct t'; try discriminate.
    bind_inv H. apply IHv in E.
    destruct l as [|t l']; [discriminate|]. destruct t; try discriminate.
    + injection H as _ <-. simpl in *. lia.
    + bind_inv H. injection H as _ <-. apply IHm in E0. simpl in *. lia.
Qed.

Lemma bind_fuel {A B} (x : result A) (k : A -> result B) :
  x <> OutOfFuel -> (forall a, x = Ok a -> k a <> OutOfFuel) -> bind x k <> OutOfFuel.
Proof.
  intros Hx Hk. destruct x; simpl; [now apply Hk|discriminate|now contradiction Hx].
Qed.

Lemma parse_fuel f :
  (forall ts, (2 * List.length ts < f)%nat -> parseValue f ts <> OutOfFuel) /\
  (forall ts, (2 * List.length ts + 1 < f)%nat -> parseElements f ts <> OutOfFuel) /\
  (forall ts, (2 * List.length ts + 1 < f)%nat -> parseMembers f ts <> OutOfFuel).
Proof.
  induction f as [|f [IHv [IHe IHm]]].
  { repeat split; intros ts H; lia. }
  destruct (parse_shorter f) as [Sv [Se Sm]].
  split; [|split]; intros ts Hf.
  - cbn [parseValue]. destruct ts as [|t ts]; [discriminate|].
    simpl in Hf.
    destruct t; try discriminate.
    + destruct ts as [|t' ts']; [|destruct t']; try discriminate;
        (apply bind_fuel; [apply IHm; simpl in *; lia|intros [ms r'] _; discriminate]).
    + destruct ts as [|t' ts']; [|destruct t']; try discriminate;
        (apply bind_fuel; [apply IHe; simpl in *; lia|intros [vs r'] _; discriminate]).
  - cbn [parseElements]. apply bind_fuel; [apply IHv; lia|].
    intros [v r] E. apply Sv in E.
    destruct r as [|t r']; [discriminate|]. destruct t; try discriminate.
    apply bind_fuel; [apply IHe; simpl in *; lia|intros [vs r''] _; discriminate].
  - cbn [parseMembers]. destruct ts as [|t ts]; [discriminate|].
    destruct t; try discriminate.
    destruct ts as [|t' ts']; [discriminate|]. destruct t'; try discriminate.
    simpl in Hf.
    apply bind_fuel; [apply IHv; lia|].
    intros [v r] E. apply Sv in E.
    destruct r as [|t r']; [discriminate|]. destruct t; try discriminate.
    apply bind_fuel; [apply IHm; simpl in *; lia|intros [ms r''] _; discriminate].
Qed.

(** The fuel [JSON.parse] gives is never used up: where it returns [None]
    the text is rejected. *)
Lemma parseText_fuel (text : jsstring) :
  parseText (S (List.length text)) text <> OutOfFuel.
Proof.
  unfold parseText.
  destruct (lex_fuel (S (List.length text)) text (Nat.lt_succ_diag_r _)) as [H1 H2].
  apply bind_fuel; [exact H1|].
  intros ts E. apply H2 in E.
  apply bind_fuel.
  - apply parse_fuel. lia.
  - intros [v r] _. destruct r; discriminate.
Qed.

Lemma parse_None (text : jsstring) :
  JSON.parse text = None <-> parseText (S (List.length text)) text = SyntaxError.
Proof.
  unfold JSON.parse. pose proof (parseText_fuel text) as H.
  destruct (parseText (S (List.length text)) text); split; congruence.
Qed.

End Fuel.

(** ** The handler applies the events of the stream *)

Section Refinement.
Context {R : Runtime}.

Lemma getProperty_content parsed key cid :
  getProperty parsed key = Some cid ->
  exists ct, getProperty parsed (js "content") = Some ct.
Proof. destruct parsed; simpl; try discriminate; eauto. Qed.

Lemma mapPartial_total {A B} (f : A -> option B) (g : A -> B) l :
  (forall a, In a l -> f a = Some (g a)) -> mapPartial f l = Some (map g l).
Proof.
  induction l as [|a l IH]; intros H; [reflexivity|].
  simpl. rewrite (H a (or_introl eq_refl)), IH; [reflexivity|].
  intros b Hb. apply H. now right.
Qed.

(** Where the content has a string conversion, the updater appends it. *)
Lemma appendParsedContent_Some a v text prev :
  ToString v = Some text ->
  appendParsedContent a v prev = Some (appendContent a text prev).
Proof.
  intros H. unfold appendParsedContent, appendContent.
  apply mapPartial_total. intros msg _. unfold plus. rewrite H.
  now destruct (JSString.eqb (id msg) a).
Qed.

(** Where it has none, the updater throws if a message has the id, and
    otherwise returns the transcript as it is. *)
Lemma appendParsedContent_None a v prev :
  ToString v = None ->
  appendParsedContent a v prev =
  if existsb (fun msg => JSString.eqb (id msg) a) prev then None else Some prev.
Proof.
  intros H. unfold appendParsedContent.
  induction prev as [|msg prev IH]; [reflexivity|].
  simpl. unfold plus at 1. rewrite H.
  destruct (JSString.eqb (id msg) a); [reflexivity|].
  simpl. rewrite IH.
  now destruct (existsb (fun msg0 => JSString.eqb (id msg0) a) prev).
Qed.

Lemma setMessages_same st : setMessages (fun _ => messages st) st = st.
Proof. now destruct st. Qed.

Lemma setMessagesPartial_applyEvent c v st :
  setMessagesPartial (appendParsedContent (assistantId c) v) st =
  applyEvent c st
    match ToString v with
    | Some text => TextFragment text
    | None => ThrowingContent v
    end.
Proof.
  unfold setMessagesPartial.
  destruct (ToString v) as [text|] eqn:E.
  - now rewrite (appendParsedContent_Some _ _ text _ E).
  - rewrite (appendParsedContent_None _ _ _ E). simpl.
    destruct (existsb _ (messages st)); [reflexivity|apply setMessages_same].
Qed.

(** The [try] block throws exactly on the payloads that [parseRecord]
    does not read, and then it has changed nothing. *)
Lemma tryBlock_Thrown c data st :
  parseRecord data = None -> tryBlock c data st = Thrown st.
Proof.
  unfold parseRecord, tryBlock.
  destruct (JSON.parse data) as [parsed|]; [|reflexivity].
  destruct (getProperty parsed (js "conversation_id")) as [cid|] eqn:Ec; [|reflexivity].
  destruct (getProperty_content _ _ _ Ec) as [ct ->]. discriminate.
Qed.

Lemma tryBlock_Normal c data st cid ct :
  parseRecord data = Some (cid, ct) ->
  tryBlock c data st = Normal (fold_left (applyEvent c) (recordEvents cid ct) st).
Proof.
  unfold parseRecord, tryBlock, recordEvents.
  destruct (JSON.parse data) as [parsed|]; [|discriminate].
  destruct (getProperty parsed (js "conversation_id")) as [cid'|]; [|discriminate].
  destruct (getProperty parsed (js "content")) as [ct'|]; [|discriminate].
  intros E. injection E as -> ->.
  destruct ct as [v|].
  - destruct (ToBoolean cid), (ToBoolean (Some v)),
      (negb (ToBoolean (call_conversationId c))) eqn:E;
      cbn [fold_left app andb]; rewrite ?setMessagesPartial_applyEvent;
      cbn [applyEvent]; rewrite ?E; reflexivity.
  - destruct (ToBoolean cid),
      (negb (ToBoolean (call_conversationId c))) eqn:E;
      cbn [fold_left app applyEvent andb]; rewrite ?E; reflexivity.
Qed.

Lemma processLine_decodeLine c st line :
  processLine c st line = fold_left (applyEvent c) (decodeLine line) st.
Proof.
  unfold processLine, decodeLine.
  destruct (JSString.startsWith line (js "data: ")); [|reflexivity].
  cbv zeta.
  destruct (JSString.eqb (JSString.slice 6 line) (js "[DONE]")); [reflexivity|].
  destruct (parseRecord (JSString.slice 6 line)) as [[cid ct]|] eqn:E.
  - now rewrite (tryBlock_Normal c _ st cid ct E).
  - rewrite (tryBlock_Thrown c _ st E). unfold catchBlock, plainText.
    destruct (negb (JSString.eqb (JSString.trim (JSString.slice 6 line)) []));
      reflexivity.
Qed.

Lemma fold_left_flat_map {A B S} (f : S -> B -> S) (g : A -> list B) l st :
  fold_left f (flat_map g l) st = fold_left (fun s a => fold_left f (g a) s) l st.
Proof.
  revert st. induction l as [|a l IH]; intros st; simpl; [reflexivity|].
  now rewrite fold_left_app, IH.
Qed.

Lemma processChunk_decodeChunk c st chunk :
  processChunk c st chunk = fold_left (applyEvent c) (decodeChunk chunk) st.
Proof.
  unfold processChunk, decodeChunk. rewrite fold_left_flat_map.
  generalize (JSString.split 10 chunk). intros l. revert st.
  induction l as [|a l IH]; intros st; simpl; [reflexivity|].
  now rewrite processLine_decodeLine, IH.
Qed.

Lemma processChunks_decodeChunks c st chunks :
  fold_left (processChunk c) chunks st =
  fold_left (applyEvent c) (decodeChunks chunks) st.
Proof.
  unfold decodeChunks. rewrite fold_left_flat_map.
  revert st. induction chunks as [|a l IH]; intros st; simpl; [reflexivity|].
  now rewrite processChunk_decodeChunk, IH.
Qed.

Lemma decodeChunk_nil : decodeChunk [] = [].
Proof. reflexivity. Qed.

Lemma decodeChunk_app a b :
  decodeChunk (a ++ 10 :: b) = decodeChunk a ++ decodeChunk b.
Proof. unfold decodeChunk. now rewrite split_app, flat_map_app. Qed.

Lemma decodeChunk_aligned a b :
  a = [] \/ (exists a', a = a' ++ [10]) ->
  decodeChunk (a ++ b) = decodeChunk a ++ decodeChunk b.
Proof.
  intros [->|[a' ->]]; [reflexivity|].
  rewrite <- app_assoc. simpl.
  rewrite decodeChunk_app.
  replace (a' ++ [10]) with (a' ++ 10 :: []) by reflexivity.
  rewrite decodeChunk_app, decodeChunk_nil, app_nil_r. reflexivity.
Qed.

Lemma decodeChunks_aligned chunks :
  lineAligned chunks -> decodeChunks chunks = decodeChunk (List.concat chunks).
Proof.
  induction chunks as [|a l IH]; [reflexivity|].
  destruct l as [|b l].
  - intros _. unfold decodeChunks. simpl. now rewrite !app_nil_r.
  - intros [Ha Hl]. change (decodeChunks (a :: b :: l))
      with (decodeChunk a ++ decodeChunks (b :: l)).
    rewrite IH by exact Hl.
    change (List.concat (a :: b :: l)) with (a ++ List.concat (b :: l)).
    now rewrite decodeChunk_aligned.
Qed.

End Refinement.

(** ** Chunk boundaries (C1) *)

(** C1, as stated, fails: the handler splits every chunk on its own and
    keeps nothing from one chunk to the next. When the frame
    [data: {"content":"Hello"}] arrives cut after [Hel], the first half is
    a [data: ] line that is not JSON and is appended as it is, and the
    second half is not a [data: ] line; in one piece the frame gives the
    fragment [Hello]. *)
Lemma C1_cut_inside_a_line :
  List.concat [js "data: {'content':'Hel"; js "lo'}\n"] =
  List.concat [js "data: {'content':'Hello'}\n"] /\
  (forall R : Runtime,
     @decodeChunks R [js "data: {'content':'Hel"; js "lo'}\n"] =
     [TextFragment (js "{'content':'Hel")]) /\
  (forall R : Runtime,
     @decodeChunks R [js "data: {'content':'Hello'}\n"] =
     [TextFragment (js "Hello")]) /\
  (forall R : Runtime,
     @decodeChunks R [js "data: {'content':'Hel"; js "lo'}\n"] <>
     @decodeChunks R [js "data: {'content':'Hello'}\n"]) /\
  (forall R : Runtime,
     map content
       (messages
          (@run R initialPage
             [Change (js "hi"); Submit 1000 1000; Settle 0 (Response true);
              Settle 0 (ReadValue (js "data: {'content':'Hel"));
              Settle 0 (ReadValue (js "lo'}\n"));
              Settle 0 ReadDone])) = [js "hi"; js "{'content':'Hel"] /\
     map content
       (messages
          (@run R initialPage
             [Change (js "hi"); Submit 1000 1000; Settle 0 (Response true);
              Settle 0 (ReadValue (js "data: {'content':'Hello'}\n"));
              Settle 0 ReadDone])) = [js "hi"; js "Hello"]).
Proof.
  split; [reflexivity|].
  split; [intros R; vm_compute; reflexivity|].
  split; [intros R; vm_compute; reflexivity|].
  split; [intros R; vm_compute; discriminate|].
  intros R. split; vm_compute; reflexivity.
Qed.

(** C1, amended: for every two ways of cutting the same text into chunks
    at line ends (every chunk but the last is empty or ends with a line
    feed), the events are the same, and so is the page the handler leaves. *)
Theorem C1_chunks_cut_at_line_ends {R : Runtime} (chunks1 chunks2 : list jsstring) :
  List.concat chunks1 = List.concat chunks2 ->
  lineAligned chunks1 ->
  lineAligned chunks2 ->
  decodeChunks chunks1 = decodeChunks chunks2 /\
  forall c st,
    fold_left (processChunk c) chunks1 st = fold_left (processChunk c) chunks2 st.
Proof.
  intros Hc H1 H2.
  assert (E : decodeChunks chunks1 = decodeChunks chunks2).
  { rewrite !decodeChunks_aligned by assumption. now rewrite Hc. }
  split; [exact E|].
  intros c st. now rewrite !processChunks_decodeChunks, E.
Qed.

Lemma C1_chunks_cut_at_line_ends_witness :
  @decodeChunks exampleRuntime
    [js "data: {'content':'Hel'}\n"; js "data: {'content':'lo'}\n\ndata: [DONE]\n"] =
  @decodeChunks exampleRuntime
    [js "data: {'content':'Hel'}\n"; []; js "data: {'content':'lo'}\n\n"; js "data: [DONE]\n"] /\
  forall c st,
    fold_left (@processChunk exampleRuntime c)
      [js "data: {'content':'Hel'}\n"; js "data: {'content':'lo'}\n\ndata: [DONE]\n"] st =
    fold_left (@processChunk exampleRuntime c)
      [js "data: {'content':'Hel'}\n"; []; js "data: {'content':'lo'}\n\n"; js "data: [DONE]\n"] st.
Proof.
  apply (@C1_chunks_cut_at_line_ends exampleRuntime).
  - reflexivity.
  - simpl. split; [|exact I].
    right. exists (js "data: {'content':'Hel'}"). reflexivity.
  - simpl. split; [right; exists (js "data: {'content':'Hel'}"); reflexivity|].
    split; [left; reflexivity|].
    split; [right; exists (js "data: {'content':'lo'}\n"); reflexivity|exact I].
Defined.

(** ** The terminator (C2) *)

(** C2, as stated, fails: on [data: [DONE]] the handler goes on to the next
    line ([continue]). A frame after the terminator is applied like any
    other, and a terminator that arrives in two chunks is not seen: its
    first half is appended to the transcript as text. *)
Lemma C2_lines_after_DONE_are_applied :
  (forall R : Runtime,
     @decodeChunks R [js "data: [DONE]\ndata: {'conversation_id':'c9','content':'late'}\n"] =
     [ConversationIdEvent (Some (JString (js "c9"))); TextFragment (js "late")]) /\
  (forall R : Runtime,
     @decodeChunks R [js "data: [DO"; js "NE]\n"] = [TextFragment (js "[DO")]) /\
  (forall R : Runtime,
     let st := @run R initialPage
                 [Change (js "hi"); Submit 1000 1000; Settle 0 (Response true);
                  Settle 0 (ReadValue (js "data: [DONE]\n"));
                  Settle 0 (ReadValue (js "data: {'conversation_id':'c9','content':'late'}\n"));
                  Settle 0 ReadDone] in
     map content (messages st) = [js "hi"; js "late"] /\
     conversationId st = Some (JString (js "c9"))).
Proof.
  split; [intros R; vm_compute; reflexivity|].
  split; [intros R; vm_compute; reflexivity|].
  intros R. vm_compute. split; reflexivity.
Qed.

(** C2, amended: a line [data: [DONE]] that arrives whole within one chunk
    carries no event and changes nothing on the page, neither the
    transcript nor the conversation id; the lines around it are applied as
    if it were not there. *)
Theorem C2_DONE_line_is_skipped {R : Runtime} (c : Call) (st : Page)
  (before after : list jsstring) (a b : jsstring) :
  decodeLine (js "data: [DONE]") = [] /\
  processLine c st (js "data: [DONE]") = st /\
  fold_left (processLine c) (before ++ js "data: [DONE]" :: after) st =
  fold_left (processLine c) (before ++ after) st /\
  processChunk c st (a ++ js "\ndata: [DONE]\n" ++ b) =
  processChunk c st (a ++ js "\n" ++ b).
Proof.
  assert (Hl : forall st', processLine c st' (js "data: [DONE]") = st') by reflexivity.
  split; [reflexivity|]. split; [apply Hl|]. split.
  - rewrite !fold_left_app. simpl. now rewrite Hl.
  - unfold processChunk.
    change (a ++ js "\ndata: [DONE]\n" ++ b)
      with (a ++ 10 :: js "data: [DONE]" ++ 10 :: b).
    change (a ++ js "\n" ++ b) with (a ++ 10 :: b).
    rewrite !split_app, !fold_left_app.
    change (JSString.split 10 (js "data: [DONE]")) with [js "data: [DONE]"].
    simpl fold_left at 2. now rewrite Hl.
Qed.

(** ** What the stream leaves alone *)

Section Frame.
Context {R : Runtime}.

Lemma applyEvent_control c st e : control (applyEvent c st e) = control st.
Proof.
  destruct e as [v|t|v]; simpl; [|reflexivity|].
  - destruct (negb (ToBoolean (call_conversationId c))); reflexivity.
  - destruct (existsb _ (messages st)); reflexivity.
Qed.

Lemma applyEvents_control c es st :
  control (fold_left (applyEvent c) es st) = control st.
Proof.
  revert st. induction es as [|e es IH]; intros st; simpl; [reflexivity|].
  now rewrite IH, applyEvent_control.
Qed.

Lemma processChunk_control c st chunk : control (processChunk c st chunk) = control st.
Proof. rewrite processChunk_decodeChunk. apply applyEvents_control. Qed.

Lemma processChunk_calls c st chunk : calls (processChunk c st chunk) = calls st.
Proof.
  pose proof (processChunk_control c st chunk) as H. unfold control in H. congruence.
Qed.

Lemma processChunk_isStreaming c st chunk :
  isStreaming (processChunk c st chunk) = isStreaming st.
Proof.
  pose proof (processChunk_control c st chunk) as H. unfold control in H. congruence.
Qed.

(** Events without a throwing content leave [crashed] as it is. *)
Lemma throws_app es1 es2 : throws (es1 ++ es2) = throws es1 || throws es2.
Proof. apply existsb_app. Qed.

Lemma applyEvents_crashed c es st :
  throws es = false -> crashed (fold_left (applyEvent c) es st) = crashed st.
Proof.
  revert st. induction es as [|e es IH]; intros st H; [reflexivity|].
  simpl in H. apply orb_false_iff in H. destruct H as [He Hes].
  simpl fold_left. rewrite IH by exact Hes.
  destruct e as [v|t|v]; simpl; try reflexivity; [|discriminate].
  now destruct (negb (ToBoolean (call_conversationId c))).
Qed.

Lemma processChunk_crashed c st chunk :
  throws (decodeChunk chunk) = false -> crashed (processChunk c st chunk) = crashed st.
Proof. intros H. rewrite processChunk_decodeChunk. now apply applyEvents_crashed. Qed.

Lemma processChunks_crashed c chunks st :
  throws (decodeChunks chunks) = false ->
  crashed (fold_left (processChunk c) chunks st) = crashed st.
Proof. intros H. rewrite processChunks_decodeChunks. now apply applyEvents_crashed. Qed.

(** Whether a message has the id [a] is a matter of the ids alone, which
    no event changes; and a page that has crashed stays so. *)
Lemma existsb_ids a (l : list Message) :
  existsb (fun msg => JSString.eqb (id msg) a) l =
  existsb (fun i => JSString.eqb i a) (map id l).
Proof. induction l as [|m l IH]; simpl; [reflexivity|now rewrite IH]. Qed.

Lemma applyEvent_ids c st e :
  map id (messages (applyEvent c st e)) = map id (messages st).
Proof.
  destruct e as [v|t|v]; simpl.
  - now destruct (negb (ToBoolean (call_conversationId c))).
  - unfold appendContent. rewrite map_map. apply map_ext.
    intros m. now destruct (JSString.eqb (id m) (assistantId c)).
  - now destruct (existsb _ (messages st)).
Qed.

(** A call whose placeholder is in the transcript crashes the page exactly
    when its stream carries a content without a string conversion. *)
Lemma applyEvents_crashed_iff c es st :
  crashed (fold_left (applyEvent c) es st) =
  crashed st ||
  (existsb (fun msg => JSString.eqb (id msg) (assistantId c)) (messages st) && throws es).
Proof.
  revert st. induction es as [|e es IH]; intros st.
  - simpl. now rewrite andb_false_r, orb_false_r.
  - simpl fold_left. rewrite IH.
    rewrite (existsb_ids _ (messages (applyEvent c st e))), applyEvent_ids, <- existsb_ids.
    change (throws (e :: es))
      with ((match e with ThrowingContent _ => true | _ => false end) || throws es).
    destruct e as [v|t|v]; simpl applyEvent.
    + now destruct (negb (ToBoolean (call_conversationId c))).
    + reflexivity.
    + destruct (existsb _ (messages st)) eqn:E; simpl.
      * now rewrite !orb_true_r.
      * now rewrite !orb_false_r.
Qed.

Lemma step_oneCall st ev : oneCall st -> oneCall (step st ev).
Proof.
  intros H. destruct ev as [v|n1 n2|i s| |cid ms|]; simpl; try exact H.
  - (* Submit *)
    unfold handleSubmit.
    destruct (JSString.eqb (JSString.trim (input st)) [] || isStreaming st) eqn:G;
      [exact H|].
    apply orb_false_iff in G. destruct G as [_ G].
    destruct H as [[Hc _]|[c [_ Hs]]]; [|congruence].
    right. simpl. rewrite Hc. eexists. split; reflexivity.
  - (* Settle *)
    unfold resume.
    destruct H as [[Hc Hs]|[c [Hc Hs]]].
    + rewrite Hc. destruct i; simpl; left; now split.
    + rewrite Hc. destruct i as [|i]; simpl; [|destruct i; right; eauto].
      destruct (point c), s as [|[|]|chunk|]; simpl;
        try solve [left; unfold removeAt; simpl; rewrite ?Hc; now split];
        try solve [right; eauto].
      * right. unfold setCalls, replaceAt. simpl.
        eexists. now split.
      * right. exists c. now rewrite processChunk_calls, processChunk_isStreaming.
Qed.

Lemma run_app st evs1 evs2 : run st (evs1 ++ evs2) = run (run st evs1) evs2.
Proof. apply fold_left_app. Qed.

Lemma run_oneCall st evs : oneCall st -> oneCall (run st evs).
Proof.
  revert st. induction evs as [|ev evs IH]; intros st H; simpl; [exact H|].
  apply IH, step_oneCall, H.
Qed.

Lemma initialPage_oneCall : oneCall initialPage.
Proof. left. now split. Qed.

(** No updater throws as long as every content that arrives has a string
    conversion. *)
Lemma step_crashed st ev : converts ev = true -> crashed (step st ev) = crashed st.
Proof.
  intros H. destruct ev as [v|n1 n2|i s| |cid ms|]; try reflexivity.
  - simpl. unfold handleSubmit.
    now destruct (JSString.eqb (JSString.trim (input st)) [] || isStreaming st).
  - simpl. unfold resume. destruct (nth_error (calls st) i) as [c|]; [|reflexivity].
    destruct (point c), s as [|[|]|chunk|]; try reflexivity.
    simpl in H. apply negb_true_iff in H. now apply processChunk_crashed.
Qed.

Lemma run_crashed st evs :
  forallb converts evs = true -> crashed (run st evs) = crashed st.
Proof.
  revert st. induction evs as [|ev evs IH]; intros st H; [reflexivity|].
  simpl in H. apply andb_true_iff in H. destruct H as [Hev Hevs].
  change (run st (ev :: evs)) with (run (step st ev) evs).
  now rewrite IH, step_crashed.
Qed.

Lemma throws_decodeChunks chunk chunks :
  throws (decodeChunks (chunk :: chunks)) =
  throws (decodeChunk chunk) || throws (decodeChunks chunks).
Proof. apply throws_app. Qed.

Lemma converts_reads i chunks :
  throws (decodeChunks chunks) = false -> forallb converts (reads i chunks) = true.
Proof.
  induction chunks as [|chunk chunks IH]; intros H; [reflexivity|].
  rewrite throws_decodeChunks in H. apply orb_false_iff in H. destruct H as [H1 H2].
  simpl. now rewrite H1, IH.
Qed.

Lemma converts_exchange i chunks completes :
  throws (decodeChunks (match chunks with Some cs => cs | None => [] end)) = false ->
  forallb converts (exchange i chunks completes) = true.
Proof.
  intros H. unfold exchange, completedExchange, failedExchange, streamed.
  destruct completes, chunks as [cs|]; try reflexivity;
    simpl; rewrite forallb_app, (converts_reads i cs H); reflexivity.
Qed.

(** An exchange in which no content is without a string conversion leaves
    [crashed] as it is. *)
Lemma exchange_crashed st now1 now2 chunks completes :
  throws (decodeChunks (match chunks with Some cs => cs | None => [] end)) = false ->
  crashed (run st (Submit now1 now2 :: exchange (List.length (calls st)) chunks completes)) =
  crashed st.
Proof.
  intros H. apply run_crashed. simpl. now apply converts_exchange.
Qed.

End Frame.

(** ** The first conversation id (C3) *)

Section ConversationId.
Context {R : Runtime}.

Lemma last_default {A} (x : A) l d d' : last (x :: l) d = last (x :: l) d'.
Proof.
  revert x. induction l as [|y l IH]; intros x; [reflexivity|].
  change (last (y :: l) d = last (y :: l) d'). apply IH.
Qed.

(** A call that started without a conversation id binds every id of its
    stream, so the last one stays; a call that started with one binds
    none. *)
Lemma conversationId_applyEvents c es st :
  conversationId (fold_left (applyEvent c) es st) =
  if ToBoolean (call_conversationId c) then conversationId st
  else last (conversationIds es) (conversationId st).
Proof.
  revert st. induction es as [|e es IH]; intros st.
  - simpl. now destruct (ToBoolean (call_conversationId c)).
  - simpl fold_left. rewrite IH.
    destruct e as [v|t|v]; simpl applyEvent;
      destruct (ToBoolean (call_conversationId c)) eqn:E; simpl negb; cbv iota;
      try reflexivity;
      try (destruct (existsb _ (messages st)); reflexivity).
    change (conversationIds (ConversationIdEvent v :: es)) with (v :: conversationIds es).
    simpl conversationId.
    destruct (conversationIds es) as [|v' vs] eqn:Ev; [reflexivity|].
    change (last (v :: v' :: vs) (conversationId st)) with (last (v' :: vs) (conversationId st)).
    apply last_default.
Qed.

End ConversationId.

(** C3 at the failing input: the page starts without a conversation id and
    the stream carries two, [c1] and then [c2]. The guard [!conversationId]
    reads the constant of the render in which the handler was created,
    which [setConversationId] does not change, so the second id is bound
    over the first. *)
Theorem C3_second_conversation_id_overwrites_first {R : Runtime} :
  conversationId
    (run initialPage
       [Change (js "hi"); Submit 1000 1000; Settle 0 (Response true);
        Settle 0 (ReadValue (js "data: {'conversation_id':'c1'}\n"));
        Settle 0 (ReadValue (js "data: {'conversation_id':'c2'}\n"));
        Settle 0 (ReadValue (js "data: [DONE]\n"));
        Settle 0 ReadDone]) = Some (JString (js "c2")).
Proof. vm_compute. reflexivity. Qed.

(** ** Rejected submissions (C4) *)

(** C4: [handleSubmit] leaves the page as it is, transcript and requests
    included, when the input is empty after trimming or [isStreaming] is
    set. On every page reached from the initial one at most one call of
    [handleSubmit] is running, and while one is running a submission is
    rejected in this way. *)
Theorem C4_submit_rejected {R : Runtime} :
  (forall st now1 now2,
     JSString.trim (input st) = [] \/ isStreaming st = true ->
     step st (Submit now1 now2) = st /\
     messages (step st (Submit now1 now2)) = messages st /\
     requests (step st (Submit now1 now2)) = requests st /\
     calls (step st (Submit now1 now2)) = calls st) /\
  (forall evs,
     let st := run initialPage evs in
     (List.length (calls st) <= 1)%nat /\
     (calls st <> [] ->
      isStreaming st = true /\
      forall now1 now2, step st (Submit now1 now2) = st)).
Proof.
  assert (H1 : forall st now1 now2,
             JSString.trim (input st) = [] \/ isStreaming st = true ->
             step st (Submit now1 now2) = st).
  { intros st now1 now2 H. simpl. unfold handleSubmit.
    destruct H as [H|H]; rewrite H; [reflexivity|].
    now rewrite orb_true_r. }
  split.
  - intros st now1 now2 H. rewrite (H1 st now1 now2 H). repeat split; reflexivity.
  - intros evs st.
    destruct (run_oneCall initialPage evs initialPage_oneCall) as [[Hc Hs]|[c [Hc Hs]]];
      fold st in Hc, Hs; rewrite Hc; simpl.
    + split; [lia|]. intros H. now contradiction H.
    + split; [lia|]. intros _. split; [exact Hs|].
      intros now1 now2. apply H1. now right.
Qed.

Lemma C4_submit_rejected_witness :
  let st := @run exampleRuntime initialPage [Change (js "first"); Submit 1000 1000;
                                             Change (js "second")] in
  isStreaming st = true /\
  @step exampleRuntime st (Submit 2000 2000) = st /\
  @step exampleRuntime initialPage (Submit 2000 2000) = initialPage.
Proof.
  split; [reflexivity|]. split.
  - apply (proj1 (@C4_submit_rejected exampleRuntime)). right. reflexivity.
  - apply (proj1 (@C4_submit_rejected exampleRuntime)). left. reflexivity.
Defined.

(** ** Lists of running calls *)

Lemma nth_error_last {A} (l : list A) (x : A) :
  nth_error (l ++ [x]) (List.length l) = Some x.
Proof.
  rewrite nth_error_app2 by lia. now rewrite Nat.sub_diag.
Qed.

Lemma removeAt_last {A} (l : list A) (x : A) :
  removeAt (List.length l) (l ++ [x]) = l.
Proof.
  unfold removeAt.
  rewrite (skipn_all2 (n := S (List.length l)))
    by (rewrite length_app; simpl; lia).
  rewrite firstn_app, firstn_all, Nat.sub_diag. simpl.
  now rewrite !app_nil_r.
Qed.

Lemma replaceAt_last {A} (l : list A) (x y : A) :
  replaceAt (List.length l) y (l ++ [x]) = l ++ [y].
Proof.
  unfold replaceAt.
  rewrite (skipn_all2 (n := S (List.length l)))
    by (rewrite length_app; simpl; lia).
  rewrite firstn_app, firstn_all, Nat.sub_diag. simpl.
  now rewrite !app_nil_r.
Qed.

(** ** One exchange *)

Section Exchange.
Context {R : Runtime}.

(** While a call waits in [reader.read()], the chunks that arrive are
    processed in turn. *)
Lemma run_reads st i c chunks :
  nth_error (calls st) i = Some c ->
  point c = AwaitRead ->
  run st (reads i chunks) = fold_left (processChunk c) chunks st.
Proof.
  revert st. induction chunks as [|chunk chunks IH]; intros st Hc Hp; [reflexivity|].
  change (run st (reads i (chunk :: chunks)))
    with (run (resume i (ReadValue chunk) st) (reads i chunks)).
  unfold resume. rewrite Hc, Hp. simpl fold_left.
  apply IH; [|exact Hp]. now rewrite processChunk_calls.
Qed.

Lemma replaceContent_appendContent a t x l :
  replaceContent a t (appendContent a x l) = replaceContent a t l.
Proof.
  unfold replaceContent, appendContent. rewrite map_map.
  apply map_ext. intros m.
  destruct (JSString.eqb (id m) a) eqn:E; simpl; now rewrite E.
Qed.

Lemma replaceContent_applyEvents c t es st :
  replaceContent (assistantId c) t (messages (fold_left (applyEvent c) es st)) =
  replaceContent (assistantId c) t (messages st).
Proof.
  revert st. induction es as [|e es IH]; intros st; [reflexivity|].
  simpl. rewrite IH. destruct e as [v|x|v]; simpl.
  - destruct (negb (ToBoolean (call_conversationId c))); reflexivity.
  - apply replaceContent_appendContent.
  - destruct (existsb _ (messages st)); reflexivity.
Qed.

Lemma step_Submit_accepted st now1 now2 :
  accepted st (Submit now1 now2) = true ->
  step st (Submit now1 now2) = submitted now1 now2 AwaitResponse st.
Proof.
  simpl. unfold handleSubmit. intros H.
  apply negb_true_iff in H. rewrite H.
  unfold submitted, userMessageOf, placeholderOf, callOf.
  unfold setCalls, streamMessage, setMessages, setIsStreaming, setInput. simpl.
  now rewrite <- app_assoc.
Qed.

Lemma step_Response_submitted st now1 now2 :
  step (submitted now1 now2 AwaitResponse st)
    (Settle (List.length (calls st)) (Response true)) =
  submitted now1 now2 AwaitRead st.
Proof.
  simpl. unfold resume. simpl. rewrite nth_error_last. simpl.
  unfold setCalls, submitted. simpl. now rewrite replaceAt_last.
Qed.

End Exchange.

Section Outcome.
Context {R : Runtime}.

Lemma processChunks_control c chunks st :
  control (fold_left (processChunk c) chunks st) = control st.
Proof. rewrite processChunks_decodeChunks. apply applyEvents_control. Qed.

Lemma step_Rejected st i c :
  nth_error (calls st) i = Some c ->
  step st (Settle i Rejected) = finallyBlock i (catchError c st).
Proof.
  intros H. simpl. unfold resume. rewrite H. now destruct (point c).
Qed.

Lemma step_ReadDone st i c :
  nth_error (calls st) i = Some c ->
  point c = AwaitRead ->
  step st (Settle i ReadDone) = finallyBlock i st.
Proof.
  intros H Hp. simpl. unfold resume. now rewrite H, Hp.
Qed.

Lemma replaceContent_submitted now1 now2 p t st :
  replaceContent (JSString.toString (now2 + 1)) t (messages (submitted now1 now2 p st)) =
  replaceContent (JSString.toString (now2 + 1)) t (messages st ++ [userMessageOf now1 st]) ++
    [placeholderOf now2 t].
Proof.
  unfold replaceContent. simpl. rewrite !map_app. simpl.
  rewrite eqb_refl. now rewrite <- app_assoc.
Qed.


(** The page after the running call [c], reading [chunks] from [st], is
    stopped by a failure. *)
Lemma failed_after_reads st i c chunks :
  nth_error (calls st) i = Some c ->
  let st' := step (fold_left (processChunk c) chunks st) (Settle i Rejected) in
  console st' = console st ++ [js "Stream error:"] /\
  isStreaming st' = false /\
  calls st' = removeAt i (calls st) /\
  messages st' = replaceContent (assistantId c) errorText (messages st).
Proof.
  intros Hc st'.
  pose proof (processChunks_control c chunks st) as Hk.
  unfold control in Hk. injection Hk as _ _ _ _ Hcons Hcalls.
  subst st'. rewrite (step_Rejected _ i c) by now rewrite Hcalls.
  unfold finallyBlock, catchError. simpl.
  rewrite Hcons, Hcalls. repeat split.
  rewrite processChunks_decodeChunks. apply replaceContent_applyEvents.
Qed.

End Outcome.

(** ** Failed exchanges (C5) *)




(** ** Completed exchanges (C6) *)

Section Completed.
Context {R : Runtime}.

Lemma messages_applyEvents c es st :
  messages (fold_left (applyEvent c) es st) =
  appendAll (assistantId c) (fragments es) (messages st).
Proof.
  revert st. induction es as [|e es IH]; intros st; [reflexivity|].
  simpl fold_left. rewrite IH. destruct e as [v|t|v]; simpl.
  - destruct (negb (ToBoolean (call_conversationId c))); reflexivity.
  - reflexivity.
  - destruct (existsb _ (messages st)); reflexivity.
Qed.

Lemma appendAll_app a texts l1 l2 :
  appendAll a texts (l1 ++ l2) = appendAll a texts l1 ++ appendAll a texts l2.
Proof.
  revert l1 l2. induction texts as [|t texts IH]; intros l1 l2; [reflexivity|].
  unfold appendAll in *. simpl. unfold appendContent at 2. rewrite map_app.
  apply IH.
Qed.

Lemma appendAll_placeholder a texts r0 t0 :
  appendAll a texts [{| id := a; role := r0; content := t0 |}] =
  [{| id := a; role := r0; content := t0 ++ List.concat texts |}].
Proof.
  revert t0. induction texts as [|t texts IH]; intros t0.
  - simpl. now rewrite app_nil_r.
  - unfold appendAll in *. simpl. rewrite eqb_refl. rewrite IH.
    now rewrite <- app_assoc.
Qed.

Lemma appendAll_length a texts l : List.length (appendAll a texts l) = List.length l.
Proof.
  revert l. induction texts as [|t texts IH]; intros l; [reflexivity|].
  unfold appendAll in *. simpl. rewrite IH. apply length_map.
Qed.

Lemma completed_after_reads st i c chunks :
  nth_error (calls st) i = Some c ->
  point c = AwaitRead ->
  let st' := step (fold_left (processChunk c) chunks st) (Settle i ReadDone) in
  console st' = console st /\
  isStreaming st' = false /\
  calls st' = removeAt i (calls st) /\
  messages st' =
    appendAll (assistantId c) (fragments (decodeChunks chunks)) (messages st).
Proof.
  intros Hc Hp st'.
  pose proof (processChunks_control c chunks st) as Hk.
  unfold control in Hk. injection Hk as _ _ _ _ Hcons Hcalls.
  subst st'. rewrite (step_ReadDone _ i c) by (rewrite ?Hcalls; assumption).
  unfold finallyBlock. simpl.
  rewrite Hcons, Hcalls. repeat split.
  rewrite processChunks_decodeChunks. apply messages_applyEvents.
Qed.

End Completed.

(** ** The handler's fragments and those of the specification *)

Section SpecFrames.
Context {R : Runtime}.

(** A record of the specification is read by the handler as it is. *)
Lemma record_parseRecord payload cid ct :
  Spec.record payload = Some (cid, ct) ->
  parseRecord payload = Some (option_map JString cid, option_map JString ct).
Proof.
  unfold Spec.record, parseRecord.
  destruct (JSON.parse payload) as [[| | | | |ms]|]; try discriminate.
  unfold getProperty. cbv beta iota.
  destruct (member (js "conversation_id") ms) as [[| | | | |]|],
           (member (js "content") ms) as [[| | | | |]|];
    simpl; try discriminate; intros E; injection E as <- <-; reflexivity.
Qed.

Lemma fragments_app es1 es2 : fragments (es1 ++ es2) = fragments es1 ++ fragments es2.
Proof. apply flat_map_app. Qed.

Lemma plainText_fragments data :
  throws (plainText data) = false /\
  fragments (plainText data) =
  if negb (JSString.eqb (JSString.trim data) []) then [data] else [].
Proof.
  unfold plainText.
  now destruct (negb (JSString.eqb (JSString.trim data) [])).
Qed.

(** On a conforming line no content is without a string conversion, and
    the text the handler takes from the line is the text of the fragments
    of the specification. *)
Lemma conforming_line line :
  conforming line = true ->
  throws (decodeLine line) = false /\
  List.concat (fragments (decodeLine line)) = List.concat (Spec.lineFragments line).
Proof.
  unfold conforming, decodeLine, Spec.lineFragments, Spec.frame.
  destruct (JSString.startsWith line (js "data: ")); [|now split].
  cbv zeta. set (data := JSString.slice 6 line).
  destruct (JSString.eqb data (js "[DONE]")); [now split|].
  assert (Hplain : parseRecord data = None -> Spec.record data = None ->
            throws (plainText data) = false /\
            List.concat (fragments (plainText data)) =
            List.concat
              (Spec.textFragments
                 (if negb (JSString.eqb (JSString.trim data) [])
                  then Spec.PlainText data else Spec.NoFrame))).
  { intros _ _. destruct (plainText_fragments data) as [H1 H2].
    split; [exact H1|]. rewrite H2.
    now destruct (negb (JSString.eqb (JSString.trim data) [])). }
  destruct (JSON.parse data) as [v|] eqn:E.
  - destruct (Spec.record data) as [[cid ct]|] eqn:Er.
    + intros _. rewrite (record_parseRecord data cid ct Er).
      unfold recordEvents. rewrite throws_app, fragments_app.
      assert (Hc : throws (if ToBoolean (option_map JString cid)
                           then [ConversationIdEvent (option_map JString cid)] else []) = false /\
                   fragments (if ToBoolean (option_map JString cid)
                              then [ConversationIdEvent (option_map JString cid)] else []) = []).
      { now destruct (ToBoolean (option_map JString cid)). }
      destruct Hc as [Hc1 Hc2]. rewrite Hc1, Hc2.
      destruct ct as [text|]; simpl; [|now split].
      destruct (JSString.eqb text []) eqn:Et; simpl; [|now split].
      apply eqb_eq in Et. subst text. now split.
    + destruct v; try discriminate. intros _.
      assert (Hp : parseRecord data = None) by (unfold parseRecord; now rewrite E).
      rewrite Hp. now apply Hplain.
  - intros _.
    assert (Hp : parseRecord data = None) by (unfold parseRecord; now rewrite E).
    assert (Hr : Spec.record data = None) by (unfold Spec.record; now rewrite E).
    rewrite Hp, Hr. now apply Hplain.
Qed.

Lemma conforming_lines lines :
  forallb conforming lines = true ->
  throws (flat_map decodeLine lines) = false /\
  List.concat (fragments (flat_map decodeLine lines)) =
  List.concat (flat_map Spec.lineFragments lines).
Proof.
  induction lines as [|line lines IH]; intros H; [now split|].
  simpl in H. apply andb_true_iff in H. destruct H as [Hl Hls].
  destruct (conforming_line line Hl) as [H1 H2]. destruct (IH Hls) as [H3 H4].
  simpl. rewrite throws_app, fragments_app, !concat_app, H1, H2, H3, H4. now split.
Qed.

Lemma conforming_chunks chunks :
  conformingStream chunks = true ->
  throws (decodeChunks chunks) = false /\
  List.concat (fragments (decodeChunks chunks)) =
  List.concat
    (flat_map (fun chunk => flat_map Spec.lineFragments (JSString.split 10 chunk)) chunks).
Proof.
  unfold conformingStream, decodeChunks.
  induction chunks as [|chunk chunks IH]; intros H; [now split|].
  simpl in H. apply andb_true_iff in H. destruct H as [Hc Hcs].
  destruct (conforming_lines _ Hc) as [H1 H2]. destruct (IH Hcs) as [H3 H4].
  simpl. unfold decodeChunk at 1 3.
  rewrite throws_app, fragments_app, !concat_app, H1, H2, H3, H4. now split.
Qed.

End SpecFrames.

(** C6, as stated, fails: a payload that [JSON.parse] accepts and that is
    no object, such as [42] or a quoted string, is no structured record, so
    that it is a plain-text fragment of the specification; the handler
    finds neither member in it and drops it, and the placeholder stays
    empty. *)
Lemma C6_payload_that_is_no_record_is_dropped :
  Spec.frame (js "42") = Spec.PlainText (js "42") /\
  Spec.lineFragments (js "data: 42") = [js "42"] /\
  Spec.lineFragments (js "data: 'Hello'") = [js "'Hello'"] /\
  (forall R : Runtime,
     @decodeChunks R [js "data: 42\n"] = [] /\
     @decodeChunks R [js "data: 'Hello'\n"] = []) /\
  (forall R : Runtime,
     let st' := @run R initialPage
                  [Change (js "hi"); Submit 1000 1000; Settle 0 (Response true);
                   Settle 0 (ReadValue (js "data: 42\n"));
                   Settle 0 ReadDone] in
     crashed st' = false /\
     isStreaming st' = false /\
     messages st' =
       [ {| id := js "1000"; role := user; content := js "hi" |};
         {| id := js "1001"; role := assistant; content := [] |} ]).
Proof.
  split; [reflexivity|]. split; [reflexivity|]. split; [reflexivity|].
  split; intros R; vm_compute; repeat split; reflexivity.
Qed.

(** C6, amended: when an accepted submission is followed by an exchange
    that completes and in which every content has a string conversion, no
    updater throws, the transcript ends with the placeholder, and its
    content is the concatenation, in the order of arrival, of the texts the
    handler takes from the lines. When every line is conforming (its
    payload, if it is JSON, is [null] or a record of the specification),
    every content has a string conversion and that concatenation is the
    one of the text fragments of the specification. In particular the
    stream of the frames [{"conversation_id":"c1"}], [{"content":"Hel"}],
    [{"content":"lo"}] and [[DONE]] leaves the assistant content [Hello]
    and the conversation id [c1]. *)
Theorem C6_completed_exchange {R : Runtime} :
  (forall (st : Page) (now1 now2 : N) (chunks : option (list jsstring)),
     accepted st (Submit now1 now2) = true ->
     crashed st = false ->
     throws (decodeChunks (match chunks with Some cs => cs | None => [] end)) = false ->
     let st' := run st (Submit now1 now2 :: completedExchange (List.length (calls st)) chunks) in
     let texts := fragments (decodeChunks (match chunks with Some cs => cs | None => [] end)) in
     crashed st' = false /\
     isStreaming st' = false /\
     calls st' = calls st /\
     console st' = console st /\
     messages st' =
       appendAll (JSString.toString (now2 + 1)) texts (messages st ++ [userMessageOf now1 st]) ++
       [placeholderOf now2 (List.concat texts)]) /\
  (forall chunks : list jsstring,
     conformingStream chunks = true ->
     throws (decodeChunks chunks) = false /\
     List.concat (fragments (decodeChunks chunks)) =
     List.concat
       (flat_map (fun chunk => flat_map Spec.lineFragments (JSString.split 10 chunk))
          chunks)) /\
  (forall (st : Page) (now1 now2 : N) (chunks : list jsstring),
     accepted st (Submit now1 now2) = true ->
     crashed st = false ->
     conformingStream chunks = true ->
     let st' := run st (Submit now1 now2 ::
                          completedExchange (List.length (calls st)) (Some chunks)) in
     crashed st' = false /\
     List.length (messages st') = (List.length (messages st) + 2)%nat /\
     nth_error (messages st') (List.length (messages st) + 1) =
       Some (placeholderOf now2
               (List.concat
                  (flat_map
                     (fun chunk => flat_map Spec.lineFragments (JSString.split 10 chunk))
                     chunks)))) /\
  (let st' := run initialPage
                [Change (js "hi"); Submit 1000 1000; Settle 0 (Response true);
                 Settle 0 (ReadValue (js "data: {'conversation_id':'c1'}\n\ndata: {'content':'Hel'}\n\ndata: {'content':'lo'}\n\ndata: [DONE]\n"));
                 Settle 0 ReadDone] in
   crashed st' = false /\
   messages st' =
     [ {| id := js "1000"; role := user; content := js "hi" |};
       {| id := js "1001"; role := assistant; content := js "Hello" |} ] /\
   conversationId st' = Some (JString (js "c1"))).
Proof.
  assert (Hgen : forall (st : Page) (now1 now2 : N) (chunks : option (list jsstring)),
     accepted st (Submit now1 now2) = true ->
     crashed st = false ->
     throws (decodeChunks (match chunks with Some cs => cs | None => [] end)) = false ->
     let st' := run st (Submit now1 now2 :: completedExchange (List.length (calls st)) chunks) in
     let texts := fragments (decodeChunks (match chunks with Some cs => cs | None => [] end)) in
     crashed st' = false /\
     isStreaming st' = false /\
     calls st' = calls st /\
     console st' = console st /\
     messages st' =
       appendAll (JSString.toString (now2 + 1)) texts (messages st ++ [userMessageOf now1 st]) ++
       [placeholderOf now2 (List.concat texts)]); [|split; [exact Hgen|]].
  2: { split; [apply conforming_chunks|]. split; [|vm_compute; repeat split; reflexivity].
       intros st now1 now2 chunks Ha Hcr Hcf.
       destruct (conforming_chunks chunks Hcf) as [Hth Hsp].
       destruct (Hgen st now1 now2 (Some chunks) Ha Hcr Hth) as (H1 & _ & _ & _ & H5).
       cbv zeta in *. split; [exact H1|]. rewrite H5, Hsp.
       assert (Hl : List.length
                      (appendAll (JSString.toString (now2 + 1)) (fragments (decodeChunks chunks))
                         (messages st ++ [userMessageOf now1 st])) =
                    (List.length (messages st) + 1)%nat).
       { now rewrite appendAll_length, length_app. }
       split; [rewrite length_app, Hl; simpl; lia|].
       rewrite nth_error_app2 by (rewrite Hl; lia).
       rewrite Hl, Nat.sub_diag. reflexivity. }
  intros st now1 now2 chunks Ha Hcr Hth st' texts.
  assert (Hc : crashed st' = false).
  { subst st'. change (completedExchange (List.length (calls st)) chunks)
      with (exchange (List.length (calls st)) chunks true).
    now rewrite exchange_crashed. }
  split; [exact Hc|]. clear Hc. subst st' texts.
  change (run st (Submit now1 now2 :: completedExchange (List.length (calls st)) chunks))
    with (run (step st (Submit now1 now2)) (completedExchange (List.length (calls st)) chunks)).
  rewrite step_Submit_accepted by exact Ha.
  destruct chunks as [cs|]; unfold completedExchange.
  - unfold streamed.
    change (run ?s (?e :: ?l)) with (run (step s e) l).
    rewrite step_Response_submitted, run_app.
    rewrite (run_reads _ _ (callOf now2 st AwaitRead))
      by (simpl; [apply nth_error_last || reflexivity ..]).
    change (run ?s [?e]) with (step s e).
    destruct (completed_after_reads (submitted now1 now2 AwaitRead st)
                (List.length (calls st)) (callOf now2 st AwaitRead) cs
                (nth_error_last _ _) eq_refl) as (H1 & H2 & H3 & H4).
    rewrite H1, H2, H3, H4. simpl calls. rewrite removeAt_last.
    repeat split. simpl.
    change (messages st ++ [userMessageOf now1 st; placeholderOf now2 []])
      with (messages st ++ [userMessageOf now1 st] ++ [placeholderOf now2 []]).
    rewrite app_assoc, appendAll_app. f_equal.
    apply appendAll_placeholder.
  - change (run ?s [?e]) with (step s e).
    simpl step. unfold resume. simpl calls. rewrite nth_error_last. simpl.
    unfold finallyBlock. simpl. rewrite removeAt_last. repeat split.
    now rewrite <- app_assoc.
Qed.

Lemma C6_completed_exchange_witness :
  let st := @run exampleRuntime initialPage [Change (js "hi")] in
  let chunks := Some [js "data: {'conversation_id':'c1'}\n\ndata: {'content':'Hel'}\n\n";
                      js "data: {'content':'lo'}\n\ndata: [DONE]\n"] in
  let st' := @run exampleRuntime st
               (Submit 1000 1000 :: completedExchange (List.length (calls st)) chunks) in
  let texts := fragments (@decodeChunks exampleRuntime
                 (match chunks with Some cs => cs | None => [] end)) in
  (crashed st' = false /\
   isStreaming st' = false /\
   calls st' = calls st /\
   console st' = console st /\
   messages st' =
     appendAll (JSString.toString (1000 + 1)) texts (messages st ++ [userMessageOf 1000 st]) ++
     [placeholderOf 1000 (List.concat texts)]) /\
  texts = [js "Hel"; js "lo"] /\
  conformingStream (match chunks with Some cs => cs | None => [] end) = true /\
  messages st' =
    [ {| id := js "1000"; role := user; content := js "hi" |};
      {| id := js "1001"; role := assistant; content := js "Hello" |} ].
Proof.
  split; [|vm_compute; repeat split; reflexivity].
  apply (proj1 (@C6_completed_exchange exampleRuntime)); vm_compute; reflexivity.
Defined.

(** ** Payloads that are not JSON (C7, C10) *)

Section Payloads.
Context {R : Runtime}.

Lemma processLine_data c st data :
  processLine c st (js "data: " ++ data) =
  if JSString.eqb data (js "[DONE]") then st
  else match tryBlock c data st with
       | Normal st' => st'
       | Thrown st' => catchBlock c data st'
       end.
Proof. reflexivity. Qed.

Lemma decodeLine_unparsable data :
  JSString.eqb data (js "[DONE]") = false ->
  parseRecord data = None ->
  decodeLine (js "data: " ++ data) = plainText data.
Proof.
  intros Hd Hp.
  change (decodeLine (js "data: " ++ data))
    with (if JSString.eqb data (js "[DONE]") then []
          else match parseRecord data with
               | None => plainText data
               | Some (cid, ct) => recordEvents cid ct
               end).
  now rewrite Hd, Hp.
Qed.

Lemma processLine_unparsable c st data :
  JSString.eqb data (js "[DONE]") = false ->
  parseRecord data = None ->
  processLine c st (js "data: " ++ data) = catchBlock c data st.
Proof.
  intros Hd Hp. rewrite processLine_data, Hd. now rewrite tryBlock_Thrown.
Qed.

Lemma parseRecord_unparsable data : JSON.parse data = None -> parseRecord data = None.
Proof. unfold parseRecord. now intros ->. Qed.

Lemma trimStart_whitespace u v :
  forallb JSString.isWhiteSpace u = true ->
  JSString.trimStart (u ++ v) = JSString.trimStart v.
Proof.
  induction u as [|a u IH]; simpl; [reflexivity|].
  intros H. apply andb_true_iff in H. destruct H as [Ha Hu].
  rewrite Ha. now apply IH.
Qed.

Lemma forallb_rev {A} (f : A -> bool) l : forallb f (rev l) = forallb f l.
Proof.
  induction l as [|a l IH]; [reflexivity|].
  simpl. rewrite forallb_app, IH. simpl. rewrite andb_true_r. apply andb_comm.
Qed.

Lemma trim_DONE_whitespace w :
  forallb JSString.isWhiteSpace w = true ->
  JSString.trim (js "[DONE]" ++ w) = js "[DONE]".
Proof.
  intros H. unfold JSString.trim, JSString.trimEnd.
  change (JSString.trimStart (js "[DONE]" ++ w)) with (js "[DONE]" ++ w).
  rewrite rev_app_distr, trimStart_whitespace by now rewrite forallb_rev.
  reflexivity.
Qed.

(** A text that starts with [[D] is not JSON. *)
Lemma parse_bracket_D rest : JSON.parse (91 :: 68 :: rest) = None.
Proof. reflexivity. Qed.

End Payloads.

(** C7, as stated, fails: a payload that [JSON.parse] accepts and that is
    a number, a string, a boolean or an array cannot be parsed as a
    structured record and is not empty after trimming, but the handler
    does not append it: it finds neither member in the value and leaves
    the page as it is. *)
Lemma C7_payload_that_is_no_record_is_dropped :
  Spec.record (js "42") = None /\
  js "42" <> js "[DONE]" /\
  JSString.trim (js "42") <> [] /\
  Spec.frame (js "42") = Spec.PlainText (js "42") /\
  (forall (R : Runtime) (c : Call) (st : Page),
     decodeLine (js "data: 42") = [] /\
     processLine c st (js "data: 42") = st) /\
  (forall (R : Runtime) (c : Call) (st : Page),
     Spec.frame (js "'text'") = Spec.PlainText (js "'text'") /\
     processLine c st (js "data: 'text'") = st /\
     Spec.frame (js "true") = Spec.PlainText (js "true") /\
     processLine c st (js "data: true") = st /\
     Spec.frame (js "[1,2]") = Spec.PlainText (js "[1,2]") /\
     processLine c st (js "data: [1,2]") = st).
Proof.
  split; [reflexivity|]. split; [discriminate|]. split; [discriminate|].
  split; [reflexivity|]. split; intros R c st; repeat split; reflexivity.
Qed.

Section Unparsable.
Context {R : Runtime}.

Lemma record_unparsable data :
  JSON.parse data = None \/ JSON.parse data = Some JNull -> Spec.record data = None.
Proof. unfold Spec.record. now intros [-> | ->]. Qed.

Lemma parseRecord_rejected data :
  JSON.parse data = None \/ JSON.parse data = Some JNull -> parseRecord data = None.
Proof. unfold parseRecord. now intros [-> | ->]. Qed.

(** A payload that [JSON.parse] reads as a number, a string, a boolean or
    an array has neither member: the [try] block completes and has done
    nothing. *)
Lemma processLine_no_object c st data v :
  JSString.eqb data (js "[DONE]") = false ->
  JSON.parse data = Some v ->
  match v with JNull | JObject _ => False | _ => True end ->
  decodeLine (js "data: " ++ data) = [] /\ processLine c st (js "data: " ++ data) = st.
Proof.
  intros Hd Hp Hv.
  assert (E : decodeLine (js "data: " ++ data) = []).
  { change (decodeLine (js "data: " ++ data))
      with (if JSString.eqb data (js "[DONE]") then []
            else match parseRecord data with
                 | None => plainText data
                 | Some (cid, ct) => recordEvents cid ct
                 end).
    rewrite Hd. unfold parseRecord. rewrite Hp.
    destruct v; try contradiction; reflexivity. }
  split; [exact E|]. now rewrite processLine_decodeLine, E.
Qed.

End Unparsable.

(** C7, amended: a [data: ] line whose payload is not [[DONE]] and is
    rejected by [JSON.parse], or read by it as [null], is no record of the
    specification. When the payload is not empty after trimming, the line
    is one text fragment, the payload as it stands: every message of the
    placeholder's id has it appended to its content, every other message
    is as it was. When the payload is empty after trimming, the line is no
    event and the page stays as it is. Either way nothing else on the page
    changes: nothing is logged, the call goes on reading and no updater
    throws. A payload that [JSON.parse] reads as a number, a string, a
    boolean or an array is no record of the specification either, but it
    is dropped: the line is no event and the page stays as it is. *)
Theorem C7_payload_rejected_by_JSON_parse {R : Runtime} (c : Call) (st : Page)
  (data : jsstring) :
  data <> js "[DONE]" ->
  let line := js "data: " ++ data in
  let st' := processLine c st line in
  (JSON.parse data = None \/ JSON.parse data = Some JNull ->
   Spec.record data = None /\
   (JSString.trim data <> [] ->
    Spec.frame data = Spec.PlainText data /\
    decodeLine line = [TextFragment data] /\
    messages st' =
      map (fun msg =>
             if JSString.eqb (id msg) (assistantId c)
             then {| id := id msg; role := role msg; content := content msg ++ data |}
             else msg) (messages st)) /\
   (JSString.trim data = [] ->
    Spec.frame data = Spec.NoFrame /\ decodeLine line = [] /\ st' = st) /\
   conversationId st' = conversationId st /\
   control st' = control st /\
   crashed st' = crashed st) /\
  (forall v,
     JSON.parse data = Some v ->
     match v with JNull | JObject _ => False | _ => True end ->
     Spec.record data = None /\ decodeLine line = [] /\ st' = st).
Proof.
  intros Hd line st'. subst line st'. apply eqb_neq in Hd. split.
  - intros Hp.
    pose proof (record_unparsable data Hp) as Hr.
    pose proof (parseRecord_rejected data Hp) as Hq.
    rewrite (processLine_unparsable c st data Hd Hq), (decodeLine_unparsable data Hd Hq).
    split; [exact Hr|].
    unfold Spec.frame. rewrite Hd, Hr.
    unfold catchBlock, plainText.
    destruct (JSString.eqb (JSString.trim data) []) eqn:E; simpl.
    + apply eqb_eq in E.
      split; [intros Hne; now contradiction Hne|].
      split; [intros _; now repeat split|]. now repeat split.
    + apply eqb_neq in E.
      split; [intros _; now repeat split|].
      split; [intros He; now contradiction E|]. now repeat split.
  - intros v Hp Hv.
    destruct (processLine_no_object c st data v Hd Hp Hv) as [H1 H2].
    split; [|now split].
    unfold Spec.record. rewrite Hp. destruct v; try contradiction; reflexivity.
Qed.

Lemma C7_payload_rejected_by_JSON_parse_witness :
  let c := {| assistantId := js "1001"; call_conversationId := undefined; point := AwaitRead |} in
  let st := @run exampleRuntime initialPage
              [Change (js "hi"); Submit 1000 1000; Settle 0 (Response true)] in
  let st' := @processLine exampleRuntime c st (js "data: " ++ js "not-json") in
  (Spec.frame (js "not-json") = Spec.PlainText (js "not-json") /\
   @decodeLine exampleRuntime (js "data: " ++ js "not-json") = [TextFragment (js "not-json")] /\
   messages st' =
     map (fun msg =>
            if JSString.eqb (id msg) (assistantId c)
            then {| id := id msg; role := role msg; content := content msg ++ js "not-json" |}
            else msg) (messages st)) /\
  messages st' =
    [ {| id := js "1000"; role := user; content := js "hi" |};
      {| id := js "1001"; role := assistant; content := js "not-json" |} ] /\
  console st' = [] /\
  crashed st' = false.
Proof.
  cbv zeta. split; [|vm_compute; repeat split; reflexivity].
  apply (@C7_payload_rejected_by_JSON_parse exampleRuntime
           {| assistantId := js "1001"; call_conversationId := undefined; point := AwaitRead |}
           (@run exampleRuntime initialPage
              [Change (js "hi"); Submit 1000 1000; Settle 0 (Response true)])
           (js "not-json")).
  - discriminate.
  - left. reflexivity.
  - discriminate.
Defined.

(** C10: the terminator is compared as it stands. A payload [[DONE]]
    followed by white space, such as the [[DONE]] and carriage return of a
    line that ended in CR LF, is not equal to [[DONE]], is rejected by
    [JSON.parse] and is not empty after trimming: it is a plain-text frame,
    and the line is one text fragment, the payload with its white space.
    Every message of the placeholder's id has it appended to its content,
    every other message is as it was, and nothing else on the page
    changes. *)
Theorem C10_DONE_with_trailing_whitespace {R : Runtime} (c : Call) (st : Page)
  (w : jsstring) :
  w <> [] ->
  forallb JSString.isWhiteSpace w = true ->
  let data := js "[DONE]" ++ w in
  let st' := processLine c st (js "data: " ++ data) in
  JSString.eqb data (js "[DONE]") = false /\
  JSON.parse data = None /\
  JSString.trim data = js "[DONE]" /\
  Spec.frame data = Spec.PlainText data /\
  decodeLine (js "data: " ++ data) = [TextFragment data] /\
  messages st' =
    map (fun msg =>
           if JSString.eqb (id msg) (assistantId c)
           then {| id := id msg; role := role msg; content := content msg ++ js "[DONE]" ++ w |}
           else msg) (messages st) /\
  conversationId st' = conversationId st /\
  control st' = control st /\
  crashed st' = crashed st.
Proof.
  intros Hw Hws data st'.
  assert (Hd : JSString.eqb data (js "[DONE]") = false).
  { apply eqb_neq. intros E. apply (f_equal (@List.length N)) in E.
    subst data. rewrite length_app in E. destruct w; [congruence|simpl in E; lia]. }
  assert (Hp : JSON.parse data = None) by apply parse_bracket_D.
  assert (Ht : JSString.trim data = js "[DONE]") by now apply trim_DONE_whitespace.
  split; [exact Hd|]. split; [exact Hp|]. split; [exact Ht|].
  pose proof (parseRecord_unparsable data Hp) as Hr.
  subst st'.
  rewrite (processLine_unparsable c st data Hd Hr), (decodeLine_unparsable data Hd Hr).
  unfold Spec.frame, Spec.record. rewrite Hd, Hp.
  unfold catchBlock, plainText. rewrite Ht. now repeat split.
Qed.

Lemma C10_DONE_with_trailing_whitespace_witness :
  let c := {| assistantId := js "1001"; call_conversationId := undefined; point := AwaitRead |} in
  let st := @run exampleRuntime initialPage
              [Change (js "hi"); Submit 1000 1000; Settle 0 (Response true)] in
  let data := js "[DONE]" ++ js "\r" in
  let st' := @processLine exampleRuntime c st (js "data: " ++ data) in
  (JSString.eqb data (js "[DONE]") = false /\
   JSON.parse data = None /\
   JSString.trim data = js "[DONE]" /\
   Spec.frame data = Spec.PlainText data /\
   @decodeLine exampleRuntime (js "data: " ++ data) = [TextFragment data] /\
   messages st' =
     map (fun msg =>
            if JSString.eqb (id msg) (assistantId c)
            then {| id := id msg; role := role msg; content := content msg ++ js "[DONE]" ++ js "\r" |}
            else msg) (messages st) /\
   conversationId st' = conversationId st /\
   control st' = control st /\
   crashed st' = crashed st) /\
  messages st' =
    [ {| id := js "1000"; role := user; content := js "hi" |};
      {| id := js "1001"; role := assistant; content := js "[DONE]\r" |} ].
Proof.
  cbv zeta. split; [|vm_compute; reflexivity].
  apply (@C10_DONE_with_trailing_whitespace exampleRuntime).
  - vm_compute. discriminate.
  - vm_compute. reflexivity.
Defined.

(** ** The updater (C8) *)

Section Updater.
Context {R : Runtime}.

Lemma appendContent_absent a text prev :
  (forall m, In m prev -> id m <> a) -> appendContent a text prev = prev.
Proof.
  intros H. unfold appendContent.
  rewrite <- (map_id prev) at 2. apply map_ext_in.
  intros m Hm. apply H, eqb_neq in Hm. now rewrite Hm.
Qed.

Lemma appendAll_absent a texts prev :
  (forall m, In m prev -> id m <> a) -> appendAll a texts prev = prev.
Proof.
  intros H. induction texts as [|t texts IH]; [reflexivity|].
  unfold appendAll in *. simpl. now rewrite appendContent_absent.
Qed.

End Updater.



Lemma C8_orphaned_stream_example :
  let c := {| assistantId := js "1001"; call_conversationId := undefined; point := AwaitRead |} in
  let loadedMessages :=
    [ {| id := js "m1"; role := user; content := js "earlier" |};
      {| id := js "m2"; role := assistant; content := js "answer" |} ] in
  messages
    (@run exampleRuntime initialPage
       [Change (js "hi"); Submit 1000 1000; Settle 0 (Response true);
        Settle 0 (ReadValue (js "data: {'content':'Hel'}\n"));
        Loaded (js "c7") loadedMessages;
        Settle 0 (ReadValue (js "data: {'content':'lo'}\n"));
        Settle 0 ReadDone]) = loadedMessages.
Proof. vm_compute. reflexivity. Qed.

(** ** The transcript over a session (C9) *)

Section Transcript.
Context {R : Runtime}.

Lemma identity_appendContent a t l :
  map identity (appendContent a t l) = map identity l.
Proof.
  unfold appendContent. rewrite map_map. apply map_ext.
  intros m. now destruct (JSString.eqb (id m) a).
Qed.

Lemma identity_replaceContent a t l :
  map identity (replaceContent a t l) = map identity l.
Proof.
  unfold replaceContent. rewrite map_map. apply map_ext.
  intros m. now destruct (JSString.eqb (id m) a).
Qed.

Lemma identity_appendAll a texts l :
  map identity (appendAll a texts l) = map identity l.
Proof.
  revert l. induction texts as [|t texts IH]; intros l; [reflexivity|].
  unfold appendAll in *. simpl. now rewrite IH, identity_appendContent.
Qed.

Lemma identity_processChunk c st chunk :
  map identity (messages (processChunk c st chunk)) = map identity (messages st).
Proof.
  rewrite processChunk_decodeChunk, messages_applyEvents. apply identity_appendAll.
Qed.

Lemma identity_step st ev :
  keepsTranscript ev = true ->
  map identity (messages (step st ev)) = map identity (messages st) ++ added st ev.
Proof.
  intros Hk. destruct ev as [v|n1 n2|i s| |cid ms|]; try discriminate;
    try (simpl; now rewrite app_nil_r).
  - unfold added. destruct (accepted st (Submit n1 n2)) eqn:Ha.
    + rewrite step_Submit_accepted by exact Ha. simpl. now rewrite map_app.
    + simpl in Ha |- *. unfold handleSubmit.
      apply negb_false_iff in Ha. rewrite Ha. now rewrite app_nil_r.
  - simpl. rewrite app_nil_r. unfold resume.
    destruct (nth_error (calls st) i) as [c|]; [|reflexivity].
    destruct (point c), s as [|[|]|chunk|]; simpl; try reflexivity;
      try apply identity_replaceContent.
    apply identity_processChunk.
Qed.

Lemma identity_run st evs :
  forallb keepsTranscript evs = true ->
  map identity (messages (run st evs)) = map identity (messages st) ++ addedAll st evs.
Proof.
  revert st. induction evs as [|ev evs IH]; intros st H.
  - simpl. now rewrite app_nil_r.
  - simpl in H. apply andb_true_iff in H. destruct H as [Hev Hevs].
    change (run st (ev :: evs)) with (run (step st ev) evs).
    rewrite IH by exact Hevs. rewrite identity_step by exact Hev.
    simpl. now rewrite app_assoc.
Qed.

Lemma addedAll_roles st evs :
  map snd (addedAll st evs) =
  List.concat (repeat [user; assistant] (acceptedCount st evs)).
Proof.
  revert st. induction evs as [|ev evs IH]; intros st; [reflexivity|].
  simpl. rewrite map_app, IH.
  destruct ev as [v|n1 n2|i s| |cid ms|]; try reflexivity.
  unfold added. destruct (accepted st (Submit n1 n2)); reflexivity.
Qed.

Lemma length_pairs {A} (a b : A) n :
  List.length (List.concat (repeat [a; b] n)) = (2 * n)%nat.
Proof.
  induction n as [|k IH]; [reflexivity|].
  simpl in *. rewrite IH. lia.
Qed.

End Transcript.

(** C9: over any events that leave the transcript to the handler (no
    loaded conversation replaces it) and in which every content that
    arrives has a string conversion, no updater throws and the transcript
    grows by two messages for every accepted submission, a user message
    followed by an assistant message; starting from an empty transcript,
    as on the initial page, it holds exactly twice as many messages as
    submissions were accepted. At every point of the run the page is on
    the screen and the ids and roles of the messages present then are
    those of the same positions at the end. *)
Theorem C9_transcript_of_accepted_submissions {R : Runtime} (st0 : Page)
  (evs : list Event) :
  forallb keepsTranscript evs = true ->
  crashed st0 = false ->
  forallb converts evs = true ->
  let st := run st0 evs in
  let n := acceptedCount st0 evs in
  crashed st = false /\
  transcript st = Some (messages st) /\
  List.length (messages st) = (List.length (messages st0) + 2 * n)%nat /\
  map role (messages st) =
    map role (messages st0) ++ List.concat (repeat [user; assistant] n) /\
  (messages st0 = [] ->
   List.length (messages st) = (2 * n)%nat /\
   map role (messages st) = List.concat (repeat [user; assistant] n)) /\
  (forall evs1 evs2,
     evs = evs1 ++ evs2 ->
     crashed (run st0 evs1) = false /\
     exists later,
       map identity (messages st) =
       map identity (messages (run st0 evs1)) ++ later).
Proof.
  intros H Hcr Hcv st n. subst st n.
  assert (Hc : crashed (run st0 evs) = false) by now rewrite run_crashed.
  split; [exact Hc|]. split; [unfold transcript; now rewrite Hc|].
  assert (Hr : map role (messages (run st0 evs)) =
               map role (messages st0) ++
               List.concat (repeat [user; assistant] (acceptedCount st0 evs))).
  { rewrite <- addedAll_roles.
    pose proof (identity_run st0 evs H) as Hi.
    apply (f_equal (map snd)) in Hi. rewrite map_app, !map_map in Hi. exact Hi. }
  assert (Hl : List.length (messages (run st0 evs)) =
               (List.length (messages st0) + 2 * acceptedCount st0 evs)%nat).
  { rewrite <- (length_map role), Hr, length_app, length_map. now rewrite length_pairs. }
  split; [exact Hl|]. split; [exact Hr|]. split.
  - intros E. rewrite Hl, Hr, E. now split.
  - intros evs1 evs2 ->.
    rewrite forallb_app in H. apply andb_true_iff in H. destruct H as [_ H2].
    rewrite forallb_app in Hcv. apply andb_true_iff in Hcv. destruct Hcv as [Hcv1 _].
    split; [now rewrite run_crashed|].
    rewrite run_app. eexists. apply identity_run, H2.
Qed.

Lemma C9_transcript_of_accepted_submissions_witness :
  let evs := [Change (js "one"); Submit 1000 1000; Submit 1001 1001;
              Settle 0 (Response true);
              Settle 0 (ReadValue (js "data: {'content':'1'}\n")); Settle 0 ReadDone;
              Submit 2000 2000;
              Change (js "two"); Submit 3000 3001; Settle 0 Rejected] in
  let st := @run exampleRuntime initialPage evs in
  let n := @acceptedCount exampleRuntime initialPage evs in
  (crashed st = false /\
   transcript st = Some (messages st) /\
   List.length (messages st) = (List.length (messages initialPage) + 2 * n)%nat) /\
  n = 2%nat /\
  map identity (messages st) =
    [(js "1000", user); (js "1001", assistant); (js "3000", user); (js "3002", assistant)].
Proof.
  cbv zeta. split; [|vm_compute; split; reflexivity].
  pose proof (@C9_transcript_of_accepted_submissions exampleRuntime initialPage
                [Change (js "one"); Submit 1000 1000; Submit 1001 1001;
                 Settle 0 (Response true);
                 Settle 0 (ReadValue (js "data: {'content':'1'}\n")); Settle 0 ReadDone;
                 Submit 2000 2000;
                 Change (js "two"); Submit 3000 3001; Settle 0 Rejected]
                eq_refl eq_refl eq_refl) as (H1 & H2 & H3 & _).
  exact (conj H1 (conj H2 H3)).
Defined.

(** * Further properties of the chat page *)

(** ** Trimming *)

Lemma trimStart_suffix s : exists w, s = w ++ JSString.trimStart s.
Proof.
  induction s as [|c r [w IH]]; [now exists []|].
  simpl. destruct (JSString.isWhiteSpace c).
  - exists (c :: w). simpl. now rewrite <- IH.
  - now exists [].
Qed.

Lemma trimStart_clean s : startsClean (JSString.trimStart s).
Proof.
  induction s as [|c r IH]; [exact I|].
  simpl. destruct (JSString.isWhiteSpace c) eqn:E; [exact IH|exact E].
Qed.

Lemma trimStart_id s : startsClean s -> JSString.trimStart s = s.
Proof. destruct s as [|c r]; simpl; [reflexivity|]. now intros ->. Qed.

(** A trimmed string starts and ends clean, so trimming it again changes
    nothing. *)
Lemma trim_idempotent s : JSString.trim (JSString.trim s) = JSString.trim s.
Proof.
  unfold JSString.trim at 2. unfold JSString.trimEnd.
  set (a := JSString.trimStart s).
  set (b := JSString.trimStart (rev a)).
  assert (Hb : startsClean b) by apply trimStart_clean.
  assert (Ht : startsClean (rev b)).
  { destruct (trimStart_suffix (rev a)) as [w Hw]. fold b in Hw.
    apply (f_equal (@rev N)) in Hw. rewrite rev_involutive, rev_app_distr in Hw.
    pose proof (trimStart_clean s) as Ha. fold a in Ha. rewrite Hw in Ha.
    destruct (rev b); [exact I|exact Ha]. }
  unfold JSString.trim, JSString.trimEnd.
  rewrite (trimStart_id (rev b) Ht), rev_involutive.
  now rewrite (trimStart_id b Hb).
Qed.

(** ** Requests *)

Section Requests.
Context {R : Runtime}.

Lemma requests_step st ev : requests (step st ev) = requests st ++ sent st ev.
Proof.
  unfold sent. destruct ev as [v|n1 n2|i s| |cid ms|];
    try (simpl; now rewrite app_nil_r).
  - destruct (accepted st (Submit n1 n2)) eqn:Ha.
    + now rewrite step_Submit_accepted.
    + simpl in Ha |- *. unfold handleSubmit.
      apply negb_false_iff in Ha. rewrite Ha. now rewrite app_nil_r.
  - simpl. rewrite app_nil_r. unfold resume.
    destruct (nth_error (calls st) i) as [c|]; [|reflexivity].
    destruct (point c), s as [|[|]|chunk|]; try reflexivity.
    pose proof (processChunk_control c st chunk) as H. unfold control in H. congruence.
Qed.

Lemma requests_run st evs : requests (run st evs) = requests st ++ sentAll st evs.
Proof.
  revert st. induction evs as [|ev evs IH]; intros st.
  - simpl. now rewrite app_nil_r.
  - change (run st (ev :: evs)) with (run (step st ev) evs).
    rewrite IH, requests_step. simpl. now rewrite app_assoc.
Qed.

Lemma sentAll_length st evs : List.length (sentAll st evs) = acceptedCount st evs.
Proof.
  revert st. induction evs as [|ev evs IH]; intros st; [reflexivity|].
  simpl. rewrite length_app, IH. unfold sent.
  now destruct (accepted st ev).
Qed.

Lemma sentAll_trimmed st evs :
  Forall (fun r => message r <> [] /\ JSString.trim (message r) = message r)
    (sentAll st evs).
Proof.
  revert st. induction evs as [|ev evs IH]; intros st; [constructor|].
  simpl. apply Forall_app. split; [|apply IH].
  unfold sent. destruct (accepted st ev) eqn:Ha; [|constructor].
  constructor; [|constructor]. simpl. split; [|apply trim_idempotent].
  destruct ev; try discriminate. simpl in Ha.
  apply negb_true_iff, orb_false_iff in Ha. destruct Ha as [Ha _].
  now apply eqb_neq in Ha.
Qed.

End Requests.

(** X1: whatever happens to the page (typing, submissions, settlements of
    the stream, loads), it issues exactly one request for each accepted
    submission and no other; each request carries the input as trimmed at
    the time, which is never empty, and the conversation id the page had
    at the time. *)
Theorem X1_one_request_per_accepted_submission {R : Runtime} (st : Page)
  (evs : list Event) :
  requests (run st evs) = requests st ++ sentAll st evs /\
  List.length (sentAll st evs) = acceptedCount st evs /\
  Forall (fun r => message r <> [] /\ JSString.trim (message r) = message r)
    (sentAll st evs).
Proof.
  split; [apply requests_run|]. split; [apply sentAll_length|apply sentAll_trimmed].
Qed.

(** ** What a chunk can do *)

Section Chunks.
Context {R : Runtime}.

Lemma appendAll_collapse a texts l :
  appendAll a texts l = appendContent a (List.concat texts) l.
Proof.
  revert l. induction texts as [|t texts IH]; intros l.
  - simpl. unfold appendContent. rewrite <- (map_id l) at 1. apply map_ext.
    intros m. destruct (JSString.eqb (id m) a); [|reflexivity].
    rewrite app_nil_r. now destruct m.
  - change (appendAll a (t :: texts) l) with (appendAll a texts (appendContent a t l)).
    rewrite IH. unfold appendContent. rewrite map_map. apply map_ext.
    intros m. destruct (JSString.eqb (id m) a) eqn:E; simpl; rewrite E; [|reflexivity].
    now rewrite <- app_assoc.
Qed.

Lemma extends_refl l : Forall2 extends l l.
Proof.
  induction l as [|m l IH]; constructor; [|exact IH].
  repeat split. exists []. now rewrite app_nil_r.
Qed.

Lemma appendContent_extends a t l : Forall2 extends l (appendContent a t l).
Proof.
  induction l as [|m l IH]; simpl; constructor; [|exact IH].
  destruct (JSString.eqb (id m) a); repeat split; simpl.
  - now exists t.
  - exists []. now rewrite app_nil_r.
Qed.

Lemma conversationIds_truthy_line line :
  Forall (fun v => ToBoolean v = true) (conversationIds (decodeLine line)).
Proof.
  unfold decodeLine.
  destruct (JSString.startsWith line (js "data: ")); [|constructor].
  cbv zeta. destruct (JSString.eqb (JSString.slice 6 line) (js "[DONE]")); [constructor|].
  destruct (parseRecord (JSString.slice 6 line)) as [[cid ct]|].
  - unfold recordEvents, conversationIds. rewrite flat_map_app.
    apply Forall_app. split.
    + destruct (ToBoolean cid) eqn:E; simpl; [|constructor].
      constructor; [exact E|constructor].
    + destruct ct as [v|]; [|constructor].
      destruct (ToBoolean (Some v)); [|constructor].
      destruct (ToString v); simpl; constructor.
  - unfold plainText.
    destruct (negb (JSString.eqb (JSString.trim (JSString.slice 6 line)) []));
      constructor.
Qed.

Lemma conversationIds_truthy chunk :
  Forall (fun v => ToBoolean v = true) (conversationIds (decodeChunk chunk)).
Proof.
  unfold decodeChunk. induction (JSString.split 10 chunk) as [|line ls IH]; [constructor|].
  simpl. unfold conversationIds in *. rewrite flat_map_app.
  apply Forall_app. split; [apply conversationIds_truthy_line|exact IH].
Qed.

Lemma last_in {A} (x : A) l d : In (last (x :: l) d) (x :: l).
Proof.
  revert x. induction l as [|y l IH]; intros x; [now left|].
  right. apply IH.
Qed.

Lemma last_in_or_default {A} (l : list A) d : last l d = d \/ In (last l d) l.
Proof. destruct l as [|x l]; [now left|right; apply last_in]. Qed.

End Chunks.

(** X2: when a chunk arrives in which every content has a string
    conversion, whether or not a call is reading, no updater throws and
    the page keeps its input, its flags, its requests, its log and its
    running calls; every message stays in its place with its id and role
    and a content that starts with the old one; and the conversation id is
    the old one or a truthy value. *)
Theorem X2_chunk_only_extends {R : Runtime} (st : Page) (i : nat) (chunk : jsstring) :
  throws (decodeChunk chunk) = false ->
  let st' := step st (Settle i (ReadValue chunk)) in
  crashed st' = crashed st /\
  control st' = control st /\
  Forall2 extends (messages st) (messages st') /\
  (conversationId st' = conversationId st \/ ToBoolean (conversationId st') = true).
Proof.
  intros Hth. simpl. unfold resume.
  assert (Hsame : crashed st = crashed st /\
                  control st = control st /\
                  Forall2 extends (messages st) (messages st) /\
                  (conversationId st = conversationId st \/
                   ToBoolean (conversationId st) = true)).
  { split; [reflexivity|]. split; [reflexivity|]. split; [apply extends_refl|now left]. }
  destruct (nth_error (calls st) i) as [c|]; [|exact Hsame].
  destruct (point c); [exact Hsame|].
  split; [now apply processChunk_crashed|].
  split; [apply processChunk_control|]. split.
  - rewrite processChunk_decodeChunk, messages_applyEvents, appendAll_collapse.
    apply appendContent_extends.
  - rewrite processChunk_decodeChunk, conversationId_applyEvents.
    destruct (ToBoolean (call_conversationId c)); [now left|].
    destruct (last_in_or_default (conversationIds (decodeChunk chunk)) (conversationId st))
      as [E|Hin]; [now left|right].
    pose proof (conversationIds_truthy chunk) as Ht.
    rewrite Forall_forall in Ht. now apply Ht.
Qed.

Lemma X2_chunk_only_extends_witness :
  let st := @run exampleRuntime initialPage
              [Change (js "hi"); Submit 1000 1000; Settle 0 (Response true);
               Settle 0 (ReadValue (js "data: {'content':'Hel'}\n"))] in
  let chunk := js "data: {'conversation_id':'c1','content':'lo'}\n: ping\ndata: 7\n" in
  let st' := @step exampleRuntime st (Settle 0 (ReadValue chunk)) in
  (crashed st' = crashed st /\
   control st' = control st /\
   Forall2 extends (messages st) (messages st') /\
   (conversationId st' = conversationId st \/
    @ToBoolean exampleRuntime (conversationId st') = true)) /\
  map content (messages st) = [js "hi"; js "Hel"] /\
  map content (messages st') = [js "hi"; js "Hello"].
Proof.
  cbv zeta. split; [|vm_compute; split; reflexivity].
  apply (@X2_chunk_only_extends exampleRuntime). vm_compute. reflexivity.
Defined.

(** ** The conversation id over an exchange *)

Section BoundId.
Context {R : Runtime}.

Lemma run_exchange st now1 now2 chunks completes :
  accepted st (Submit now1 now2) = true ->
  run st (Submit now1 now2 :: exchange (List.length (calls st)) chunks completes) =
  match chunks with
  | Some cs =>
      step (fold_left (processChunk (callOf now2 st AwaitRead)) cs
              (submitted now1 now2 AwaitRead st))
        (Settle (List.length (calls st)) (if completes then ReadDone else Rejected))
  | None =>
      step (submitted now1 now2 AwaitResponse st)
        (Settle (List.length (calls st))
           (if completes then Response false else Rejected))
  end.
Proof.
  intros Ha.
  change (run st (Submit now1 now2 :: ?l)) with (run (step st (Submit now1 now2)) l).
  rewrite step_Submit_accepted by exact Ha.
  unfold exchange, completedExchange, failedExchange, streamed.
  destruct chunks as [cs|].
  - assert (H : forall last,
               run (submitted now1 now2 AwaitResponse st)
                 (Settle (List.length (calls st)) (Response true)
                    :: reads (List.length (calls st)) cs ++
                       [Settle (List.length (calls st)) last]) =
               step (fold_left (processChunk (callOf now2 st AwaitRead)) cs
                       (submitted now1 now2 AwaitRead st))
                 (Settle (List.length (calls st)) last)).
    { intros last.
      change (run ?s (?e :: ?l)) with (run (step s e) l).
      rewrite step_Response_submitted, run_app.
      now rewrite (run_reads _ _ (callOf now2 st AwaitRead))
        by (simpl; [apply nth_error_last || reflexivity ..]). }
    destruct completes; apply H.
  - now destruct completes.
Qed.

Lemma step_end st i c s :
  nth_error (calls st) i = Some c ->
  ends c s ->
  let st' := step st (Settle i s) in
  isStreaming st' = false /\
  calls st' = removeAt i (calls st) /\
  input st' = input st /\
  requests st' = requests st /\
  conversationId st' = conversationId st.
Proof.
  intros Hc He. simpl. unfold resume. rewrite Hc.
  destruct He as [->|[[Hp ->]|[Hp ->]]]; rewrite ?Hp.
  - destruct (point c); now repeat split.
  - now repeat split.
  - now repeat split.
Qed.

Lemma exchange_end st now1 now2 chunks completes :
  accepted st (Submit now1 now2) = true ->
  let st' := run st (Submit now1 now2 :: exchange (List.length (calls st)) chunks completes) in
  let es := decodeChunks (match chunks with Some cs => cs | None => [] end) in
  isStreaming st' = false /\
  calls st' = calls st /\
  input st' = [] /\
  requests st' =
    requests st ++ [{| message := JSString.trim (input st);
                       request_conversationId := conversationId st |}] /\
  conversationId st' =
    if ToBoolean (conversationId st) then conversationId st
    else last (conversationIds es) (conversationId st).
Proof.
  intros Ha. cbv zeta. rewrite run_exchange by exact Ha.
  destruct chunks as [cs|].
  - set (c := callOf now2 st AwaitRead).
    set (X := fold_left (processChunk c) cs (submitted now1 now2 AwaitRead st)).
    pose proof (processChunks_control c cs (submitted now1 now2 AwaitRead st)) as Hk.
    fold X in Hk. unfold control in Hk. injection Hk as Hin _ _ Hreq _ Hcalls.
    assert (Hc : nth_error (calls X) (List.length (calls st)) = Some c)
      by (rewrite Hcalls; apply nth_error_last).
    assert (He : ends c (if completes then ReadDone else Rejected)).
    { destruct completes; [right; left; now split|now left]. }
    destruct (step_end X _ c _ Hc He) as (H1 & H2 & H3 & H4 & H5).
    rewrite H1, H2, H3, H4, H5, Hin, Hreq, Hcalls. simpl calls.
    rewrite removeAt_last. repeat split.
    unfold X. rewrite processChunks_decodeChunks, conversationId_applyEvents.
    reflexivity.
  - set (c := callOf now2 st AwaitResponse).
    assert (Hc : nth_error (calls (submitted now1 now2 AwaitResponse st))
                   (List.length (calls st)) = Some c) by apply nth_error_last.
    assert (He : ends c (if completes then Response false else Rejected)).
    { destruct completes; [right; right; now split|now left]. }
    destruct (step_end _ _ c _ Hc He) as (H1 & H2 & H3 & H4 & H5).
    rewrite H1, H2, H3, H4, H5. simpl calls. rewrite removeAt_last.
    repeat split. simpl. now destruct (ToBoolean (conversationId st)).
Qed.

End BoundId.

Section BoundIdTheorems.
Context {R : Runtime}.

Lemma conversationIds_truthy_chunks chunks :
  Forall (fun v => ToBoolean v = true) (conversationIds (decodeChunks chunks)).
Proof.
  unfold decodeChunks. induction chunks as [|chunk cs IH]; [constructor|].
  simpl. unfold conversationIds in *. rewrite flat_map_app.
  apply Forall_app. split; [apply conversationIds_truthy|exact IH].
Qed.

Lemma next_request st text now1 now2 :
  isStreaming st = false ->
  JSString.trim text <> [] ->
  requests (run st [Change text; Submit now1 now2]) =
  requests st ++ [{| message := JSString.trim text;
                     request_conversationId := conversationId st |}].
Proof.
  intros Hs Ht.
  change (run st [Change text; Submit now1 now2])
    with (step (setInput text st) (Submit now1 now2)).
  rewrite step_Submit_accepted; [reflexivity|].
  simpl. rewrite Hs. apply eqb_neq in Ht. now rewrite Ht.
Qed.

End BoundIdTheorems.

(** X3: when the page already has a conversation id (a truthy one) at an
    accepted submission, the request carries it, and no stream, whatever
    frames it brings and however the exchange ends, binds another: the
    page has the same id after the exchange. *)
Theorem X3_bound_conversation_id_is_kept {R : Runtime} (st : Page) (now1 now2 : N)
  (chunks : option (list jsstring)) (completes : bool) :
  accepted st (Submit now1 now2) = true ->
  ToBoolean (conversationId st) = true ->
  let st' := run st (Submit now1 now2 :: exchange (List.length (calls st)) chunks completes) in
  conversationId st' = conversationId st /\
  requests st' =
    requests st ++ [{| message := JSString.trim (input st);
                       request_conversationId := conversationId st |}].
Proof.
  intros Ha Hb.
  destruct (exchange_end st now1 now2 chunks completes Ha) as (_ & _ & _ & Hr & Hc).
  cbv zeta. rewrite Hr, Hc, Hb. now split.
Qed.

Lemma X3_bound_conversation_id_is_kept_witness :
  let st := @loaded (js "c7") [] initialPage in
  let st1 := @run exampleRuntime st [Change (js "hi")] in
  let chunks := Some [js "data: {'conversation_id':'c8','content':'x'}\n"] in
  let st' := @run exampleRuntime st1
               (Submit 1000 1000 :: exchange (List.length (calls st1)) chunks true) in
  (conversationId st' = conversationId st1 /\
   requests st' =
     requests st1 ++ [{| message := JSString.trim (input st1);
                         request_conversationId := conversationId st1 |}]) /\
  conversationId st' = Some (JString (js "c7")).
Proof.
  cbv zeta. split.
  - apply (@X3_bound_conversation_id_is_kept exampleRuntime); reflexivity.
  - vm_compute. reflexivity.
Defined.

(** X4: when the page has no conversation id at an accepted submission and
    every conversation-id frame of the stream carries the same value, as
    when the server sends it once, the page holds that value after the
    exchange, however it ends, and the next accepted submission sends
    it. *)
Theorem X4_conversation_id_of_the_stream_is_sent_next {R : Runtime} (st : Page)
  (now1 now2 : N) (chunks : list jsstring) (completes : bool) (v : jsvalue) :
  accepted st (Submit now1 now2) = true ->
  ToBoolean (conversationId st) = false ->
  In v (conversationIds (decodeChunks chunks)) ->
  (forall v', In v' (conversationIds (decodeChunks chunks)) -> v' = v) ->
  let st' := run st (Submit now1 now2 ::
                       exchange (List.length (calls st)) (Some chunks) completes) in
  conversationId st' = v /\
  ToBoolean v = true /\
  forall text now3 now4,
    JSString.trim text <> [] ->
    requests (run st' [Change text; Submit now3 now4]) =
    requests st' ++ [{| message := JSString.trim text; request_conversationId := v |}].
Proof.
  intros Ha Hb Hin Hall.
  destruct (exchange_end st now1 now2 (Some chunks) completes Ha)
    as (Hs & _ & _ & _ & Hc).
  cbv zeta in *. rewrite Hb in Hc.
  assert (Hv : conversationId
                 (run st (Submit now1 now2 ::
                            exchange (List.length (calls st)) (Some chunks) completes)) = v).
  { rewrite Hc.
    destruct (conversationIds (decodeChunks chunks)) as [|x l] eqn:E; [contradiction|].
    apply Hall, last_in. }
  split; [exact Hv|]. split.
  - pose proof (conversationIds_truthy_chunks chunks) as Ht.
    rewrite Forall_forall in Ht. now apply Ht.
  - intros text now3 now4 Ht. now rewrite (next_request _ text now3 now4 Hs Ht), Hv.
Qed.

Lemma X4_conversation_id_of_the_stream_is_sent_next_witness :
  let st := @run exampleRuntime initialPage [Change (js "hi")] in
  let chunks := [js "data: {'conversation_id':'c1'}\n\ndata: {'content':'Hel'}\n\n";
                 js "data: {'content':'lo'}\n\ndata: [DONE]\n"] in
  let v := Some (JString (js "c1")) in
  let st' := @run exampleRuntime st
               (Submit 1000 1000 :: exchange (List.length (calls st)) (Some chunks) true) in
  conversationId st' = v /\
  @ToBoolean exampleRuntime v = true /\
  forall text now3 now4,
    JSString.trim text <> [] ->
    requests (@run exampleRuntime st' [Change text; Submit now3 now4]) =
    requests st' ++ [{| message := JSString.trim text; request_conversationId := v |}].
Proof.
  cbv zeta.
  apply (@X4_conversation_id_of_the_stream_is_sent_next exampleRuntime).
  - reflexivity.
  - reflexivity.
  - vm_compute. now left.
  - vm_compute. intros v' [<-|[]]. reflexivity.
Defined.

(** ** The failure of an orphaned stream *)

Lemma replaceContent_absent a text prev :
  (forall m, In m prev -> id m <> a) -> replaceContent a text prev = prev.
Proof.
  intros H. unfold replaceContent.
  rewrite <- (map_id prev) at 2. apply map_ext_in.
  intros m Hm. apply H, eqb_neq in Hm. now rewrite Hm.
Qed.

(** X5: when the promise of a running call rejects and no message of the
    transcript has the call's placeholder id, as after a conversation was
    loaded over it, the error text is written nowhere: the transcript and
    the conversation id stay as they are, the failure is logged, the call
    ends and [isStreaming] is reset. *)
Theorem X5_failure_of_orphaned_stream {R : Runtime} (st : Page) (i : nat) (c : Call) :
  nth_error (calls st) i = Some c ->
  (forall m, In m (messages st) -> id m <> assistantId c) ->
  let st' := step st (Settle i Rejected) in
  messages st' = messages st /\
  conversationId st' = conversationId st /\
  console st' = console st ++ [js "Stream error:"] /\
  isStreaming st' = false /\
  calls st' = removeAt i (calls st).
Proof.
  intros Hc Habs. cbv zeta. rewrite (step_Rejected st i c Hc).
  unfold finallyBlock, catchError. simpl.
  rewrite (replaceContent_absent _ _ _ Habs). now repeat split.
Qed.

Lemma X5_failure_of_orphaned_stream_witness :
  let loadedMessages :=
    [ {| id := js "m1"; role := user; content := js "earlier" |};
      {| id := js "m2"; role := assistant; content := js "answer" |} ] in
  let st := @run exampleRuntime initialPage
              [Change (js "hi"); Submit 1000 1000; Settle 0 (Response true);
               Settle 0 (ReadValue (js "data: {'content':'Hel'}\n"));
               Loaded (js "c7") loadedMessages] in
  let c := {| assistantId := js "1001"; call_conversationId := undefined;
              point := AwaitRead |} in
  let st' := @step exampleRuntime st (Settle 0 Rejected) in
  messages st' = messages st /\
  conversationId st' = conversationId st /\
  console st' = console st ++ [js "Stream error:"] /\
  isStreaming st' = false /\
  calls st' = removeAt 0 (calls st).
Proof.
  cbv zeta.
  apply (@X5_failure_of_orphaned_stream exampleRuntime _ 0
           {| assistantId := js "1001"; call_conversationId := undefined;
              point := AwaitRead |}).
  - vm_compute. reflexivity.
  - intros m Hm. vm_compute in Hm.
    destruct Hm as [<-|[<-|[]]]; vm_compute; discriminate.
Defined.

(** ** The send button and the Enter key *)

(** X6: the send button is disabled exactly on the pages where
    [handleSubmit] rejects. Where it is disabled, neither a submission nor
    any key changes the page; where it is enabled, a submission does
    change the page, Enter without Shift is that submission, and Enter
    with Shift is not. *)
Theorem X6_send_button_and_guard_agree {R : Runtime} (st : Page) (now1 now2 : N) :
  sendDisabled st = negb (accepted st (Submit now1 now2)) /\
  (sendDisabled st = true ->
   step st (Submit now1 now2) = st /\
   forall key shiftKey, onKeyDown key shiftKey now1 now2 st = st) /\
  (sendDisabled st = false ->
   step st (Submit now1 now2) <> st /\
   onKeyDown (js "Enter") false now1 now2 st = step st (Submit now1 now2) /\
   onKeyDown (js "Enter") true now1 now2 st = st).
Proof.
  assert (E : sendDisabled st = negb (accepted st (Submit now1 now2))).
  { unfold sendDisabled. simpl. rewrite negb_involutive. apply orb_comm. }
  split; [exact E|]. split.
  - intros Hd. rewrite Hd in E. symmetry in E. apply negb_true_iff in E.
    assert (Hs : step st (Submit now1 now2) = st).
    { simpl in E |- *. unfold handleSubmit. apply negb_false_iff in E. now rewrite E. }
    split; [exact Hs|]. intros key shiftKey. unfold onKeyDown.
    destruct (JSString.eqb key (js "Enter") && negb shiftKey); [exact Hs|reflexivity].
  - intros Hd. rewrite Hd in E. symmetry in E. apply negb_false_iff in E.
    split; [|split; reflexivity].
    rewrite (step_Submit_accepted st now1 now2 E). intros H.
    apply (f_equal (fun p => List.length (messages p))) in H.
    simpl in H. rewrite length_app in H. simpl in H. lia.
Qed.

Lemma X6_send_button_and_guard_agree_witness :
  let busy := @run exampleRuntime initialPage
                [Change (js "first"); Submit 1000 1000; Change (js "second")] in
  let ready := @run exampleRuntime initialPage [Change (js "first")] in
  (@step exampleRuntime busy (Submit 2000 2000) = busy /\
   forall key shiftKey, onKeyDown key shiftKey 2000 2000 busy = busy) /\
  (@step exampleRuntime ready (Submit 2000 2000) <> ready /\
   onKeyDown (js "Enter") false 2000 2000 ready =
     @step exampleRuntime ready (Submit 2000 2000) /\
   onKeyDown (js "Enter") true 2000 2000 ready = ready).
Proof.
  cbv zeta. split.
  - apply (@X6_send_button_and_guard_agree exampleRuntime). reflexivity.
  - apply (@X6_send_button_and_guard_agree exampleRuntime). reflexivity.
Defined.

(** ** What the transcript shows after an exchange *)

Section Showing.
Context {R : Runtime}.


Lemma completed_messages st now1 now2 chunks :
  accepted st (Submit now1 now2) = true ->
  let texts := fragments (decodeChunks (match chunks with Some cs => cs | None => [] end)) in
  messages (run st (Submit now1 now2 :: completedExchange (List.length (calls st)) chunks)) =
  appendAll (JSString.toString (now2 + 1)) texts (messages st ++ [userMessageOf now1 st]) ++
  [placeholderOf now2 (List.concat texts)].
Proof.
  intros Ha. cbv zeta.
  change (completedExchange (List.length (calls st)) chunks)
    with (exchange (List.length (calls st)) chunks true).
  rewrite run_exchange by exact Ha.
  destruct chunks as [cs|].
  - destruct (completed_after_reads (submitted now1 now2 AwaitRead st)
                (List.length (calls st)) (callOf now2 st AwaitRead) cs
                (nth_error_last _ _) eq_refl) as (_ & _ & _ & H4).
    rewrite H4. simpl.
    change (messages st ++ [userMessageOf now1 st; placeholderOf now2 []])
      with (messages st ++ [userMessageOf now1 st] ++ [placeholderOf now2 []]).
    rewrite app_assoc, appendAll_app. f_equal. apply appendAll_placeholder.
  - simpl. unfold resume. simpl. rewrite nth_error_last. simpl.
    now rewrite <- app_assoc.
Qed.

End Showing.



(** ** White space after a structured payload *)

Section TrailingWhiteSpace.

Lemma wsHead_of_all w : forallb isJSONWhiteSpace w = true -> wsHead w.
Proof. destruct w; simpl; [trivial|]. intros H. now apply andb_true_iff in H. Qed.

Lemma ws_cases c :
  isJSONWhiteSpace c = true -> c = 9 \/ c = 10 \/ c = 13 \/ c = 32.
Proof.
  unfold isJSONWhiteSpace. rewrite !orb_true_iff, !N.eqb_eq. tauto.
Qed.

Lemma lexString_app s w str rest :
  lexString s = Some (str, rest) -> lexString (s ++ w) = Some (str, rest ++ w).
Proof.
  remember (List.length s) as n eqn:Hn. revert s str rest Hn.
  induction n as [n IH] using lt_wf_ind. intros s str rest Hn H.
  destruct s as [|c r]; [discriminate|]. simpl in H |- *.
  destruct (c =? 34).
  { injection H as <- <-. reflexivity. }
  destruct (c =? 92).
  { destruct r as [|e r1]; [discriminate|]. simpl.
    destruct (e =? 117).
    - destruct r1 as [|h1 [|h2 [|h3 [|h4 r2]]]]; try discriminate. simpl.
      destruct (hex4 h1 h2 h3 h4); [|discriminate].
      destruct (lexString r2) as [[s' rest']|] eqn:E; [|discriminate].
      injection H as <- <-.
      rewrite (IH (List.length r2)) with (str := s') (rest := rest');
        [reflexivity|subst n; simpl; lia|reflexivity|exact E].
    - destruct (escapeUnit e); [|discriminate].
      destruct (lexString r1) as [[s' rest']|] eqn:E; [|discriminate].
      injection H as <- <-.
      rewrite (IH (List.length r1)) with (str := s') (rest := rest');
        [reflexivity|subst n; simpl; lia|reflexivity|exact E]. }
  destruct (c <? 32); [discriminate|].
  destruct (lexString r) as [[s' rest']|] eqn:E; [|discriminate].
  injection H as <- <-.
  rewrite (IH (List.length r)) with (str := s') (rest := rest');
    [reflexivity|subst n; simpl; lia|reflexivity|exact E].
Qed.

Lemma digits_app s w :
  wsHead w -> digits (s ++ w) = (fst (digits s), snd (digits s) ++ w).
Proof.
  intros Hw. induction s as [|c r IH]; simpl.
  - destruct w as [|c w]; [reflexivity|]. simpl in Hw.
    destruct (ws_cases c Hw) as [-> | [-> | [-> | ->]]]; reflexivity.
  - destruct (isDigit c); [|reflexivity].
    rewrite IH. now destruct (digits r).
Qed.

Lemma lexInt_app s w i rest :
  wsHead w -> lexInt s = Some (i, rest) -> lexInt (s ++ w) = Some (i, rest ++ w).
Proof.
  intros Hw. destruct s as [|c r]; [discriminate|]. simpl.
  destruct (c =? 48).
  { intros H. injection H as <- <-. reflexivity. }
  destruct (isDigit c); [|discriminate].
  rewrite (digits_app r w Hw). destruct (digits r) as [ds rest']. simpl.
  intros H. injection H as <- <-. reflexivity.
Qed.

Lemma lexFraction_app s w f rest :
  wsHead w -> lexFraction s = Some (f, rest) ->
  lexFraction (s ++ w) = Some (f, rest ++ w).
Proof.
  intros Hw. unfold lexFraction. destruct s as [|c r].
  - intros H. injection H as <- <-. simpl.
    destruct w as [|c w]; [reflexivity|]. simpl in Hw.
    destruct (ws_cases c Hw) as [-> | [-> | [-> | ->]]]; reflexivity.
  - simpl. destruct (c =? 46).
    + rewrite (digits_app r w Hw). destruct (digits r) as [[|d ds] rest']; [discriminate|].
      simpl. intros H. injection H as <- <-. reflexivity.
    + intros H. injection H as <- <-. reflexivity.
Qed.

Lemma lexExponent_app s w e rest :
  wsHead w -> lexExponent s = Some (e, rest) ->
  lexExponent (s ++ w) = Some (e, rest ++ w).
Proof.
  intros Hw. unfold lexExponent. destruct s as [|c r].
  - intros H. injection H as <- <-. simpl.
    destruct w as [|c w]; [reflexivity|]. simpl in Hw.
    destruct (ws_cases c Hw) as [-> | [-> | [-> | ->]]]; reflexivity.
  - simpl. destruct ((c =? 101) || (c =? 69)).
    + destruct r as [|c1 r']; [simpl; discriminate|]. simpl.
      destruct ((c1 =? 43) || (c1 =? 45)).
      * rewrite (digits_app r' w Hw).
        destruct (digits r') as [[|d ds] rest']; [discriminate|].
        simpl. intros H. injection H as <- <-. reflexivity.
      * change (c1 :: r' ++ w) with ((c1 :: r') ++ w).
        rewrite (digits_app (c1 :: r') w Hw).
        destruct (digits (c1 :: r')) as [[|d ds] rest']; [discriminate|].
        simpl. intros H. injection H as <- <-. reflexivity.
    + intros H. injection H as <- <-. reflexivity.
Qed.

Lemma lexNumber_app c r w n rest :
  wsHead w -> lexNumber (c :: r) = Some (n, rest) ->
  lexNumber (c :: r ++ w) = Some (n, rest ++ w).
Proof.
  intros Hw. unfold lexNumber.
  assert (Hgen : forall sign s0,
             match lexInt s0 with
             | Some (i, s1) =>
                 match lexFraction s1 with
                 | Some (f, s2) =>
                     match lexExponent s2 with
                     | Some (e, s3) => Some (sign ++ i ++ f ++ e, s3)
                     | None => None
                     end
                 | None => None
                 end
             | None => None
             end = Some (n, rest) ->
             match lexInt (s0 ++ w) with
             | Some (i, s1) =>
                 match lexFraction s1 with
                 | Some (f, s2) =>
                     match lexExponent s2 with
                     | Some (e, s3) => Some (sign ++ i ++ f ++ e, s3)
                     | None => None
                     end
                 | None => None
                 end
             | None => None
             end = Some (n, rest ++ w)).
  { intros sign s0 H.
    destruct (lexInt s0) as [[i s1]|] eqn:E1; [|discriminate].
    destruct (lexFraction s1) as [[f s2]|] eqn:E2; [|discriminate].
    destruct (lexExponent s2) as [[e s3]|] eqn:E3; [|discriminate].
    injection H as <- <-.
    rewrite (lexInt_app _ _ _ _ Hw E1), (lexFraction_app _ _ _ _ Hw E2),
      (lexExponent_app _ _ _ _ Hw E3). reflexivity. }
  destruct (c =? 45).
  - apply Hgen.
  - apply (Hgen [] (c :: r)).
Qed.

Lemma startsWith_app s w p :
  JSString.startsWith s p = true -> JSString.startsWith (s ++ w) p = true.
Proof.
  revert s. induction p as [|a p IH]; intros s; [reflexivity|].
  destruct s as [|b s]; [discriminate|]. simpl.
  intros H. apply andb_true_iff in H. destruct H as [-> H]. now apply IH.
Qed.

Lemma skipn_app_prefix {A} n (s w : list A) :
  (n <= List.length s)%nat -> skipn n (s ++ w) = skipn n s ++ w.
Proof.
  intros H. rewrite skipn_app. replace (n - List.length s)%nat with 0%nat by lia.
  reflexivity.
Qed.

Lemma startsWith_length s p :
  JSString.startsWith s p = true -> (List.length p <= List.length s)%nat.
Proof.
  revert s. induction p as [|a p IH]; intros s; simpl; [lia|].
  destruct s as [|b s]; [discriminate|]. simpl.
  intros H. apply andb_true_iff in H. destruct H as [_ H]. apply IH in H. lia.
Qed.

Lemma lex_whitespace f w :
  forallb isJSONWhiteSpace w = true -> (List.length w < f)%nat -> lex f w = Ok [].
Proof.
  revert w. induction f as [|f IH]; intros w Hw Hf; [lia|].
  destruct w as [|c w]; [reflexivity|]. simpl in Hw, Hf.
  apply andb_true_iff in Hw. destruct Hw as [Hc Hw].
  cbn [lex]. rewrite Hc. apply IH; [exact Hw|lia].
Qed.

Lemma consToken_Ok t r ts :
  consToken t r = Ok ts -> exists ts', r = Ok ts' /\ ts = t :: ts'.
Proof.
  unfold consToken. destruct r as [ts'| |]; simpl; try discriminate.
  intros H. injection H as <-. eauto.
Qed.


Lemma startsWith_app_ws p s w :
  wsHead w ->
  forallb (fun a => negb (isJSONWhiteSpace a)) p = true ->
  JSString.startsWith (s ++ w) p = JSString.startsWith s p.
Proof.
  intros Hw. revert s. induction p as [|a p IH]; intros s Hp; [reflexivity|].
  simpl in Hp. apply andb_true_iff in Hp. destruct Hp as [Ha Hp].
  destruct s as [|b s]; simpl.
  - destruct w as [|c w]; [reflexivity|]. simpl in Hw |- *.
    destruct (a =? c) eqn:E; [|reflexivity].
    apply N.eqb_eq in E. subst c. rewrite Hw in Ha. discriminate.
  - now rewrite IH.
Qed.

Lemma lex_app f s ts :
  lex f s = Ok ts ->
  forall f' w,
    forallb isJSONWhiteSpace w = true ->
    (f + List.length w <= f')%nat ->
    lex f' (s ++ w) = Ok ts.
Proof.
  revert s ts. induction f as [|f IH]; intros s ts H f' w Hw Hf; [discriminate|].
  destruct f' as [|f']; [lia|].
  destruct s as [|c r].
  { injection H as <-. simpl app. apply lex_whitespace; [exact Hw|lia]. }
  assert (Hstep : forall t rest ts0,
             consToken t (lex f rest) = Ok ts0 ->
             consToken t (lex f' (rest ++ w)) = Ok ts0).
  { intros t rest ts0 E. apply consToken_Ok in E. destruct E as [ts' [E ->]].
    rewrite (IH rest ts' E f' w Hw) by lia. reflexivity. }
  pose proof (wsHead_of_all w Hw) as Hh.
  change ((c :: r) ++ w) with (c :: r ++ w). cbn [lex] in H |- *.
  destruct (isJSONWhiteSpace c); [apply (IH r ts H); [exact Hw|lia]|].
  destruct (c =? 123); [now apply Hstep|].
  destruct (c =? 125); [now apply Hstep|].
  destruct (c =? 91); [now apply Hstep|].
  destruct (c =? 93); [now apply Hstep|].
  destruct (c =? 58); [now apply Hstep|].
  destruct (c =? 44); [now apply Hstep|].
  destruct (c =? 34).
  { destruct (lexString r) as [[str rest]|] eqn:E; [|discriminate].
    rewrite (lexString_app r w str rest E). now apply Hstep. }
  destruct ((c =? 45) || isDigit c).
  { destruct (lexNumber (c :: r)) as [[n rest]|] eqn:E; [|discriminate].
    rewrite (lexNumber_app c r w n rest Hh E). now apply Hstep. }
  change (c :: r ++ w) with ((c :: r) ++ w).
  rewrite !(startsWith_app_ws _ (c :: r) w Hh) by reflexivity.
  destruct (JSString.startsWith (c :: r) (js "true")) eqn:E1.
  { rewrite skipn_app_prefix by (apply startsWith_length in E1; exact E1).
    now apply Hstep. }
  destruct (JSString.startsWith (c :: r) (js "false")) eqn:E2.
  { rewrite skipn_app_prefix by (apply startsWith_length in E2; exact E2).
    now apply Hstep. }
  destruct (JSString.startsWith (c :: r) (js "null")) eqn:E3.
  { rewrite skipn_app_prefix by (apply startsWith_length in E3; exact E3).
    now apply Hstep. }
  discriminate.
Qed.

Lemma bind_Ok {A B} (x : result A) (k : A -> result B) b :
  bind x k = Ok b -> exists a, x = Ok a /\ k a = Ok b.
Proof. destruct x; simpl; try discriminate. eauto. Qed.

Ltac bind_mono H IH :=
  let a := fresh "a" in
  let E := fresh "E" in
  let K := fresh "K" in
  apply bind_Ok in H; destruct H as [a [E K]];
  rewrite (IH _ _ _ E) by lia; simpl.

Lemma parse_more_fuel f :
  (forall ts x f', parseValue f ts = Ok x -> (f <= f')%nat -> parseValue f' ts = Ok x) /\
  (forall ts x f', parseElements f ts = Ok x -> (f <= f')%nat ->
                   parseElements f' ts = Ok x) /\
  (forall ts x f', parseMembers f ts = Ok x -> (f <= f')%nat ->
                   parseMembers f' ts = Ok x).
Proof.
  induction f as [|f [IHv [IHe IHm]]].
  { repeat split; intros ts x f' H; discriminate. }
  split; [|split]; intros ts x f' H Hf; (destruct f' as [|f']; [lia|]).
  - cbn [parseValue] in H |- *. destruct ts as [|t ts]; [discriminate|].
    destruct t; try exact H.
    + destruct ts as [|t' ts']; [|destruct t']; try exact H;
        (bind_mono H IHm; exact K).
    + destruct ts as [|t' ts']; [|destruct t']; try exact H;
        (bind_mono H IHe; exact K).
  - cbn [parseElements] in H |- *. bind_mono H IHv.
    destruct a as [v r]. destruct r as [|t r']; [exact K|].
    destruct t; try exact K. bind_mono K IHe. exact K0.
  - cbn [parseMembers] in H |- *. destruct ts as [|t ts]; [discriminate|].
    destruct t; try discriminate.
    destruct ts as [|t' ts']; [discriminate|]. destruct t'; try discriminate.
    bind_mono H IHv.
    destruct a as [v r]. destruct r as [|t r']; [exact K|].
    destruct t; try exact K. bind_mono K IHm. exact K0.
Qed.

(** [JSON.parse] accepts a text it accepts also when JSON white space
    follows, with the same value. *)
Lemma parse_app_ws data w v :
  JSON.parse data = Some v ->
  forallb isJSONWhiteSpace w = true ->
  JSON.parse (data ++ w) = Some v.
Proof.
  unfold JSON.parse, parseText. intros H Hw.
  destruct (lex (S (List.length data)) data) as [ts| |] eqn:El; try discriminate.
  cbn [bind] in H.
  destruct (parseValue (2 * S (List.length data)) ts) as [[v' r]| |] eqn:Ep;
    try discriminate.
  cbn [bind] in H. destruct r; [|discriminate]. injection H as ->.
  rewrite (lex_app _ _ _ El (S (List.length (data ++ w))) w Hw)
    by (rewrite length_app; lia).
  cbn [bind].
  destruct (parse_more_fuel (2 * S (List.length data))) as [Hv _].
  rewrite (Hv ts (v, []) (2 * S (List.length (data ++ w)))%nat Ep)
    by (rewrite length_app; lia).
  reflexivity.
Qed.

End TrailingWhiteSpace.

Section CarriageReturn.
Context {R : Runtime}.

Lemma parseRecord_app_ws data w cid ct :
  parseRecord data = Some (cid, ct) ->
  forallb isJSONWhiteSpace w = true ->
  parseRecord (data ++ w) = Some (cid, ct).
Proof.
  unfold parseRecord. intros H Hw.
  destruct (JSON.parse data) as [parsed|] eqn:E; [|discriminate].
  now rewrite (parse_app_ws data w parsed E Hw).
Qed.

Lemma parseRecord_not_DONE data cid ct :
  parseRecord data = Some (cid, ct) -> JSString.eqb data (js "[DONE]") = false.
Proof.
  intros H. apply eqb_neq. intros ->. vm_compute in H. discriminate.
Qed.

Lemma decodeLine_record data cid ct :
  parseRecord data = Some (cid, ct) ->
  decodeLine (js "data: " ++ data) = recordEvents cid ct.
Proof.
  intros H.
  change (decodeLine (js "data: " ++ data))
    with (if JSString.eqb data (js "[DONE]") then []
          else match parseRecord data with
               | None => plainText data
               | Some (cid, ct) => recordEvents cid ct
               end).
  now rewrite (parseRecord_not_DONE data cid ct H), H.
Qed.

End CarriageReturn.

(** X8: JSON white space after a payload that reads as a record changes
    nothing: the line carries the same events and leaves the same page.
    So a structured frame of a stream whose lines end in CR LF, which
    reaches the handler with the carriage return at its end, is applied
    like the frame without it. *)
Theorem X8_structured_frame_with_trailing_white_space {R : Runtime} (c : Call)
  (st : Page) (data w : jsstring) (cid ct : jsvalue) :
  parseRecord data = Some (cid, ct) ->
  forallb isJSONWhiteSpace w = true ->
  decodeLine (js "data: " ++ data ++ w) = recordEvents cid ct /\
  decodeLine (js "data: " ++ data) = recordEvents cid ct /\
  processLine c st (js "data: " ++ data ++ w) = processLine c st (js "data: " ++ data).
Proof.
  intros H Hw.
  pose proof (parseRecord_app_ws data w cid ct H Hw) as H'.
  assert (E1 : decodeLine (js "data: " ++ data ++ w) = recordEvents cid ct)
    by now apply decodeLine_record.
  assert (E2 : decodeLine (js "data: " ++ data) = recordEvents cid ct)
    by now apply decodeLine_record.
  split; [exact E1|]. split; [exact E2|].
  now rewrite !processLine_decodeLine, E1, E2.
Qed.

Lemma X8_structured_frame_with_trailing_white_space_witness :
  let c := {| assistantId := js "1001"; call_conversationId := undefined; point := AwaitRead |} in
  let st := @run exampleRuntime initialPage
              [Change (js "hi"); Submit 1000 1000; Settle 0 (Response true)] in
  let data := js "{'conversation_id':'c1','content':'Hel'}" in
  let cid := Some (JString (js "c1")) in
  let ct := Some (JString (js "Hel")) in
  @decodeLine exampleRuntime (js "data: " ++ data ++ js "\r") =
    @recordEvents exampleRuntime cid ct /\
  @decodeLine exampleRuntime (js "data: " ++ data) = @recordEvents exampleRuntime cid ct /\
  @processLine exampleRuntime c st (js "data: " ++ data ++ js "\r") =
    @processLine exampleRuntime c st (js "data: " ++ data).
Proof.
  cbv zeta.
  apply (@X8_structured_frame_with_trailing_white_space exampleRuntime).
  - vm_compute. reflexivity.
  - vm_compute. reflexivity.
Defined.

(** * Properties of the dashboard *)

(** ** The age of a conversation *)

Section Ages.
Local Open Scope Z_scope.

Lemma hours_lt (age k : Z) : (age / 3600000 <? k) = (age <? k * 3600000).
Proof.
  destruct (Z.ltb_spec (age / 3600000) k), (Z.ltb_spec age (k * 3600000));
    try reflexivity; Z.div_mod_to_equations; lia.
Qed.

Lemma days_of_hours (age : Z) : age / 3600000 / 24 = age / 86400000.
Proof. now rewrite Z.div_div by lia. Qed.

Lemma days_eq_1 (age : Z) :
  86400000 <= age -> (age / 86400000 =? 1) = (age <? 172800000).
Proof.
  intros H.
  destruct (Z.eqb_spec (age / 86400000) 1), (Z.ltb_spec age 172800000);
    try reflexivity; Z.div_mod_to_equations; lia.
Qed.

End Ages.

(** X9: [formatTime] depends on the age of the date only, the time from
    it to now: below one hour (and for a date in the future) it says
    [Just now], below two hours [1 hour ago], below a day the full hours
    with [hours ago], below two days [Yesterday], and from then on the
    full days with [days ago]. So the hours it prints are 1 to 23 and the
    days 2 or more. *)
Theorem X9_formatTime_by_age (now d : Z) :
  let age := (now - d)%Z in
  Dashboard.formatTime now (Some d) =
  if (age <? 3600000)%Z then js "Just now"
  else if (age <? 7200000)%Z then js "1 hour ago"
  else if (age <? 86400000)%Z then
    JSString.toString (Z.to_N (age / 3600000)) ++ js " hours ago"
  else if (age <? 172800000)%Z then js "Yesterday"
  else JSString.toString (Z.to_N (age / 86400000)) ++ js " days ago".
Proof.
  cbv zeta. unfold Dashboard.formatTime.
  change (1000 * 60 * 60)%Z with 3600000%Z.
  set (age := (now - d)%Z).
  rewrite days_of_hours, !hours_lt.
  change (1 * 3600000)%Z with 3600000%Z. change (24 * 3600000)%Z with 86400000%Z.
  destruct (Z.ltb_spec age 3600000) as [H1|H1]; [reflexivity|].
  destruct (Z.ltb_spec age 86400000) as [H2|H2].
  - destruct (Z.ltb_spec age 7200000) as [H3|H3].
    + assert (E : (age / 3600000 = 1)%Z) by (Z.div_mod_to_equations; lia).
      rewrite E. reflexivity.
    + assert (E : (1 <? age / 3600000)%Z = true).
      { apply Z.ltb_lt. Z.div_mod_to_equations. lia. }
      rewrite E. reflexivity.
  - rewrite (days_eq_1 age H2).
    destruct (Z.ltb_spec age 7200000) as [H3|H3]; [lia|].
    reflexivity.
Qed.

(** ** Loading the dashboard *)

Lemma startsWith_spec s p :
  JSString.startsWith s p = true <-> exists b, s = p ++ b.
Proof.
  revert s. induction p as [|a p IH]; intros s.
  - split; [exists s; reflexivity|reflexivity].
  - destruct s as [|c s]; simpl.
    + split; [discriminate|]. intros [b H]. discriminate.
    + rewrite andb_true_iff, N.eqb_eq, IH. split.
      * intros [-> [b ->]]. now exists b.
      * intros [b H]. injection H as -> ->. split; [reflexivity|now exists b].
Qed.

(** [includes] finds the substrings. *)
Lemma includes_spec s p :
  Dashboard.includes s p = true <-> exists a b, s = a ++ p ++ b.
Proof.
  induction s as [|c s IH]; simpl.
  - rewrite orb_false_r, startsWith_spec. split.
    + intros [b H]. now exists [], b.
    + intros [a [b H]]. destruct a; [now exists b|discriminate].
  - rewrite orb_true_iff, startsWith_spec, IH. split.
    + intros [[b H]|[a [b H]]]; [now exists [], b|].
      exists (c :: a), b. simpl. now rewrite H.
    + intros [a [b H]]. destruct a as [|x a]; [left; now exists b|].
      right. injection H as _ H. now exists a, b.
Qed.

Lemma isAuthError_spec e :
  Dashboard.isAuthError e = true <->
  exists a b, e = Dashboard.ErrorWith (a ++ js "authentication" ++ b).
Proof.
  destruct e as [m|]; simpl.
  - rewrite includes_spec. split.
    + intros [a [b ->]]. now exists a, b.
    + intros [a [b H]]. injection H as ->. now exists a, b.
  - split; [discriminate|]. intros [a [b H]]. discriminate.
Qed.

(** X10: [loadData] on the mounted dashboard. Whatever the two requests
    do, loading ends. The status card says [Healthy] exactly when both
    resolved; then the counts are set, nothing is logged and the session
    is kept. When the list of documents fails, the conversations are not
    requested and nothing is set. A failure is logged; when it is an
    [Error] whose message contains [authentication], the token is removed
    and the login route is pushed, with the health left unknown, which the
    card shows as [Offline]; any other failure keeps the token, pushes
    nothing and marks the backend unhealthy. *)
Theorem X10_loadData_outcomes (tok : option jsstring) (docs : Dashboard.Settled N)
  (convs : Dashboard.Settled (list Dashboard.Conversation)) :
  let st' := Dashboard.loadData docs convs (Dashboard.mounted tok) in
  Dashboard.isLoading st' = false /\
  (Dashboard.statusCard st' =
     Dashboard.Badge (js "Healthy") (js "All services operational") <->
   Dashboard.failure docs convs = None) /\
  (forall total cs,
     docs = Dashboard.Resolved total -> convs = Dashboard.Resolved cs ->
     Dashboard.docCount st' = Some total /\
     Dashboard.conversations st' = cs /\
     Dashboard.called st' = [Dashboard.DocumentsList; Dashboard.GetConversations] /\
     Dashboard.logged st' = [] /\
     Dashboard.token st' = tok /\
     Dashboard.pushed st' = []) /\
  (forall e,
     docs = Dashboard.RejectedWith e ->
     Dashboard.called st' = [Dashboard.DocumentsList] /\
     Dashboard.docCount st' = None /\
     Dashboard.conversations st' = []) /\
  (forall total e,
     docs = Dashboard.Resolved total -> convs = Dashboard.RejectedWith e ->
     Dashboard.docCount st' = Some total /\
     Dashboard.conversations st' = []) /\
  (forall e,
     Dashboard.failure docs convs = Some e ->
     Dashboard.logged st' = [js "Failed to load dashboard data:"] /\
     ((exists a b, e = Dashboard.ErrorWith (a ++ js "authentication" ++ b)) ->
      Dashboard.token st' = None /\
      Dashboard.pushed st' = [js "/login"] /\
      Dashboard.isHealthy st' = None /\
      Dashboard.statusCard st' =
        Dashboard.Badge (js "Offline") (js "Backend unavailable")) /\
     (~ (exists a b, e = Dashboard.ErrorWith (a ++ js "authentication" ++ b)) ->
      Dashboard.token st' = tok /\
      Dashboard.pushed st' = [] /\
      Dashboard.isHealthy st' = Some false)).
Proof.
  cbv zeta.
  assert (Hcatch : forall st e,
            let st' := Dashboard.catchBlock e st in
            Dashboard.isLoading st' = false /\
            Dashboard.docCount st' = Dashboard.docCount st /\
            Dashboard.conversations st' = Dashboard.conversations st /\
            Dashboard.called st' = Dashboard.called st /\
            Dashboard.logged st' =
              Dashboard.logged st ++ [js "Failed to load dashboard data:"] /\
            (Dashboard.isAuthError e = true ->
             Dashboard.token st' = None /\
             Dashboard.pushed st' = Dashboard.pushed st ++ [js "/login"] /\
             Dashboard.isHealthy st' = Dashboard.isHealthy st) /\
            (Dashboard.isAuthError e = false ->
             Dashboard.token st' = Dashboard.token st /\
             Dashboard.pushed st' = Dashboard.pushed st /\
             Dashboard.isHealthy st' = Some false)).
  { intros st e. cbv zeta. unfold Dashboard.catchBlock.
    destruct (Dashboard.isAuthError e); simpl; repeat split; intros; discriminate. }
  assert (Hcard : forall st,
            Dashboard.isLoading st = false ->
            Dashboard.isHealthy st <> Some true ->
            Dashboard.statusCard st =
              Dashboard.Badge (js "Offline") (js "Backend unavailable")).
  { intros st Hl Hh. unfold Dashboard.statusCard. rewrite Hl.
    destruct (Dashboard.isHealthy st) as [[|]|]; [now contradiction Hh| |]; reflexivity. }
  assert (Hfail : forall st e,
            Dashboard.isHealthy st = None ->
            Dashboard.statusCard (Dashboard.catchBlock e st) =
              Dashboard.Badge (js "Offline") (js "Backend unavailable")).
  { intros st e Hn.
    destruct (Hcatch st e) as (Hl & _ & _ & _ & _ & Ha & Hb).
    apply Hcard; [exact Hl|].
    destruct (Dashboard.isAuthError e).
    - destruct (Ha eq_refl) as (_ & _ & ->). rewrite Hn. discriminate.
    - destruct (Hb eq_refl) as (_ & _ & ->). discriminate. }
  destruct docs as [total|e1]; [destruct convs as [cs|e2]|]; simpl Dashboard.loadData;
    simpl Dashboard.failure.
  - split; [reflexivity|]. split; [split; reflexivity|].
    split.
    { intros total' cs' H1 H2. injection H1 as <-. injection H2 as <-.
      now repeat split. }
    split; [intros e H; discriminate|].
    split; [intros total' e _ H; discriminate|].
    intros e H. discriminate.
  - set (st := Dashboard.call Dashboard.GetConversations
                 (Dashboard.setDocCount (Some total)
                    (Dashboard.call Dashboard.DocumentsList (Dashboard.mounted tok)))).
    destruct (Hcatch st e2) as (Hl & Hd & Hc & Hcl & Hlog & Ha & Hb).
    split; [exact Hl|]. split.
    { rewrite (Hfail st e2 eq_refl). split; discriminate. }
    split; [intros total' cs _ H; discriminate|].
    split; [intros e H; discriminate|].
    split.
    { intros total' e H _. injection H as <-. now rewrite Hd, Hc. }
    intros e H. injection H as <-. split; [exact Hlog|]. split.
    + intros Hex. apply isAuthError_spec in Hex. destruct (Ha Hex) as (H1 & H2 & H3).
      rewrite H1, H2, H3. repeat split. now apply Hfail.
    + intros Hne. destruct (Dashboard.isAuthError e2) eqn:E.
      * apply isAuthError_spec in E. contradiction.
      * exact (Hb eq_refl).
  - set (st := Dashboard.call Dashboard.DocumentsList (Dashboard.mounted tok)).
    destruct (Hcatch st e1) as (Hl & Hd & Hc & Hcl & Hlog & Ha & Hb).
    split; [exact Hl|]. split.
    { rewrite (Hfail st e1 eq_refl). split; discriminate. }
    split; [intros total' cs H; discriminate|].
    split.
    { intros e _. now rewrite Hcl, Hd, Hc. }
    split; [intros total e H; discriminate|].
    intros e H. injection H as <-. split; [exact Hlog|]. split.
    + intros Hex. apply isAuthError_spec in Hex. destruct (Ha Hex) as (H1 & H2 & H3).
      rewrite H1, H2, H3. repeat split. now apply Hfail.
    + intros Hne. destruct (Dashboard.isAuthError e1) eqn:E.
      * apply isAuthError_spec in E. contradiction.
      * exact (Hb eq_refl).
Qed.

Lemma X10_loadData_outcomes_witness :
  let tok := Some (js "secret") in
  let docs := Dashboard.Resolved 3 in
  let convs := Dashboard.RejectedWith
                 (Dashboard.ErrorWith (js "Invalid authentication credentials")) in
  let st' := Dashboard.loadData docs convs (Dashboard.mounted tok) in
  Dashboard.docCount st' = Some 3 /\
  Dashboard.conversations st' = [] /\
  Dashboard.token st' = None /\
  Dashboard.pushed st' = [js "/login"] /\
  Dashboard.isHealthy st' = None /\
  Dashboard.statusCard st' = Dashboard.Badge (js "Offline") (js "Backend unavailable").
Proof.
  cbv zeta.
  pose proof (X10_loadData_outcomes (Some (js "secret")) (Dashboard.Resolved 3)
                (Dashboard.RejectedWith
                   (Dashboard.ErrorWith (js "Invalid authentication credentials"))))
    as (_ & _ & _ & _ & H5 & H6).
  destruct (H5 3 _ eq_refl eq_refl) as (Hd & Hc).
  destruct (H6 _ eq_refl) as (_ & Ha & _).
  split; [exact Hd|]. split; [exact Hc|].
  apply Ha. exists (js "Invalid "), (js " credentials"). reflexivity.
Defined.

(** * Message ids *)

Section Ids.
Context {R : Runtime}.

Lemma ids_step st ev :
  keepsTranscript ev = true ->
  map id (messages (step st ev)) = map id (messages st) ++ map fst (added st ev).
Proof.
  intros Hk. pose proof (identity_step st ev Hk) as H.
  apply (f_equal (map fst)) in H. rewrite map_app, !map_map in H. exact H.
Qed.

Lemma idsBelow_accepted st last now1 now2 :
  accepted st (Submit now1 now2) = true ->
  last < now1 -> now1 <= now2 ->
  idsBelow last st -> idsBelow (now2 + 1) (step st (Submit now1 now2)).
Proof.
  intros Ha H1 H2 [Hf Hn]. unfold idsBelow.
  rewrite (ids_step st (Submit now1 now2) eq_refl). unfold added. rewrite Ha.
  simpl map at 2. simpl map at 3. split.
  - apply Forall_app. split.
    + eapply Forall_impl; [|exact Hf]. intros i [k [-> Hk]]. exists k. split; [reflexivity|lia].
    + constructor; [exists now1; split; [reflexivity|lia]|].
      constructor; [exists (now2 + 1); split; [reflexivity|lia]|constructor].
  - apply NoDup_app; [exact Hn| |].
    + constructor; [|constructor; [intros []|constructor]].
      intros [E|[]]. apply toString_inj in E. lia.
    + intros i Hi [E|[E|[]]]; subst i; rewrite Forall_forall in Hf;
        destruct (Hf _ Hi) as [k [E Hk]]; apply toString_inj in E; lia.
Qed.

Lemma idsBelow_other st last ev :
  keepsTranscript ev = true ->
  accepted st ev = false ->
  idsBelow last st -> idsBelow last (step st ev).
Proof.
  intros Hk Ha H. unfold idsBelow. rewrite (ids_step st ev Hk).
  assert (E : added st ev = []).
  { unfold added. destruct ev; try reflexivity. now rewrite Ha. }
  rewrite E. simpl. now rewrite app_nil_r.
Qed.

Lemma idsBelow_run st last evs :
  forallb keepsTranscript evs = true ->
  clockAdvances st last evs ->
  idsBelow last st ->
  exists last', idsBelow last' (run st evs).
Proof.
  revert st last. induction evs as [|ev evs IH]; intros st last Hk Hc Hi.
  - now exists last.
  - simpl in Hk. apply andb_true_iff in Hk. destruct Hk as [Hev Hevs].
    change (run st (ev :: evs)) with (run (step st ev) evs).
    destruct (accepted st ev) eqn:Ha.
    + destruct ev as [v|n1 n2|i s| |cid ms|]; try discriminate.
      simpl in Hc. simpl in Ha. rewrite Ha in Hc. destruct Hc as (H1 & H2 & Hc).
      apply (IH _ (n2 + 1) Hevs Hc). now apply (idsBelow_accepted st last n1 n2).
    + apply (IH _ last Hevs).
      * destruct ev as [v|n1 n2|i s| |cid ms|]; try exact Hc.
        simpl in Hc. simpl in Ha. now rewrite Ha in Hc.
      * now apply idsBelow_other.
Qed.

End Ids.

(** X11: as long as no loaded conversation replaces the transcript and
    the clock advances from one accepted submission to the next (each
    reads it after the number in the previous placeholder's id, and its
    second reading is no earlier than its first), the ids of the messages
    of the transcript are all different. *)
Theorem X11_message_ids_are_unique {R : Runtime} (evs : list Event) :
  forallb keepsTranscript evs = true ->
  clockAdvances initialPage 0 evs ->
  NoDup (map id (messages (run initialPage evs))).
Proof.
  intros Hk Hc.
  destruct (idsBelow_run initialPage 0 evs Hk Hc) as [last [_ H]]; [|exact H].
  split; constructor.
Qed.

Lemma X11_message_ids_are_unique_witness :
  NoDup (map id (messages (@run exampleRuntime initialPage
    [Change (js "one"); Submit 1000 1000; Submit 1001 1001;
     Settle 0 (Response true);
     Settle 0 (ReadValue (js "data: {'content':'1'}\n")); Settle 0 ReadDone;
     Change (js "two"); Submit 3000 3001; Settle 0 Rejected]))).
Proof.
  apply (@X11_message_ids_are_unique exampleRuntime).
  - reflexivity.
  - vm_compute. repeat split; discriminate.
Defined.

(** * An exchange and the earlier transcript *)

(** X12: when no message of the transcript has the id the placeholder
    gets, the user's message does not get it either and every content of
    the stream has a string conversion, an accepted submission and its
    exchange leave the page on the screen and the earlier transcript as it
    is, and add exactly two messages: the user's, with the trimmed input,
    and the placeholder, which holds the text streamed in order when the
    exchange completes and the error text when it fails. *)
Theorem X12_exchange_adds_two_messages {R : Runtime} (st : Page) (now1 now2 : N)
  (chunks : option (list jsstring)) (completes : bool) :
  accepted st (Submit now1 now2) = true ->
  crashed st = false ->
  throws (decodeChunks (match chunks with Some cs => cs | None => [] end)) = false ->
  now1 <> now2 + 1 ->
  (forall m, In m (messages st) -> id m <> JSString.toString (now2 + 1)) ->
  let texts := fragments (decodeChunks (match chunks with Some cs => cs | None => [] end)) in
  let st' := run st (Submit now1 now2 :: exchange (List.length (calls st)) chunks completes) in
  crashed st' = false /\
  messages st' =
    messages st ++
    [userMessageOf now1 st;
     placeholderOf now2 (if completes then List.concat texts else errorText)].
Proof.
  intros Ha Hcr Hth Hn Habs. cbv zeta.
  split; [now rewrite exchange_crashed|].
  assert (Hall : forall m, In m (messages st ++ [userMessageOf now1 st]) ->
                           id m <> JSString.toString (now2 + 1)).
  { intros m Hm. apply in_app_or in Hm. destruct Hm as [Hm|[<-|[]]]; [now apply Habs|].
    simpl. intros E. apply toString_inj in E. contradiction. }
  destruct completes.
  - change (exchange (List.length (calls st)) chunks true)
      with (completedExchange (List.length (calls st)) chunks).
    rewrite (completed_messages st now1 now2 chunks Ha).
    rewrite (appendAll_absent _ _ _ Hall). now rewrite <- app_assoc.
  - rewrite run_exchange by exact Ha.
    assert (H : forall p cs,
               messages (step (fold_left (processChunk (callOf now2 st p)) cs
                                 (submitted now1 now2 p st))
                           (Settle (List.length (calls st)) Rejected)) =
               messages st ++ [userMessageOf now1 st; placeholderOf now2 errorText]).
    { intros p cs.
      destruct (failed_after_reads (submitted now1 now2 p st)
                  (List.length (calls st)) (callOf now2 st p) cs
                  (nth_error_last _ _)) as (_ & _ & _ & H4).
      rewrite H4. simpl assistantId. rewrite replaceContent_submitted.
      rewrite (replaceContent_absent _ _ _ Hall). now rewrite <- app_assoc. }
    destruct chunks as [cs|]; [apply (H AwaitRead cs)|apply (H AwaitResponse [])].
Qed.

Lemma X12_exchange_adds_two_messages_witness :
  let st := @run exampleRuntime initialPage
              [Change (js "one"); Submit 1000 1000; Settle 0 (Response true);
               Settle 0 (ReadValue (js "data: {'content':'1'}\n")); Settle 0 ReadDone;
               Change (js " two ")] in
  let chunks := Some [js "data: {'content':'Par'}\n"] in
  let st' := @run exampleRuntime st
               (Submit 3000 3001 :: exchange (List.length (calls st)) chunks false) in
  crashed st' = false /\
  messages st' =
    messages st ++
    [userMessageOf 3000 st; placeholderOf 3001 errorText].
Proof.
  cbv zeta.
  apply (@X12_exchange_adds_two_messages exampleRuntime _ 3000 3001
           (Some [js "data: {'content':'Par'}\n"]) false).
  - reflexivity.
  - reflexivity.
  - reflexivity.
  - discriminate.
  - intros m Hm. vm_compute in Hm.
    destruct Hm as [<-|[<-|[]]]; vm_compute; discriminate.
Defined.

(** * Lines that are no data lines *)

(** X13: a chunk none of whose lines starts with the six characters of
    [data: ] leaves the page exactly as it is: comments, blank lines,
    other fields of an event stream and a [data:] that is not followed by
    a space are passed over. *)
Theorem X13_chunk_without_data_lines {R : Runtime} (c : Call) (st : Page)
  (chunk : jsstring) :
  (forall line, In line (JSString.split 10 chunk) ->
                JSString.startsWith line (js "data: ") = false) ->
  decodeChunk chunk = [] /\ processChunk c st chunk = st.
Proof.
  intros H.
  assert (E : decodeChunk chunk = []).
  { unfold decodeChunk. induction (JSString.split 10 chunk) as [|line ls IH];
      [reflexivity|].
    simpl. unfold decodeLine at 1. rewrite (H line (or_introl eq_refl)).
    apply IH. intros l Hl. apply H. now right. }
  split; [exact E|]. now rewrite processChunk_decodeChunk, E.
Qed.

Lemma X13_chunk_without_data_lines_witness :
  let c := {| assistantId := js "1001"; call_conversationId := undefined; point := AwaitRead |} in
  let st := @run exampleRuntime initialPage
              [Change (js "hi"); Submit 1000 1000; Settle 0 (Response true)] in
  let chunk := js ": ping\n\nevent: message\nid: 7\ndata:{'content':'x'}\n data: y\n" in
  @decodeChunk exampleRuntime chunk = [] /\ @processChunk exampleRuntime c st chunk = st.
Proof.
  cbv zeta.
  apply (@X13_chunk_without_data_lines exampleRuntime).
  intros line Hl. vm_compute in Hl.
  repeat (destruct Hl as [<-|Hl]; [vm_compute; reflexivity|]).
  destruct Hl.
Defined.

(** * Contents without a string conversion *)

Section Conversion.
Context {R : Runtime}.

Lemma join_None conversion (hides : JSValue -> bool) es :
  Forall (fun e => conversion e = None <-> hides e = true) es ->
  hides JNull = false ->
  join conversion es = None <-> existsb hides es = true.
Proof.
  intros H Hnull. induction H as [|e es He Hes IH]; [simpl; split; discriminate|].
  assert (Hel : match e with JNull => Some [] | _ => conversion e end = None <->
                hides e = true).
  { destruct e; try exact He. rewrite Hnull. split; discriminate. }
  change (existsb hides (e :: es)) with (hides e || existsb hides es).
  change (join conversion (e :: es))
    with (match (match e with JNull => Some [] | _ => conversion e end) with
          | None => None
          | Some s =>
              match es with
              | [] => Some s
              | _ :: _ => option_map (fun r => s ++ 44 :: r) (join conversion es)
              end
          end).
  destruct (match e with JNull => Some [] | _ => conversion e end) as [t|].
  - destruct (hides e); [destruct Hel as [_ Hel]; now specialize (Hel eq_refl)|].
    simpl orb. rewrite <- IH.
    destruct es as [|e' es']; [simpl; split; discriminate|].
    destruct (join conversion (e' :: es')) as [r|]; simpl; split; intros H0;
      (discriminate H0 || reflexivity).
  - destruct Hel as [Hel _]. rewrite (Hel eq_refl). now split.
Qed.

(** The conversion throws exactly on the values that hide [toString]. *)
Lemma ToString_None (v : JSValue) : ToString v = None <-> hidesToString v = true.
Proof.
  induction v as [|b|n|s|es IH|ms] using JSValue_elements_ind;
    try (simpl; split; discriminate).
  - change (join ToString es = None <-> existsb hidesToString es = true).
    now apply join_None.
  - cbn [ToString hidesToString].
    destruct (member (js "toString") ms); split; intros H0;
      (discriminate H0 || reflexivity).
Qed.

Lemma hidesToString_truthy v : hidesToString v = true -> ToBoolean (Some v) = true.
Proof. destruct v; simpl; try discriminate; reflexivity. Qed.

End Conversion.

(** X14: a frame whose content is an object with a member [toString], or
    an array that holds such a value, passes the test of line 345, and the
    updater of lines 346-352 cannot convert it: it throws for the first
    message that has the placeholder's id. The statements of the handler
    have all completed by then, so the [catch] of line 354 does not see
    it: the handler has called [setConversationId] as for any frame, and
    the page crashes if a message has the placeholder's id and is left
    alone if none has. After an accepted submission the placeholder is in
    the transcript, so the exchange crashes the page exactly when its
    stream carries such a content, however the exchange ends. *)
Theorem X14_content_without_string_conversion {R : Runtime} :
  (forall (c : Call) (st : Page) (data : jsstring) (cid : jsvalue) (v : JSValue),
     parseRecord data = Some (cid, Some v) ->
     hidesToString v = true ->
     let st' := processLine c st (js "data: " ++ data) in
     ToBoolean (Some v) = true /\
     ToString v = None /\
     decodeLine (js "data: " ++ data) =
       (if ToBoolean cid then [ConversationIdEvent cid] else []) ++ [ThrowingContent v] /\
     messages st' = messages st /\
     control st' = control st /\
     conversationId st' =
       (if ToBoolean cid && negb (ToBoolean (call_conversationId c))
        then cid else conversationId st) /\
     crashed st' =
       crashed st ||
       existsb (fun msg => JSString.eqb (id msg) (assistantId c)) (messages st)) /\
  (forall (st : Page) (now1 now2 : N) (chunks : list jsstring) (completes : bool),
     accepted st (Submit now1 now2) = true ->
     crashed (run st (Submit now1 now2 ::
                        exchange (List.length (calls st)) (Some chunks) completes)) =
     crashed st || throws (decodeChunks chunks)).
Proof.
  split.
  - intros c st data cid v Hp Hh st'.
    pose proof (hidesToString_truthy v Hh) as Ht.
    pose proof (proj2 (ToString_None v) Hh) as Hn.
    assert (Hd : decodeLine (js "data: " ++ data) =
                 (if ToBoolean cid then [ConversationIdEvent cid] else []) ++
                 [ThrowingContent v]).
    { rewrite (decodeLine_record data cid (Some v) Hp). unfold recordEvents.
      now rewrite Ht, Hn. }
    split; [exact Ht|]. split; [exact Hn|]. split; [exact Hd|].
    subst st'. rewrite processLine_decodeLine, Hd.
    split; [now rewrite messages_applyEvents, fragments_app;
            destruct (ToBoolean cid)|].
    split; [apply applyEvents_control|].
    split.
    + rewrite conversationId_applyEvents.
      destruct (ToBoolean cid), (ToBoolean (call_conversationId c)); reflexivity.
    + rewrite applyEvents_crashed_iff, throws_app. simpl.
      now rewrite orb_true_r, andb_true_r.
  - intros st now1 now2 chunks completes Ha.
    rewrite (run_exchange st now1 now2 (Some chunks) completes Ha).
    set (c := callOf now2 st AwaitRead).
    set (X := fold_left (processChunk c) chunks (submitted now1 now2 AwaitRead st)).
    assert (Hx : crashed X = crashed st || throws (decodeChunks chunks)).
    { unfold X. rewrite processChunks_decodeChunks, applyEvents_crashed_iff.
      simpl crashed. f_equal.
      replace (existsb (fun msg => JSString.eqb (id msg) (assistantId c))
                 (messages (submitted now1 now2 AwaitRead st))) with true; [reflexivity|].
      simpl. rewrite existsb_app. simpl. rewrite eqb_refl.
      now rewrite !orb_true_r. }
    rewrite <- Hx.
    assert (Hc : nth_error (calls X) (List.length (calls st)) = Some c).
    { unfold X. pose proof (processChunks_control c chunks (submitted now1 now2 AwaitRead st)) as Hk.
      unfold control in Hk. injection Hk as _ _ _ _ _ Hcalls.
      rewrite Hcalls. apply nth_error_last. }
    simpl. unfold resume. rewrite Hc. now destruct completes.
Qed.

Lemma X14_content_without_string_conversion_witness :
  let c := {| assistantId := js "1001"; call_conversationId := undefined; point := AwaitRead |} in
  let st := @run exampleRuntime initialPage
              [Change (js "hi"); Submit 1000 1000; Settle 0 (Response true)] in
  let data := js "{'conversation_id':'c1','content':[1,{'toString':1}]}" in
  let v := JArray [JNumber (js "1"); JObject [(js "toString", JNumber (js "1"))]] in
  let st' := @processLine exampleRuntime c st (js "data: " ++ data) in
  (@ToBoolean exampleRuntime (Some v) = true /\
   @ToString exampleRuntime v = None /\
   @decodeLine exampleRuntime (js "data: " ++ data) =
     (if @ToBoolean exampleRuntime (Some (JString (js "c1")))
      then [ConversationIdEvent (Some (JString (js "c1")))] else []) ++
     [ThrowingContent v] /\
   messages st' = messages st /\
   control st' = control st /\
   conversationId st' =
     (if @ToBoolean exampleRuntime (Some (JString (js "c1"))) &&
         negb (@ToBoolean exampleRuntime (call_conversationId c))
      then Some (JString (js "c1")) else conversationId st) /\
   crashed st' =
     crashed st ||
     existsb (fun msg => JSString.eqb (id msg) (assistantId c)) (messages st)) /\
  crashed st' = true /\
  transcript st' = None /\
  @ToString exampleRuntime (JArray [JNumber (js "1"); JNull; JArray [JBool true]; JObject []]) =
    Some (js "1,,true,[object Object]").
Proof.
  cbv zeta. split; [|vm_compute; repeat split; reflexivity].
  apply (proj1 (@X14_content_without_string_conversion exampleRuntime)
           {| assistantId := js "1001"; call_conversationId := undefined; point := AwaitRead |}
           (@run exampleRuntime initialPage
              [Change (js "hi"); Submit 1000 1000; Settle 0 (Response true)])
           (js "{'conversation_id':'c1','content':[1,{'toString':1}]}")
           (Some (JString (js "c1")))
           (JArray [JNumber (js "1"); JObject [(js "toString", JNumber (js "1"))]])).
  - vm_compute. reflexivity.
  - reflexivity.
Defined.
